(** * md: tree discovery, flattening and the dual-pane controller

    A shallow embedding of the Go sources of the terminal markdown viewer:
    the file tree ([FileNode], [addToTree], [sortTree], [FlattenTree],
    [CollectFiles]), the two scans ([FindMarkdownFilesQuick],
    [FindMarkdownFilesWithDepth]), the dual-pane model with its [Update]
    function, and the render step of the single-file model.

    Go strings are byte strings: they are [string] here, one [ascii] per byte.
    Go's [int] is a 64-bit integer: it is a [Z], and the arithmetic on model
    fields wraps around through [int64].  [float64] is Rocq's primitive
    binary64 [float]. *)

From Stdlib Require Import ZArith String Ascii List Bool Lia.
From Stdlib Require Import Floats Uint63 Relations Sorted.
From stdpp Require Import gmap.

#[local] Set Warnings "-inexact-float,-register-all".
#[local] Open Scope string_scope.
#[local] Open Scope Z_scope.

(** ** Integers *)

(** The value of a mathematical integer once stored in a Go [int]. *)
Definition int64 (z : Z) : Z := (z + 2 ^ 63) mod 2 ^ 64 - 2 ^ 63.

Definition in_int64 (z : Z) : Prop := - 2 ^ 63 <= z < 2 ^ 63.

Definition addi (a b : Z) : Z := int64 (a + b).
Definition subi (a b : Z) : Z := int64 (a - b).
(** Go's [/] truncates toward zero. *)
Definition divi (a b : Z) : Z := int64 (Z.quot a b).
Definition remi (a b : Z) : Z := Z.rem a b.

(** [len] of a slice. *)
Definition len {A : Type} (l : list A) : Z := Z.of_nat (List.length l).

(** [len] of a string, in bytes. *)
Definition slen (s : string) : Z := Z.of_nat (String.length s).

Definition min (a b : Z) : Z := if a <? b then a else b.
Definition max (a b : Z) : Z := if a >? b then a else b.

(** ** Floats *)

Definition minFloat (a b : float) : float := if PrimFloat.ltb a b then a else b.
Definition maxFloat (a b : float) : float := if PrimFloat.ltb b a then a else b.

(** [float64(n)] for an [int] n: rounded to the nearest binary64. *)
Definition float64_of_int (z : Z) : float :=
  if z <? 0 then PrimFloat.opp (PrimFloat.of_uint63 (Uint63.of_Z (- z)))
  else PrimFloat.of_uint63 (Uint63.of_Z z).

(** [int(f)] for a [float64] f: the fraction is discarded.  Go leaves the
    result open when the value does not fit (or is not a number); the model
    wraps it (and gives 0 for infinities and NaN). *)
Definition int_of_float64 (f : float) : Z :=
  match Prim2SF f with
  | S754_finite s m e =>
      let v := if 0 <=? e then Z.pos m * 2 ^ e else Z.quot (Z.pos m) (2 ^ (- e)) in
      int64 (if s then - v else v)
  | _ => 0
  end.

(** ** Strings *)

(** [strings.HasPrefix]. *)
Definition HasPrefix (s p : string) : bool := String.prefix p s.

(** [strings.HasSuffix]. *)
Definition HasSuffix (s suffix : string) : bool :=
  (String.length suffix <=? String.length s)%nat &&
  String.eqb (substring (String.length s - String.length suffix) (String.length suffix) s) suffix.

(** [strings.Contains]. *)
Fixpoint Contains (s sub : string) : bool :=
  HasPrefix s sub ||
  match s with
  | EmptyString => false
  | String _ rest => Contains rest sub
  end.

(** [strings.Split(s, sep)] for a one-byte separator: the pieces between the
    separators, so that a string without separator (the empty one too) gives
    one piece. *)
Fixpoint Split (s : string) (sep : ascii) : list string :=
  match s with
  | EmptyString => [EmptyString]
  | String c rest =>
      if Ascii.eqb c sep then EmptyString :: Split rest sep
      else match Split rest sep with
           | [] => [String c EmptyString]
           | piece :: pieces => String c piece :: pieces
           end
  end.

Definition newline : ascii := ascii_of_nat 10.
Definition slash : ascii := "/"%char.

(** The slice expression [s[0:hi]]: it panics ([None]) when [hi] is out of
    range. *)
Definition slice0 (s : string) (hi : Z) : option string :=
  if (0 <=? hi) && (hi <=? slen s) then Some (substring 0 (Z.to_nat hi) s) else None.

(** The library functions the sources call on names and paths:
    [strings.ToLower], [filepath.Join], [filepath.Base]. *)
Class GoLib := {
  ToLower : string -> string;
  Join : string -> string -> string;
  Base : string -> string
}.

(** ASCII letters to lower case, the part of [strings.ToLower] that the
    examples below run on. *)
Definition lower_byte (c : ascii) : ascii :=
  let n := nat_of_ascii c in
  if ((65 <=? n) && (n <=? 90))%nat then ascii_of_nat (n + 32) else c.

Fixpoint ascii_ToLower (s : string) : string :=
  match s with
  | EmptyString => EmptyString
  | String c rest => String (lower_byte c) (ascii_ToLower rest)
  end.

Definition last_segment (path : string) : string := List.last (Split path slash) path.

Definition posix : GoLib := {|
  ToLower := ascii_ToLower;
  Join := fun dir rel => dir ++ "/" ++ rel;
  Base := last_segment
|}.

(** ** The file tree *)

Inductive FileNode : Type :=
  Node (Name : string) (Path : string) (IsDir : bool) (Children : list FileNode).

Definition Name (n : FileNode) : string := let 'Node name _ _ _ := n in name.
Definition Path (n : FileNode) : string := let 'Node _ path _ _ := n in path.
Definition IsDir (n : FileNode) : bool := let 'Node _ _ isDir _ := n in isDir.
Definition Children (n : FileNode) : list FileNode := let 'Node _ _ _ cs := n in cs.

Definition set_Children (cs : list FileNode) (n : FileNode) : FileNode :=
  Node (Name n) (Path n) (IsDir n) cs.

(** The inner loop of [addToTree]: the first child with the wanted name, on
    which the walk goes on ([step]); [None] when there is none. *)
Fixpoint descend (part : string) (step : FileNode -> FileNode) (cs : list FileNode)
  : option (list FileNode) :=
  match cs with
  | [] => None
  | child :: rest =>
      if String.eqb (Name child) part then Some (step child :: rest)
      else option_map (cons child) (descend part step rest)
  end.

Section Tree.
Context {lib : GoLib}.

(** [addToTree], from the [i]-th part on, at the node [current].  [parts]
    is [strings.Split(relPath, Separator)]: a path below [basePath] is kept
    as the list of its entry names, which is what the split gives. *)
Fixpoint addParts (basePath : string) (all : list string) (isDir : bool)
         (i : nat) (parts : list string) (current : FileNode) : FileNode :=
  match parts with
  | [] => current
  | part :: rest =>
      let step := addParts basePath all isDir (S i) rest in
      match descend part step (Children current) with
      | Some cs => set_Children cs current
      | None =>
          let newNode :=
            Node part
                 (Join basePath (String.concat "/" (firstn (S i) all)))
                 (isDir || (Z.of_nat i <? len all - 1))
                 [] in
          set_Children (Children current ++ [step newNode]) current
      end
  end.

Definition addToTree (root : FileNode) (basePath : string) (parts : list string)
           (isDir : bool) : FileNode :=
  addParts basePath parts isDir 0 parts root.

(** The comparison given to [sort.Slice]: directories first, then by
    lower-cased name. *)
Definition less (a b : FileNode) : bool :=
  if negb (Bool.eqb (IsDir a) (IsDir b)) then IsDir a
  else String.ltb (ToLower (Name a)) (ToLower (Name b)).

(** [sort.Slice]: an insertion sort.  The library leaves the order of
    elements that compare equal open; this one reverses it. *)
Fixpoint insert (x : FileNode) (l : list FileNode) : list FileNode :=
  match l with
  | [] => [x]
  | y :: rest => if less x y then x :: l else y :: insert x rest
  end.

Definition sort_Slice (l : list FileNode) : list FileNode :=
  fold_right insert [] l.

(** [sortTree].  The source sorts the children and then sorts below each
    child; [less] reads the name and the directory flag only, which sorting
    below a child leaves alone, so the two orders give one result
    ([sortTree_eqn]). *)
Fixpoint sortTree (node : FileNode) : FileNode :=
  match node with
  | Node name path isDir children =>
      Node name path isDir (sort_Slice (List.map sortTree children))
  end.
End Tree.

(** The glyphs of the tree lines, as UTF-8 bytes. *)
Definition utf8 (l : list nat) : string :=
  fold_right (fun n s => String (ascii_of_nat n) s) EmptyString l.

(** U+2514 U+2500 U+2500 and a space. *)
Definition glyph_last : string := utf8 [226; 148; 148; 226; 148; 128; 226; 148; 128; 32]%nat.
(** U+251C U+2500 U+2500 and a space. *)
Definition glyph_mid : string := utf8 [226; 148; 156; 226; 148; 128; 226; 148; 128; 32]%nat.
(** U+2502 and three spaces. *)
Definition glyph_bar : string := utf8 [226; 148; 130; 32; 32; 32]%nat.
Definition four_spaces : string := "    ".

(** The display line of a node ([None]: the slice panics). *)
Definition lineOf (node : FileNode) (prefix : string) (isLast : bool) : option string :=
  match slice0 prefix (slen prefix - 4) with
  | None => None
  | Some base =>
      let line := base ++ (if isLast then glyph_last else glyph_mid) in
      Some (if IsDir node then line ++ "[+] " ++ Name node ++ "/"
            else line ++ "[-] " ++ Name node)
  end.

(** The prefix from which the children's prefix is made. *)
Definition newPrefix (prefix : string) (isLast : bool) : option string :=
  if String.eqb prefix "" then Some four_spaces
  else match slice0 prefix (slen prefix - 4) with
       | None => None
       | Some base => Some (base ++ (if isLast then four_spaces else glyph_bar))
       end.

Section ChildLoop.
Variable F : FileNode -> string -> bool -> option (list string).
Variable childPrefix : string.
Variable n : Z.

(** The loop over [node.Children] in [FlattenTree]. *)
Fixpoint flatten_children (cs : list FileNode) (i : Z) (lines : list string)
  : option (list string) :=
  match cs with
  | [] => Some lines
  | child :: rest =>
      match F child childPrefix (i =? n - 1) with
      | None => None
      | Some childLines => flatten_children rest (i + 1) (lines ++ childLines)
      end
  end.
End ChildLoop.

(** [FlattenTree]; [None] is a run-time panic of a slice expression. *)
Fixpoint FlattenTree (node : FileNode) (prefix : string) (isLast : bool)
  : option (list string) :=
  match node with
  | Node _ _ _ children =>
      match (if negb (String.eqb prefix "")
             then option_map (fun line => [line]) (lineOf node prefix isLast)
             else Some []) with
      | None => None
      | Some lines =>
          match newPrefix prefix isLast with
          | None => None
          | Some np =>
              flatten_children FlattenTree (np ++ four_spaces) (len children) children 0 lines
          end
      end
  end.

(** [CollectFiles]. *)
Fixpoint CollectFiles (node : FileNode) : list string :=
  match node with
  | Node _ path isDir children =>
      fold_left (fun files child => (files ++ CollectFiles child)%list) children
                (if negb isDir then [path] else [])
  end.

(** ** The file system and the scans *)

(** What a directory listing shows of an entry: its name, whether it is a
    directory and, for a directory, what [os.ReadDir] gives there: whether it
    reports an error, and the entries it returns (all of them, or on an error
    those read before it).  A symbolic link is an entry that is not a
    directory. *)
Inductive FsEntry : Type :=
| FsFile (name : string)
| FsDir (name : string) (readErr : bool) (entries : list FsEntry).

Definition entryName (d : FsEntry) : string :=
  match d with FsFile name => name | FsDir name _ _ => name end.

Definition entryIsDir (d : FsEntry) : bool :=
  match d with FsFile _ => false | FsDir _ _ _ => true end.

(** The error values that travel through [filepath.WalkDir]. *)
Inductive error : Type :=
| SkipDir
| SkipAll
| ErrOther (msg : string).

(** The operating system as the program sees it: [os.Lstat] of a path (the
    entry there, if any; a symbolic link is not followed, and is an entry
    that is not a directory), [os.ReadDir] of a path (the entries, or [None]
    when it reports an error; a symbolic link is followed, so it lists the
    directory a link leads to), the matcher that [os.Stat] and
    [gitignore.NewFromFile] give for an ignore file ([None] when the file is
    absent or does not load), and [os.ReadFile] (the contents, or the text of
    the error).  [filepath.WalkDir] starts from [os.Lstat] of the root; the
    quick scan calls [os.ReadDir] on it. *)
Record OS := {
  Lstat : string -> option FsEntry;
  ReadDir : string -> option (list FsEntry);
  NewFromFile : string -> option (string -> bool);
  ReadFile : string -> string + string
}.

Section WalkDir.
Context {S : Type}.
(** The callback: the path (its entry names below the root), the entry
    ([None] for nil), whether an error is passed in, and the state the
    closure writes to. *)
Variable fn : list string -> option FsEntry -> bool -> S -> S * option error.

Section Entries.
Variable walk : list string -> FsEntry -> S -> S * option error.
Variable path : list string.

(** The loop of [walkDir] over the entries of a directory. *)
Fixpoint walkEntries (dirs : list FsEntry) (s : S) : S * option error :=
  match dirs with
  | [] => (s, None)
  | d1 :: rest =>
      match walk (path ++ [entryName d1])%list d1 s with
      | (s1, None) => walkEntries rest s1
      | (s1, Some SkipDir) => (s1, None)
      | (s1, Some err) => (s1, Some err)
      end
  end.
End Entries.

(** [walkDir] of [path/filepath]. *)
Fixpoint walkDir (path : list string) (d : FsEntry) (s : S) : S * option error :=
  match fn path (Some d) false s with
  | (s1, Some err) =>
      match err, entryIsDir d with
      | SkipDir, true => (s1, None)
      | _, _ => (s1, Some err)
      end
  | (s1, None) =>
      match d with
      | FsFile _ => (s1, None)
      | FsDir _ readErr dirs =>
          match (if readErr then fn path (Some d) true s1 else (s1, None)) with
          | (s2, Some SkipDir) => (s2, None)
          | (s2, Some err) => (s2, Some err)
          | (s2, None) => walkEntries walkDir path dirs s2
          end
      end
  end.

(** [filepath.WalkDir]. *)
Definition WalkDir (root : option FsEntry) (s : S) : S * option error :=
  let '(s1, err) :=
    match root with
    | None => fn [] None true s
    | Some d => walkDir [] d s
    end in
  match err with
  | Some SkipDir | Some SkipAll => (s1, None)
  | _ => (s1, err)
  end.
End WalkDir.

Section Scan.
Context {lib : GoLib}.
Variable os : OS.

(** The ignore file of a scan. *)
Definition loadIgnore (rootPath : string) (includeIgnored : bool)
  : option (string -> bool) :=
  if negb includeIgnored then NewFromFile os (Join rootPath ".gitignore") else None.

Definition ignored (ignore : option (string -> bool)) (includeIgnored : bool)
           (relPath : string) : bool :=
  negb includeIgnored &&
  match ignore with Some matcher => matcher relPath | None => false end.

(** The body of the loop of [FindMarkdownFilesQuick] for one entry. *)
Definition quickEntry (rootPath : string) (includeIgnored : bool)
           (ignore : option (string -> bool)) (root : FileNode) (entry : FsEntry)
  : FileNode :=
  let name := entryName entry in
  if HasPrefix name "." then root
  else if ignored ignore includeIgnored name then root
  else if entryIsDir entry then addToTree root rootPath [name] true
  else if HasSuffix (ToLower name) ".md" then addToTree root rootPath [name] false
  else root.

Definition FindMarkdownFilesQuick (rootPath : string) (includeIgnored : bool)
  : option FileNode * option error :=
  let ignore := loadIgnore rootPath includeIgnored in
  let root := Node (Base rootPath) rootPath true [] in
  match ReadDir os rootPath with
  | None => (Some root, None)
  | Some entries =>
      (Some (sortTree (fold_left (quickEntry rootPath includeIgnored ignore) entries root)),
       None)
  end.

(** The function given to [filepath.WalkDir] by
    [FindMarkdownFilesWithDepth]; the tree under construction is its
    state.  The root is the path without names, whose relative path is
    ["."]. *)
Definition visit (rootPath : string) (includeIgnored : bool) (maxDepth : Z)
           (ignore : option (string -> bool))
           (path : list string) (d : option FsEntry) (err : bool) (root : FileNode)
  : FileNode * option error :=
  if err then (root, None)
  else match d with
  | None => (root, None)
  | Some d =>
      let isRoot := match path with [] => true | _ => false end in
      let depth := if isRoot then 0 else len path - 1 in
      if (maxDepth >=? 0) && (depth >? maxDepth) then
        (root, if entryIsDir d then Some SkipDir else None)
      else if entryIsDir d && HasPrefix (entryName d) "." && negb isRoot then
        (root, Some SkipDir)
      else if negb isRoot && ignored ignore includeIgnored (String.concat "/" path) then
        (root, if entryIsDir d then Some SkipDir else None)
      else if negb (entryIsDir d) && negb (HasSuffix (ToLower (entryName d)) ".md") then
        (root, None)
      else if isRoot then (root, None)
      else (addToTree root rootPath path (entryIsDir d), None)
  end.

Definition FindMarkdownFilesWithDepth (rootPath : string) (includeIgnored : bool)
           (maxDepth : Z) : option FileNode * option error :=
  let ignore := loadIgnore rootPath includeIgnored in
  let root := Node (Base rootPath) rootPath true [] in
  match WalkDir (visit rootPath includeIgnored maxDepth ignore) (Lstat os rootPath) root with
  | (_, Some err) => (None, Some err)
  | (root', None) => (Some (sortTree root'), None)
  end.

Definition FindMarkdownFiles (rootPath : string) (includeIgnored : bool)
  : option FileNode * option error :=
  FindMarkdownFilesWithDepth rootPath includeIgnored (-1).
End Scan.

(** Calls on a [*FileNode] that may be nil: both functions return an empty
    slice there.  [FlattenTree] from the empty prefix never panics (this is
    proved below), so the controller reads its lines. *)
Definition CollectFiles_ptr (tree : option FileNode) : list string :=
  match tree with Some node => CollectFiles node | None => [] end.

Definition FlattenTree_ptr (tree : option FileNode) : list string :=
  match tree with
  | Some node => match FlattenTree node "" false with Some lines => lines | None => [] end
  | None => []
  end.

(** [findTreeLineForFile]. *)
Fixpoint findLine (filename : string) (treeLines : list string) (i : Z) : Z :=
  match treeLines with
  | [] => 0
  | line :: rest =>
      if Contains line "[-]" && Contains line filename then i
      else findLine filename rest (i + 1)
  end.

Definition findTreeLineForFile (fileIndex : Z) (treeLines allFiles : list string) : Z :=
  if (fileIndex <? 0) || (fileIndex >=? len allFiles) then 0
  else
    let targetFile := nth (Z.to_nat fileIndex) allFiles "" in
    let parts := Split targetFile slash in
    let filename := nth (Z.to_nat (len parts - 1)) parts "" in
    findLine filename treeLines 0.

(** ** The rendering engine *)

(** The interface of the markdown renderer: a renderer for a wrap width
    ([None]: the constructor fails) and its [Render] (the rendered text, or
    the text of the error). *)
Class Glamour := {
  TermRenderer : Type;
  NewTermRenderer : Z -> option TermRenderer;
  Render : TermRenderer -> string -> string + string
}.

(** ** The dual-pane model *)

Section DualPane.
Context {lib : GoLib} {engine : Glamour}.

Record DualPaneModel := {
  fileTree : option FileNode;
  allFiles : list string;
  treeLines : list string;
  selectedIndex : Z;
  treeViewport : Z;
  contentViewport : Z;
  currentContent : string;
  renderedLines : list string;
  width : Z;
  height : Z;
  splitRatio : float;
  renderer : option TermRenderer;
  focusedPane : Z;
  raw : bool;
  treeSelectedIdx : Z;
  includeIgnored : bool;
  rootPath : string;
  isExpanding : bool;
  currentDepth : Z
}.

(** The process-wide [dualRendererCache]. *)
Definition Cache : Type := gmap Z TermRenderer.

(** Assignments to the fields. *)
Definition set_tree (t : option FileNode) (files lines : list string) (m : DualPaneModel) :=
  {| fileTree := t; allFiles := files; treeLines := lines;
     selectedIndex := selectedIndex m; treeViewport := treeViewport m;
     contentViewport := contentViewport m; currentContent := currentContent m;
     renderedLines := renderedLines m; width := width m; height := height m;
     splitRatio := splitRatio m; renderer := renderer m; focusedPane := focusedPane m;
     raw := raw m; treeSelectedIdx := treeSelectedIdx m;
     includeIgnored := includeIgnored m; rootPath := rootPath m;
     isExpanding := isExpanding m; currentDepth := currentDepth m |}.

Definition set_treeLines (lines : list string) (m : DualPaneModel) :=
  set_tree (fileTree m) (allFiles m) lines m.

Definition set_selection (index line : Z) (m : DualPaneModel) :=
  {| fileTree := fileTree m; allFiles := allFiles m; treeLines := treeLines m;
     selectedIndex := index; treeViewport := treeViewport m;
     contentViewport := contentViewport m; currentContent := currentContent m;
     renderedLines := renderedLines m; width := width m; height := height m;
     splitRatio := splitRatio m; renderer := renderer m; focusedPane := focusedPane m;
     raw := raw m; treeSelectedIdx := line;
     includeIgnored := includeIgnored m; rootPath := rootPath m;
     isExpanding := isExpanding m; currentDepth := currentDepth m |}.

Definition set_treeViewport (v : Z) (m : DualPaneModel) :=
  {| fileTree := fileTree m; allFiles := allFiles m; treeLines := treeLines m;
     selectedIndex := selectedIndex m; treeViewport := v;
     contentViewport := contentViewport m; currentContent := currentContent m;
     renderedLines := renderedLines m; width := width m; height := height m;
     splitRatio := splitRatio m; renderer := renderer m; focusedPane := focusedPane m;
     raw := raw m; treeSelectedIdx := treeSelectedIdx m;
     includeIgnored := includeIgnored m; rootPath := rootPath m;
     isExpanding := isExpanding m; currentDepth := currentDepth m |}.

Definition set_contentViewport (v : Z) (m : DualPaneModel) :=
  {| fileTree := fileTree m; allFiles := allFiles m; treeLines := treeLines m;
     selectedIndex := selectedIndex m; treeViewport := treeViewport m;
     contentViewport := v; currentContent := currentContent m;
     renderedLines := renderedLines m; width := width m; height := height m;
     splitRatio := splitRatio m; renderer := renderer m; focusedPane := focusedPane m;
     raw := raw m; treeSelectedIdx := treeSelectedIdx m;
     includeIgnored := includeIgnored m; rootPath := rootPath m;
     isExpanding := isExpanding m; currentDepth := currentDepth m |}.

Definition set_content (content : string) (lines : list string) (m : DualPaneModel) :=
  {| fileTree := fileTree m; allFiles := allFiles m; treeLines := treeLines m;
     selectedIndex := selectedIndex m; treeViewport := treeViewport m;
     contentViewport := contentViewport m; currentContent := content;
     renderedLines := lines; width := width m; height := height m;
     splitRatio := splitRatio m; renderer := renderer m; focusedPane := focusedPane m;
     raw := raw m; treeSelectedIdx := treeSelectedIdx m;
     includeIgnored := includeIgnored m; rootPath := rootPath m;
     isExpanding := isExpanding m; currentDepth := currentDepth m |}.

Definition set_renderedLines (lines : list string) (m : DualPaneModel) :=
  set_content (currentContent m) lines m.

Definition set_currentContent (content : string) (m : DualPaneModel) :=
  set_content content (renderedLines m) m.

Definition set_size (w h : Z) (m : DualPaneModel) :=
  {| fileTree := fileTree m; allFiles := allFiles m; treeLines := treeLines m;
     selectedIndex := selectedIndex m; treeViewport := treeViewport m;
     contentViewport := contentViewport m; currentContent := currentContent m;
     renderedLines := renderedLines m; width := w; height := h;
     splitRatio := splitRatio m; renderer := renderer m; focusedPane := focusedPane m;
     raw := raw m; treeSelectedIdx := treeSelectedIdx m;
     includeIgnored := includeIgnored m; rootPath := rootPath m;
     isExpanding := isExpanding m; currentDepth := currentDepth m |}.

Definition set_view (ratio : float) (r : option TermRenderer) (pane : Z) (rw : bool)
           (m : DualPaneModel) :=
  {| fileTree := fileTree m; allFiles := allFiles m; treeLines := treeLines m;
     selectedIndex := selectedIndex m; treeViewport := treeViewport m;
     contentViewport := contentViewport m; currentContent := currentContent m;
     renderedLines := renderedLines m; width := width m; height := height m;
     splitRatio := ratio; renderer := r; focusedPane := pane;
     raw := rw; treeSelectedIdx := treeSelectedIdx m;
     includeIgnored := includeIgnored m; rootPath := rootPath m;
     isExpanding := isExpanding m; currentDepth := currentDepth m |}.

Definition set_splitRatio (ratio : float) (m : DualPaneModel) :=
  set_view ratio (renderer m) (focusedPane m) (raw m) m.
Definition set_renderer (r : option TermRenderer) (m : DualPaneModel) :=
  set_view (splitRatio m) r (focusedPane m) (raw m) m.
Definition set_focusedPane (pane : Z) (m : DualPaneModel) :=
  set_view (splitRatio m) (renderer m) pane (raw m) m.
Definition set_raw (rw : bool) (m : DualPaneModel) :=
  set_view (splitRatio m) (renderer m) (focusedPane m) rw m.

Definition set_scan (expanding : bool) (depth : Z) (m : DualPaneModel) :=
  {| fileTree := fileTree m; allFiles := allFiles m; treeLines := treeLines m;
     selectedIndex := selectedIndex m; treeViewport := treeViewport m;
     contentViewport := contentViewport m; currentContent := currentContent m;
     renderedLines := renderedLines m; width := width m; height := height m;
     splitRatio := splitRatio m; renderer := renderer m; focusedPane := focusedPane m;
     raw := raw m; treeSelectedIdx := treeSelectedIdx m;
     includeIgnored := includeIgnored m; rootPath := rootPath m;
     isExpanding := expanding; currentDepth := depth |}.

Definition set_isExpanding (expanding : bool) (m : DualPaneModel) :=
  set_scan expanding (currentDepth m) m.
Definition set_currentDepth (depth : Z) (m : DualPaneModel) :=
  set_scan (isExpanding m) depth m.

(** [NewDualPaneModel], given the working directory. *)
Definition NewDualPaneModel (cwd : string) (incl : bool) : DualPaneModel :=
  {| fileTree := Some (Node "Loading..." cwd true []);
     allFiles := [];
     treeLines := ["Loading markdown files..."];
     selectedIndex := 0; treeViewport := 0; contentViewport := 0;
     currentContent := ""; renderedLines := [];
     width := 0; height := 0;
     splitRatio := 0.3%float;
     renderer := None;
     focusedPane := 0; raw := false; treeSelectedIdx := 0;
     includeIgnored := incl; rootPath := cwd;
     isExpanding := false; currentDepth := -1 |}.

(** [ensureRenderer]. *)
Definition ensureRenderer (st : DualPaneModel * Cache) : DualPaneModel * Cache :=
  let '(m, cache) := st in
  match renderer m with
  | Some _ => (m, cache)
  | None =>
      let width := 60 in
      match cache !! width with
      | Some cached => (set_renderer (Some cached) m, cache)
      | None =>
          match NewTermRenderer width with
          | Some r => (set_renderer (Some r) m, <[width := r]> cache)
          | None => (m, cache)
          end
      end
  end.

(** [refreshContent]. *)
Definition refreshContent (st : DualPaneModel * Cache) : DualPaneModel * Cache :=
  let '(m, cache) := st in
  if raw m then (set_renderedLines (Split (currentContent m) newline) m, cache)
  else
    let '(m, cache) := ensureRenderer (m, cache) in
    match renderer m with
    | Some r =>
        let rendered :=
          match Render r (currentContent m) with
          | inl text => text
          | inr _ => currentContent m
          end in
        (set_renderedLines (Split rendered newline) m, cache)
    | None => (set_renderedLines (Split (currentContent m) newline) m, cache)
    end.

Variable os : OS.

(** [loadFile]. *)
Definition loadFile (index : Z) (st : DualPaneModel * Cache) : DualPaneModel * Cache :=
  let '(m, cache) := st in
  if (index <? 0) || (index >=? len (allFiles m)) then (m, cache)
  else
    match ReadFile os (nth (Z.to_nat index) (allFiles m) "") with
    | inr err =>
        let content := "Error loading file: " ++ err in
        (set_content content (Split content newline) m, cache)
    | inl content =>
        let '(m, cache) := refreshContent (set_currentContent content m, cache) in
        (set_contentViewport 0 m, cache)
    end.

(** [adjustTreeViewport]. *)
Definition adjustTreeViewport (m : DualPaneModel) : DualPaneModel :=
  let availableHeight := subi (height m) 2 in
  if treeSelectedIdx m <? treeViewport m then set_treeViewport (treeSelectedIdx m) m
  else if treeSelectedIdx m >=? addi (treeViewport m) availableHeight then
    set_treeViewport (addi (subi (treeSelectedIdx m) availableHeight) 1) m
  else m.

(** [updateRendererWidth]. *)
Definition wrappingWidth (m : DualPaneModel) : Z :=
  let contentWidth :=
    int_of_float64 (PrimFloat.mul (float64_of_int (width m))
                                  (PrimFloat.sub 1%float (splitRatio m))) in
  let wrappingWidth := subi contentWidth 6 in
  if wrappingWidth <? 40 then 40 else wrappingWidth.

Definition updateRendererWidth (st : DualPaneModel * Cache) : DualPaneModel * Cache :=
  let '(m, cache) := st in
  let wrappingWidth := wrappingWidth m in
  match cache !! wrappingWidth with
  | Some cached => (set_renderer (Some cached) m, cache)
  | None =>
      match NewTermRenderer wrappingWidth with
      | Some r =>
          refreshContent (set_renderer (Some r) m, <[wrappingWidth := r]> cache)
      | None => (m, cache)
      end
  end.

(** The messages of the event loop. *)
Inductive MouseEventType := MouseWheelUp | MouseWheelDown | MouseOther.

Inductive Msg :=
| initialLoadMsg
| loadCompleteMsg (tree : option FileNode) (err : option error)
| expandTreeMsg
| performExpansionMsg
| WindowSizeMsg (Width Height : Z)
| KeyMsg (key : string)
| MouseMsg (Type_ : MouseEventType) (X : Z)
| otherMsg.

(** The commands [Update] hands back: none, [tea.Quit], a [tea.Tick] that
    delivers a message after some milliseconds, and the closure that runs
    the quick scan. *)
Inductive Cmd :=
| CmdNil
| Quit
| Tick (ms : Z) (msg : Msg)
| QuickScan (rootPath : string) (includeIgnored : bool).

(** What the closure of [initialLoadMsg] computes. *)
Definition runQuickScan (rootPath : string) (incl : bool) : Msg :=
  match FindMarkdownFilesQuick os rootPath incl with
  | (_, Some err) => loadCompleteMsg None (Some err)
  | (tree, None) => loadCompleteMsg tree None
  end.

(** [expandTree]. *)
Definition expandTree (m : DualPaneModel) : Cmd :=
  if isExpanding m then CmdNil else Tick 50 performExpansionMsg.

Definition isKey (key : string) (names : list string) : bool :=
  existsb (String.eqb key) names.

Definition errorText (err : error) : string :=
  match err with
  | SkipDir => "skip this directory"
  | SkipAll => "skip everything and stop the walk"
  | ErrOther msg => msg
  end.

(** The key cases of [Update]. *)
Definition updateKey (key : string) (st : DualPaneModel * Cache)
  : DualPaneModel * Cache * Cmd :=
  let '(m, cache) := st in
  if isKey key ["q"; "ctrl+c"] then (m, cache, Quit)
  else if isKey key ["tab"] then
    (set_focusedPane (remi (addi (focusedPane m) 1) 2) m, cache, CmdNil)
  else if isKey key ["h"; "left"] then
    (if focusedPane m =? 1 then set_focusedPane 0 m else m, cache, CmdNil)
  else if isKey key ["l"; "right"] then
    (if focusedPane m =? 0 then set_focusedPane 1 m else m, cache, CmdNil)
  else if isKey key ["j"; "down"] then
    if focusedPane m =? 0 then
      if selectedIndex m <? len (allFiles m) - 1 then
        let index := addi (selectedIndex m) 1 in
        let m := set_selection index (findTreeLineForFile index (treeLines m) (allFiles m)) m in
        let '(m, cache) := loadFile (selectedIndex m) (m, cache) in
        (adjustTreeViewport m, cache, CmdNil)
      else (m, cache, CmdNil)
    else
      let availableHeight := subi (height m) 2 in
      if contentViewport m <? subi (len (renderedLines m)) availableHeight then
        (set_contentViewport (addi (contentViewport m) 1) m, cache, CmdNil)
      else (m, cache, CmdNil)
  else if isKey key ["k"; "up"] then
    if focusedPane m =? 0 then
      if selectedIndex m >? 0 then
        let index := subi (selectedIndex m) 1 in
        let m := set_selection index (findTreeLineForFile index (treeLines m) (allFiles m)) m in
        let '(m, cache) := loadFile (selectedIndex m) (m, cache) in
        (adjustTreeViewport m, cache, CmdNil)
      else (m, cache, CmdNil)
    else
      if contentViewport m >? 0 then
        (set_contentViewport (subi (contentViewport m) 1) m, cache, CmdNil)
      else (m, cache, CmdNil)
  else if isKey key ["enter"] then
    if (focusedPane m =? 0) && (selectedIndex m >=? 0)
       && (selectedIndex m <? len (allFiles m)) then
      (set_contentViewport 0 (set_focusedPane 1 m), cache, CmdNil)
    else (m, cache, CmdNil)
  else if isKey key ["ctrl+d"; "pgdown"] then
    if focusedPane m =? 1 then
      let availableHeight := subi (height m) 2 in
      let m := set_contentViewport (addi (contentViewport m) (divi availableHeight 2)) m in
      if contentViewport m >? subi (len (renderedLines m)) availableHeight then
        (set_contentViewport (max 0 (subi (len (renderedLines m)) availableHeight)) m,
         cache, CmdNil)
      else (m, cache, CmdNil)
    else (m, cache, CmdNil)
  else if isKey key ["ctrl+u"; "pgup"] then
    if focusedPane m =? 1 then
      let availableHeight := subi (height m) 2 in
      let m := set_contentViewport (subi (contentViewport m) (divi availableHeight 2)) m in
      if contentViewport m <? 0 then (set_contentViewport 0 m, cache, CmdNil)
      else (m, cache, CmdNil)
    else (m, cache, CmdNil)
  else if isKey key ["g"; "home"] then
    if focusedPane m =? 1 then (set_contentViewport 0 m, cache, CmdNil)
    else
      let m := set_selection 0 (findTreeLineForFile 0 (treeLines m) (allFiles m)) m in
      let m := set_treeViewport 0 m in
      if len (allFiles m) >? 0 then
        let '(m, cache) := loadFile 0 (m, cache) in (m, cache, CmdNil)
      else (m, cache, CmdNil)
  else if isKey key ["G"; "end"] then
    if focusedPane m =? 1 then
      let availableHeight := subi (height m) 2 in
      (set_contentViewport (max 0 (subi (len (renderedLines m)) availableHeight)) m,
       cache, CmdNil)
    else
      let index := len (allFiles m) - 1 in
      let m := set_selection index (findTreeLineForFile index (treeLines m) (allFiles m)) m in
      let '(m, cache) := loadFile (selectedIndex m) (m, cache) in
      (adjustTreeViewport m, cache, CmdNil)
  else if isKey key ["r"] then
    let '(m, cache) := refreshContent (set_raw (negb (raw m)) m, cache) in
    (m, cache, CmdNil)
  else if isKey key ["<"; "{"] then
    let m := set_splitRatio (maxFloat 0.2%float (PrimFloat.sub (splitRatio m) 0.05%float)) m in
    let '(m, cache) := updateRendererWidth (m, cache) in
    (m, cache, CmdNil)
  else if isKey key [">"; "}"] then
    let m := set_splitRatio (minFloat 0.5%float (PrimFloat.add (splitRatio m) 0.05%float)) m in
    let '(m, cache) := updateRendererWidth (m, cache) in
    (m, cache, CmdNil)
  else if isKey key ["e"] then
    if negb (isExpanding m) then (m, cache, expandTree m) else (m, cache, CmdNil)
  else (m, cache, CmdNil).

(** The mouse case of [Update]. *)
Definition updateMouse (type : MouseEventType) (X : Z) (m : DualPaneModel)
  : DualPaneModel :=
  match type with
  | MouseOther => m
  | _ =>
      let isUp := match type with MouseWheelUp => true | _ => false end in
      let treeWidth :=
        int_of_float64 (PrimFloat.mul (float64_of_int (width m)) (splitRatio m)) in
      if X <? treeWidth then
        if isUp && (treeViewport m >? 0) then
          set_treeViewport (subi (treeViewport m) 1) m
        else if negb isUp
                && (treeViewport m <? subi (len (treeLines m)) (subi (height m) 2)) then
          set_treeViewport (addi (treeViewport m) 1) m
        else m
      else
        let availableHeight := subi (height m) 2 in
        if isUp && (contentViewport m >? 0) then
          set_contentViewport (subi (contentViewport m) 1) m
        else if negb isUp
                && (contentViewport m <? subi (len (renderedLines m)) availableHeight) then
          set_contentViewport (addi (contentViewport m) 1) m
        else m
  end.

(** [Update] of the dual-pane model. *)
Definition Update (st : DualPaneModel * Cache) (msg : Msg)
  : DualPaneModel * Cache * Cmd :=
  let '(m, cache) := st in
  match msg with
  | initialLoadMsg =>
      if currentDepth m =? -1 then
        (set_scan true 0 m, cache, QuickScan (rootPath m) (includeIgnored m))
      else (m, cache, CmdNil)
  | loadCompleteMsg tree (Some err) =>
      (set_isExpanding false
         (set_treeLines ["Error loading files: " ++ errorText err] m), cache, CmdNil)
  | loadCompleteMsg tree None =>
      let files := CollectFiles_ptr tree in
      let m := set_isExpanding false (set_tree tree files (FlattenTree_ptr tree) m) in
      let '(m, cache) :=
        if len (allFiles m) >? 0 then
          loadFile 0 (set_selection 0 (findTreeLineForFile 0 (treeLines m) (allFiles m)) m,
                      cache)
        else (m, cache) in
      (m, cache, Tick 500 expandTreeMsg)
  | expandTreeMsg => (m, cache, expandTree m)
  | performExpansionMsg =>
      if negb (isExpanding m) then
        let m := set_scan true (addi (currentDepth m) 1) m in
        let m :=
          match FindMarkdownFilesWithDepth os (rootPath m) (includeIgnored m)
                                           (currentDepth m) with
          | (newTree, None) =>
              let newFiles := CollectFiles_ptr newTree in
              if len newFiles >? len (allFiles m) then
                let m := set_tree newTree newFiles (FlattenTree_ptr newTree) m in
                if selectedIndex m <? len (allFiles m) then
                  set_selection (selectedIndex m)
                    (findTreeLineForFile (selectedIndex m) (treeLines m) (allFiles m)) m
                else m
              else m
          | (_, Some _) => m
          end in
        let m := set_isExpanding false m in
        if currentDepth m <? 5 then (m, cache, expandTree m) else (m, cache, CmdNil)
      else (m, cache, CmdNil)
  | WindowSizeMsg Width Height =>
      let '(m, cache) := updateRendererWidth (set_size Width (subi Height 2) m, cache) in
      (m, cache, CmdNil)
  | KeyMsg key => updateKey key (m, cache)
  | MouseMsg type X => (updateMouse type X m, cache, CmdNil)
  | otherMsg => (m, cache, CmdNil)
  end.
End DualPane.

(** ** The single-file model: rendering *)

Section SingleFile.
Context {engine : Glamour}.

Record SingleFileModel := {
  sf_filepath : string;
  sf_content : string;
  sf_lines : list string;
  sf_viewport : Z;
  sf_width : Z;
  sf_height : Z;
  sf_renderer : option TermRenderer;
  sf_raw : bool;
  sf_contentLoaded : bool;
  sf_rendererCreated : bool
}.

(** The message [contentRenderedMsg]. *)
Record contentRenderedMsg := {
  cr_lines : list string;
  cr_err : option string
}.

(** What the command of [renderContentAsync] computes. *)
Definition renderContentAsync (content : string) (renderer : option TermRenderer)
           (raw : bool) : contentRenderedMsg :=
  match renderer with
  | Some r =>
      if raw || String.eqb content "" then
        {| cr_lines := Split content newline; cr_err := None |}
      else
        match Render r content with
        | inr err => {| cr_lines := Split content newline; cr_err := Some err |}
        | inl rendered => {| cr_lines := Split rendered newline; cr_err := None |}
        end
  | None => {| cr_lines := Split content newline; cr_err := None |}
  end.

(** The case [contentRenderedMsg] of the single-file [Update]. *)
Definition SingleFile_contentRendered (m : SingleFileModel) (msg : contentRenderedMsg)
  : SingleFileModel :=
  {| sf_filepath := sf_filepath m;
     sf_content := sf_content m;
     sf_lines := match cr_err msg with
                 | None => cr_lines msg
                 | Some _ => Split (sf_content m) newline
                 end;
     sf_viewport := sf_viewport m;
     sf_width := sf_width m;
     sf_height := sf_height m;
     sf_renderer := sf_renderer m;
     sf_raw := sf_raw m;
     sf_contentLoaded := sf_contentLoaded m;
     sf_rendererCreated := sf_rendererCreated m |}.
End SingleFile.

(** ** Vocabulary of the properties *)

(** The calls of [FlattenTree]: a call on a node calls, for each child, with
    the new prefix followed by four spaces, once its own slices are done. *)
Inductive call : Type := Call (node : FileNode) (prefix : string) (isLast : bool).

Definition callPrefix (c : call) : string := let 'Call _ prefix _ := c in prefix.

Inductive calls : call -> call -> Prop :=
| calls_child node prefix isLast np i child :
    newPrefix prefix isLast = Some np ->
    nth_error (Children node) i = Some child ->
    calls (Call node prefix isLast)
          (Call child (np ++ four_spaces) (Z.of_nat i =? len (Children node) - 1)).

(** A slice of a call is in bounds. *)
Definition slices_in_bounds (c : call) : Prop :=
  callPrefix c <> "" ->
  0 <= slen (callPrefix c) - 4 <= slen (callPrefix c)
  /\ slice0 (callPrefix c) (slen (callPrefix c) - 4) <> None.

(** The marker field of a display line: the line from its first bracket on
    (the indentation and the branch glyphs before it hold none). *)
Definition bracket : ascii := "["%char.

Fixpoint marker (line : string) : string :=
  match line with
  | EmptyString => EmptyString
  | String c rest => if Ascii.eqb c bracket then line else marker rest
  end.

Fixpoint no_bracket (s : string) : bool :=
  match s with
  | EmptyString => true
  | String c rest => negb (Ascii.eqb c bracket) && no_bracket rest
  end.

(** A display line that carries the document marker. *)
Definition doc_marked (line : string) : bool := HasPrefix (marker line) "[-] ".

(** The document nodes of a tree, depth first, children in their order. *)
Fixpoint docNodes (node : FileNode) : list FileNode :=
  match node with
  | Node _ _ isDir children =>
      ((if negb isDir then [node] else []) ++ flat_map docNodes children)%list
  end.

(** The display line of a document: indentation and glyphs, the document
    marker, the name. *)
Definition doc_line (doc : FileNode) (line : string) : Prop :=
  exists indent, no_bracket indent = true /\ line = indent ++ "[-] " ++ Name doc.

Section SortedVocabulary.
Context {lib : GoLib}.

(** The order of the children of a node: no directory after a document,
    and among directories, and among documents, lower-cased names that do
    not decrease. *)
Definition sorted_children (cs : list FileNode) : Prop :=
  forall i j a b,
    (i < j)%nat -> nth_error cs i = Some a -> nth_error cs j = Some b ->
    (IsDir b = true -> IsDir a = true)
    /\ (IsDir a = IsDir b ->
        String.leb (ToLower (Name a)) (ToLower (Name b)) = true).

(** [a] may stand before [b]: [b] is not less than [a]. *)
Definition before (a b : FileNode) : Prop := less b a = false.

Inductive tree_sorted : FileNode -> Prop :=
| tree_sorted_node name path isDir children :
    sorted_children children ->
    Forall tree_sorted children ->
    tree_sorted (Node name path isDir children).
End SortedVocabulary.

(** A root whose entries cannot be read: [os.ReadDir] reports an error on
    the path, and what [os.Lstat] shows there is nothing, or no directory (a
    file, or a symbolic link whose directory cannot be listed), or a
    directory whose listing reports an error and returns no entry. *)
Definition root_unreadable (os : OS) (rootPath : string) : Prop :=
  ReadDir os rootPath = None
  /\ match Lstat os rootPath with
     | None => True
     | Some (FsFile _) => True
     | Some (FsDir _ readErr entries) => readErr = true /\ entries = []
     end.

(** The nodes of a tree other than its root. *)
Fixpoint descendants (node : FileNode) : list FileNode :=
  match node with
  | Node _ _ _ children => flat_map (fun c => c :: descendants c) children
  end.

(** A child of the root of a quick scan: its name has no leading dot and it
    has no children. *)
Definition visible_leaf (c : FileNode) : Prop :=
  HasPrefix (Name c) "." = false /\ Children c = [].

(** ** Worlds of the examples *)

(** A directory with a hidden document next to a plain one. *)
Definition hidden_doc_os : OS := {|
  Lstat := fun path =>
    if String.eqb path "/r"
    then Some (FsDir "r" false [FsFile ".hidden.md"; FsFile "README.md"])
    else None;
  ReadDir := fun path =>
    if String.eqb path "/r"
    then Some [FsFile ".hidden.md"; FsFile "README.md"]
    else None;
  NewFromFile := fun _ => None;
  ReadFile := fun _ => inr "open: permission denied"
|}.

Section ViewportVocabulary.
Context {engine : Glamour}.

(** The visible height of the content pane. *)
Definition availableHeight (m : DualPaneModel) : Z := subi (height m) 2.

(** The content viewport is within its range. *)
Definition viewport_ok (m : DualPaneModel) : Prop :=
  0 <= contentViewport m
    <= Z.max 0 (len (renderedLines m) - availableHeight m).





End ViewportVocabulary.

(** A small rendering engine to run sessions on: a renderer is its wrap
    width, rendering breaks a line after that many bytes, and a text with a
    NUL byte is an error.  Its layout is its own, not glamour's (which fills
    paragraphs): what is said of the program at a session that shows
    rendered lines is proved for every engine, or in raw mode, where the
    lines are those of the document. *)
Fixpoint wrap_from (w col : nat) (text : string) : string :=
  match text with
  | EmptyString => EmptyString
  | String c rest =>
      if Ascii.eqb c newline then String c (wrap_from w 0 rest)
      else if (w <=? col)%nat then String newline (String c (wrap_from w 1 rest))
      else String c (wrap_from w (S col) rest)
  end.

Definition nul : string := String (ascii_of_nat 0) EmptyString.

Definition wrap_engine : Glamour := {|
  TermRenderer := Z;
  NewTermRenderer := fun w => if 0 <? w then Some w else None;
  Render := fun w text =>
    if Contains text nul then inr "invalid input"
    else inl (wrap_from (Z.to_nat w) 0 text)
|}.


(** A document of thirty lines, the first of them 66 bytes long. *)
Definition long_line : string := String.concat "" (repeat "a" 66).

Definition thirty_lines : string :=
  String.concat (String newline EmptyString) (long_line :: repeat "text" 29).

(** A directory with a readable and an unreadable document. *)
Definition docs_os : OS := {|
  Lstat := fun path =>
    if String.eqb path "/r"
    then Some (FsDir "r" false [FsFile "a.md"; FsFile "b.md"])
    else None;
  ReadDir := fun path =>
    if String.eqb path "/r" then Some [FsFile "a.md"; FsFile "b.md"] else None;
  NewFromFile := fun _ => None;
  ReadFile := fun path =>
    if String.eqb path "/r/a.md" then inl thirty_lines
    else inr ("open " ++ path ++ ": permission denied")
|}.

(** The event loop on a list of messages. *)
Definition run {lib : GoLib} {engine : Glamour} (os : OS) (msgs : list Msg)
           (st : DualPaneModel * Cache) : DualPaneModel * Cache :=
  fold_left (fun st msg => fst (Update os st msg)) msgs st.


(** A root that is a symbolic link to a directory with one document:
    [os.Lstat] shows the link, [os.ReadDir] lists the directory. *)
Definition link_os : OS := {|
  Lstat := fun path => if String.eqb path "/l" then Some (FsFile "l") else None;
  ReadDir := fun path => if String.eqb path "/l" then Some [FsFile "a.md"] else None;
  NewFromFile := fun _ => None;
  ReadFile := fun _ => inl thirty_lines
|}.

(** The start of a session in the directory [/r]: the window gets its size,
    the quick scan completes, and the first document is shown. *)
Definition session_start (os : OS) (rows : Z) : list Msg :=
  [ initialLoadMsg;
    WindowSizeMsg 100 rows;
    runQuickScan (lib := posix) os "/r" false ].

Definition session (os : OS) (rows : Z) (keys : list Msg)
  : DualPaneModel (engine := wrap_engine) * Cache (engine := wrap_engine) :=
  run (lib := posix) os (session_start os rows ++ keys)%list
      (NewDualPaneModel "/r" false, ∅).

Definition sample_tree : FileNode :=
  Node "r" "/r" true
    [ Node "docs" "/r/docs" true
        [ Node "guide.md" "/r/docs/guide.md" false [];
          Node "tutorial.md" "/r/docs/tutorial.md" false [] ];
      Node "README.md" "/r/README.md" false [] ].

(** ** Vocabulary: paths and shape of a tree *)

(** The node a list of names leads to, taking at each level the first child
    with the name, as the inner loop of [addToTree] does. *)
Fixpoint findPath (parts : list string) (node : FileNode) : option FileNode :=
  match parts with
  | [] => Some node
  | part :: rest =>
      match List.find (fun c => String.eqb (Name c) part) (Children node) with
      | Some child => findPath rest child
      | None => None
      end
  end.

(** No two children of a node have the same name, at every level. *)
Inductive unique_names : FileNode -> Prop :=
| unique_names_node name path isDir children :
    List.NoDup (List.map Name children) ->
    Forall unique_names children ->
    unique_names (Node name path isDir children).

(** The number of levels below a node. *)
Fixpoint treeDepth (node : FileNode) : nat :=
  match node with
  | Node _ _ _ children =>
      fold_right (fun c d => Nat.max (S (treeDepth c)) d) 0%nat children
  end.

Section ScanVocabulary.
Context {lib : GoLib}.

(** What a scan puts into the tree: a directory whose name has no leading
    dot, or a document with the markdown extension. *)
Definition scanned_node (node : FileNode) : Prop :=
  if IsDir node then HasPrefix (Name node) "." = false
  else HasSuffix (ToLower (Name node)) ".md" = true.
End ScanVocabulary.

(** ** Vocabulary: the controller *)

Section ControllerVocabulary.
Context {engine : Glamour}.

(** Two models that differ at most in the content pane: the text, its
    lines, the renderer and the content viewport. *)
Definition same_but_content (m m' : DualPaneModel) : Prop :=
  fileTree m' = fileTree m /\ allFiles m' = allFiles m /\ treeLines m' = treeLines m
  /\ selectedIndex m' = selectedIndex m /\ treeViewport m' = treeViewport m
  /\ width m' = width m /\ height m' = height m /\ splitRatio m' = splitRatio m
  /\ focusedPane m' = focusedPane m /\ raw m' = raw m
  /\ treeSelectedIdx m' = treeSelectedIdx m /\ includeIgnored m' = includeIgnored m
  /\ rootPath m' = rootPath m /\ isExpanding m' = isExpanding m
  /\ currentDepth m' = currentDepth m.

(** The renderer cache keeps its entries: what was cached for a width is
    still cached for it. *)
Definition cache_kept (cache cache' : Cache) : Prop :=
  forall w r, cache !! w = Some r -> cache' !! w = Some r.
End ControllerVocabulary.

(** The test of [findTreeLineForFile] on a display line. *)
Definition line_matches (filename line : string) : bool :=
  Contains line "[-]" && Contains line filename.

(** What the resize keys of [Update] make of the split ratio. *)
Definition narrower (r : float) : float := maxFloat 0.2%float (PrimFloat.sub r 0.05%float).
Definition wider (r : float) : float := minFloat 0.5%float (PrimFloat.add r 0.05%float).

(** The split ratios met from the initial one: two steps down from it, five
    steps up from it, and six steps down from the upper bound. *)
Definition ratio_values : list float :=
  let r0 := 0.3%float in
  let top := wider (wider (wider (wider (wider r0)))) in
  [ r0; narrower r0; narrower (narrower r0);
    wider r0; wider (wider r0); wider (wider (wider r0));
    wider (wider (wider (wider r0))); top;
    narrower top; narrower (narrower top); narrower (narrower (narrower top));
    narrower (narrower (narrower (narrower top)));
    narrower (narrower (narrower (narrower (narrower top))));
    narrower (narrower (narrower (narrower (narrower (narrower top))))) ].

(** The event loop on its own messages: [Init] hands the runtime a command
    that delivers [initialLoadMsg]; the runtime delivers the message of every
    command [Update] hands back, until there is none. *)
Section Runtime.
Context {lib : GoLib} {engine : Glamour}.
Variable os : OS.

Definition Init (m : DualPaneModel) : Msg := initialLoadMsg.

Definition delivers (cmd : Cmd) : option Msg :=
  match cmd with
  | CmdNil => None
  | Quit => None
  | Tick _ msg => Some msg
  | QuickScan rootPath incl => Some (runQuickScan os rootPath incl)
  end.

Fixpoint drive (fuel : nat) (st : DualPaneModel * Cache) (msg : Msg)
  : option (DualPaneModel * Cache) :=
  match fuel with
  | O => None
  | S fuel =>
      let '(st, cmd) := Update os st msg in
      match delivers cmd with
      | None => Some st
      | Some msg => drive fuel st msg
      end
  end.
End Runtime.

(** ** The single-file model: the event loop *)

Section SingleFileLoop.
Context {engine : Glamour}.
Variable os : OS.

Definition sf_set_text (content : string) (loaded : bool) (lines : list string)
           (m : SingleFileModel) : SingleFileModel :=
  {| sf_filepath := sf_filepath m; sf_content := content; sf_lines := lines;
     sf_viewport := sf_viewport m; sf_width := sf_width m; sf_height := sf_height m;
     sf_renderer := sf_renderer m; sf_raw := sf_raw m;
     sf_contentLoaded := loaded; sf_rendererCreated := sf_rendererCreated m |}.

Definition sf_set_lines (lines : list string) (m : SingleFileModel) : SingleFileModel :=
  sf_set_text (sf_content m) (sf_contentLoaded m) lines m.

Definition sf_set_viewport (viewport : Z) (m : SingleFileModel) : SingleFileModel :=
  {| sf_filepath := sf_filepath m; sf_content := sf_content m; sf_lines := sf_lines m;
     sf_viewport := viewport; sf_width := sf_width m; sf_height := sf_height m;
     sf_renderer := sf_renderer m; sf_raw := sf_raw m;
     sf_contentLoaded := sf_contentLoaded m;
     sf_rendererCreated := sf_rendererCreated m |}.

Definition sf_set_view (width height : Z) (r : option TermRenderer) (rw : bool)
           (m : SingleFileModel) : SingleFileModel :=
  {| sf_filepath := sf_filepath m; sf_content := sf_content m; sf_lines := sf_lines m;
     sf_viewport := sf_viewport m; sf_width := width; sf_height := height;
     sf_renderer := r; sf_raw := rw;
     sf_contentLoaded := sf_contentLoaded m;
     sf_rendererCreated := sf_rendererCreated m |}.

Definition sf_set_renderer (r : option TermRenderer) (m : SingleFileModel) :=
  sf_set_view (sf_width m) (sf_height m) r (sf_raw m) m.
Definition sf_set_size (width height : Z) (m : SingleFileModel) :=
  sf_set_view width height (sf_renderer m) (sf_raw m) m.
Definition sf_set_raw (rw : bool) (m : SingleFileModel) :=
  sf_set_view (sf_width m) (sf_height m) (sf_renderer m) rw m.

(** [NewSingleFileModel] and [NewSingleFileModelWithContent]. *)
Definition NewSingleFileModel (filepath : string) : SingleFileModel :=
  {| sf_filepath := filepath; sf_content := ""; sf_lines := ["Loading file..."];
     sf_viewport := 0; sf_width := 0; sf_height := 0;
     sf_renderer := None; sf_raw := false;
     sf_contentLoaded := false; sf_rendererCreated := false |}.

Definition NewSingleFileModelWithContent (filepath content : string) : SingleFileModel :=
  {| sf_filepath := filepath; sf_content := content; sf_lines := ["Loading..."];
     sf_viewport := 0; sf_width := 0; sf_height := 0;
     sf_renderer := None; sf_raw := false;
     sf_contentLoaded := true; sf_rendererCreated := false |}.

(** The messages of the single-file event loop. *)
Inductive SfMsg :=
| fileLoadedMsg (content : string) (err : option string)
| renderContentMsg
| rendererCreatedMsg (renderer : option TermRenderer) (err : option string)
| contentRendered (msg : contentRenderedMsg)
| SfWindowSizeMsg (Width Height : Z)
| SfKeyMsg (key : string)
| SfOtherMsg.

(** The commands of the single-file model: none, [tea.Quit], the two
    closures of [Init], and the ticks of [createRendererInBackground] and
    [renderContentAsync] with the arguments they were made with. *)
Inductive SfCmd :=
| SfNil
| SfQuit
| InitLoaded
| InitRead
| CreateRenderer (width : Z)
| RenderContent (content : string) (renderer : option TermRenderer) (raw : bool).

(** [Init]. *)
Definition SingleFile_Init (m : SingleFileModel) : SfCmd :=
  if sf_contentLoaded m then InitLoaded else InitRead.

(** What the command of [createRendererInBackground] computes, on the
    renderer cache.  [Update] tests the error of the message for nil only;
    its text is the library's. *)
Definition createRendererInBackground (width : Z) (cache : Cache) : SfMsg * Cache :=
  match cache !! width with
  | Some cached => (rendererCreatedMsg (Some cached) None, cache)
  | None =>
      match NewTermRenderer width with
      | Some r => (rendererCreatedMsg (Some r) None, <[width := r]> cache)
      | None => (rendererCreatedMsg None (Some "glamour: no renderer"), cache)
      end
  end.

(** What the runtime gets from a command: the two closures of [Init] read
    the model when they run. *)
Definition SingleFile_run (m : SingleFileModel) (cache : Cache) (cmd : SfCmd)
  : option SfMsg * Cache :=
  match cmd with
  | SfNil => (None, cache)
  | SfQuit => (None, cache)
  | InitLoaded => (Some (fileLoadedMsg (sf_content m) None), cache)
  | InitRead =>
      match ReadFile os (sf_filepath m) with
      | inr err => (Some (fileLoadedMsg "" (Some err)), cache)
      | inl content => (Some (fileLoadedMsg content None), cache)
      end
  | CreateRenderer width =>
      let '(msg, cache) := createRendererInBackground width cache in (Some msg, cache)
  | RenderContent content renderer raw =>
      (Some (contentRendered (renderContentAsync content renderer raw)), cache)
  end.

(** The key cases of [Update]. *)
Definition SingleFile_key (key : string) (m : SingleFileModel) : SingleFileModel * SfCmd :=
  if isKey key ["q"; "ctrl+c"; "esc"] then (m, SfQuit)
  else if isKey key ["j"; "down"] then
    (if sf_viewport m <? subi (len (sf_lines m)) (sf_height m)
     then sf_set_viewport (addi (sf_viewport m) 1) m else m, SfNil)
  else if isKey key ["k"; "up"] then
    (if sf_viewport m >? 0 then sf_set_viewport (subi (sf_viewport m) 1) m else m, SfNil)
  else if isKey key ["ctrl+d"; "pgdown"] then
    let m := sf_set_viewport (addi (sf_viewport m) (divi (sf_height m) 2)) m in
    (if sf_viewport m >? subi (len (sf_lines m)) (sf_height m)
     then sf_set_viewport (max 0 (subi (len (sf_lines m)) (sf_height m))) m else m, SfNil)
  else if isKey key ["ctrl+u"; "pgup"] then
    let m := sf_set_viewport (subi (sf_viewport m) (divi (sf_height m) 2)) m in
    (if sf_viewport m <? 0 then sf_set_viewport 0 m else m, SfNil)
  else if isKey key ["g"; "home"] then (sf_set_viewport 0 m, SfNil)
  else if isKey key ["G"; "end"] then
    (sf_set_viewport (max 0 (subi (len (sf_lines m)) (sf_height m))) m, SfNil)
  else if isKey key ["r"] then
    let m := sf_set_raw (negb (sf_raw m)) m in
    match sf_renderer m with
    | Some _ =>
        if negb (String.eqb (sf_content m) "")
        then (m, RenderContent (sf_content m) (sf_renderer m) (sf_raw m))
        else (m, SfNil)
    | None => (m, SfNil)
    end
  else if isKey key [" "] then
    let m := sf_set_viewport (addi (sf_viewport m) (subi (sf_height m) 1)) m in
    (if sf_viewport m >? subi (len (sf_lines m)) (sf_height m)
     then sf_set_viewport (max 0 (subi (len (sf_lines m)) (sf_height m))) m else m, SfNil)
  else (m, SfNil).

(** [Update] of the single-file model. *)
Definition SingleFile_Update (m : SingleFileModel) (msg : SfMsg) : SingleFileModel * SfCmd :=
  match msg with
  | fileLoadedMsg content (Some err) =>
      (sf_set_lines ["Error loading file: " ++ err] m, SfNil)
  | fileLoadedMsg content None =>
      let m := sf_set_text content true (Split content newline) m in
      if negb (sf_raw m) then
        match sf_renderer m with
        | None =>
            let width := if sf_width m >? 0 then sf_width m else 80 in
            (m, CreateRenderer width)
        | Some _ => (m, RenderContent (sf_content m) (sf_renderer m) (sf_raw m))
        end
      else (m, SfNil)
  | rendererCreatedMsg renderer (Some _) => (m, SfNil)
  | rendererCreatedMsg renderer None =>
      let m := sf_set_renderer renderer m in
      if negb (sf_raw m) && negb (String.eqb (sf_content m) "")
      then (m, RenderContent (sf_content m) (sf_renderer m) (sf_raw m))
      else (m, SfNil)
  | contentRendered msg => (SingleFile_contentRendered m msg, SfNil)
  | renderContentMsg =>
      match sf_renderer m with
      | Some _ =>
          if negb (String.eqb (sf_content m) "")
          then (m, RenderContent (sf_content m) (sf_renderer m) (sf_raw m))
          else (m, SfNil)
      | None => (m, SfNil)
      end
  | SfWindowSizeMsg Width Height =>
      let m := sf_set_size Width Height m in
      if negb (sf_raw m) && (sf_width m >? 0) && negb (String.eqb (sf_content m) "")
      then (sf_set_renderer None m, CreateRenderer (sf_width m))
      else (m, SfNil)
  | SfKeyMsg key => SingleFile_key key m
  | SfOtherMsg => (m, SfNil)
  end.

(** The loop of [View]: [n] rounds from index [i]; indexing the lines out
    of range panics. *)
Fixpoint viewLoop (lines : list string) (endLine : Z) (n : nat) (i : Z) (content : string)
  : option string :=
  match n with
  | O => Some content
  | S n =>
      if i <? 0 then None
      else
        match nth_error lines (Z.to_nat i) with
        | None => None
        | Some line =>
            let content := content ++ line in
            let content :=
              if i <? subi endLine 1 then content ++ String newline EmptyString
              else content in
            viewLoop lines endLine n (addi i 1) content
        end
  end.

(** [View] of the single-file model. *)
Definition SingleFile_View (m : SingleFileModel) : option string :=
  if sf_height m =? 0 then Some "Loading..."
  else
    let endLine := min (addi (sf_viewport m) (sf_height m)) (len (sf_lines m)) in
    viewLoop (sf_lines m) endLine (Z.to_nat (endLine - sf_viewport m)) (sf_viewport m) "".

(** The runtime on the model's own commands: it runs the command, hands the
    message to [Update], and goes on with the command that comes back. *)
Fixpoint SingleFile_drive (fuel : nat) (st : SingleFileModel * Cache) (cmd : SfCmd)
  : option (SingleFileModel * Cache) :=
  match fuel with
  | O => None
  | S fuel =>
      let '(m, cache) := st in
      match SingleFile_run m cache cmd with
      | (None, cache) => Some (m, cache)
      | (Some msg, cache) =>
          let '(m, cmd) := SingleFile_Update m msg in
          SingleFile_drive fuel (m, cache) cmd
      end
  end.

(** The viewport of the single-file model is within its range. *)
Definition sf_viewport_ok (m : SingleFileModel) : Prop :=
  0 <= sf_viewport m <= Z.max 0 (len (sf_lines m) - sf_height m).

(** The renderer for a width: the cached one, or else a new one. *)
Definition rendererFor (width : Z) (cache : Cache) : option TermRenderer :=
  match cache !! width with
  | Some cached => Some cached
  | None => NewTermRenderer width
  end.

(** The text a renderer makes of a document, the document itself when there
    is no renderer, the document is empty or rendering fails. *)
Definition shownText (renderer : option TermRenderer) (content : string) : string :=
  match renderer with
  | Some r =>
      if String.eqb content "" then content
      else match Render r content with
           | inl rendered => rendered
           | inr _ => content
           end
  | None => content
  end.
End SingleFileLoop.

(** ** The scroll indicator of the dual-pane [View] *)

Definition muli (a b : Z) : Z := int64 (a * b).

Section ScrollIndicator.
Context {engine : Glamour}.

(** The height and the position of the thumb, as [View] computes them when
    there are lines and the pane has rows. *)
Definition thumbHeight (m : DualPaneModel) : Z :=
  let availableHeight := subi (height m) 2 in
  let totalLines := len (renderedLines m) in
  let viewportSize := availableHeight in
  let scrollBarHeight := availableHeight in
  max 1 (divi (muli viewportSize scrollBarHeight) totalLines).

Definition thumbPosition (m : DualPaneModel) : Z :=
  let availableHeight := subi (height m) 2 in
  let totalLines := len (renderedLines m) in
  let viewportSize := availableHeight in
  let scrollTop := contentViewport m in
  let scrollBarHeight := availableHeight in
  divi (muli scrollTop (subi scrollBarHeight (thumbHeight m)))
       (max 1 (subi totalLines viewportSize)).
End ScrollIndicator.

(** * Properties *)

Ltac conjs := repeat match goal with |- _ /\ _ => split end.

(** ** Induction on trees *)

Lemma FileNode_rect_Forall (P : FileNode -> Prop) :
  (forall name path isDir children,
      Forall P children -> P (Node name path isDir children)) ->
  forall node, P node.
Proof.
  intros Hnode. fix IH 1. intros [name path isDir children].
  apply Hnode. induction children as [|child rest IHrest].
  - constructor.
  - constructor; [apply IH | exact IHrest].
Qed.

(** ** Strings *)

Lemma append_nil_l (b : string) : "" ++ b = b.
Proof. reflexivity. Qed.

Lemma append_cons (x : ascii) (a b : string) : String x a ++ b = String x (a ++ b).
Proof. reflexivity. Qed.

Lemma substring_0_app (a b : string) :
  substring 0 (String.length a) (a ++ b) = a.
Proof.
  induction a as [|c a IHa].
  - rewrite append_nil_l. destruct b; reflexivity.
  - rewrite append_cons. cbn [String.length substring]. now rewrite IHa.
Qed.

Lemma length_app_string (a b : string) :
  String.length (a ++ b) = (String.length a + String.length b)%nat.
Proof.
  induction a as [|c a IHa]; [reflexivity|].
  rewrite append_cons. cbn [String.length]. now rewrite IHa.
Qed.

Lemma app_string_assoc (a b c : string) : (a ++ b) ++ c = a ++ (b ++ c).
Proof.
  induction a as [|x a IHa]; [reflexivity|].
  rewrite !append_cons. now rewrite IHa.
Qed.

Lemma slice0_four_spaces (pre : string) :
  slice0 (pre ++ four_spaces) (slen (pre ++ four_spaces) - 4) = Some pre.
Proof.
  unfold slice0, slen. rewrite length_app_string.
  replace (Z.of_nat (String.length pre + String.length four_spaces) - 4)
    with (Z.of_nat (String.length pre)) by (simpl String.length; lia).
  replace ((0 <=? Z.of_nat (String.length pre)) &&
           (Z.of_nat (String.length pre)
              <=? Z.of_nat (String.length pre + String.length four_spaces)))
    with true by (symmetry; apply andb_true_intro; split; apply Z.leb_le; lia).
  rewrite Nat2Z.id. now rewrite substring_0_app.
Qed.

Lemma app_four_spaces_nonempty (pre : string) :
  String.eqb (pre ++ four_spaces) "" = false.
Proof. destruct pre; reflexivity. Qed.

Lemma slen_app_four_spaces (pre : string) : 4 <= slen (pre ++ four_spaces).
Proof. unfold slen. rewrite length_app_string. simpl String.length. lia. Qed.

(** ** The loop over the children *)

Section ChildLoopFacts.
Variable F : FileNode -> string -> bool -> option (list string).
Variable childPrefix : string.
Variable n : Z.
Variable Q : FileNode -> list string -> Prop.

Lemma flatten_children_some (cs : list FileNode) :
  Forall (fun c => forall isLast, exists ls, F c childPrefix isLast = Some ls /\ Q c ls) cs ->
  forall i lines,
  exists parts,
    flatten_children F childPrefix n cs i lines = Some (lines ++ concat parts)%list
    /\ Forall2 Q cs parts.
Proof.
  induction 1 as [|c rest Hc _ IHrest]; intros i lines.
  - exists []. simpl. rewrite app_nil_r. split; [reflexivity | constructor].
  - destruct (Hc (i =? n - 1)) as [ls [Hls HQ]].
    destruct (IHrest (i + 1) (lines ++ ls)%list) as [parts [Hparts Hall]].
    exists (ls :: parts). cbn [flatten_children concat]. rewrite Hls, Hparts.
    rewrite <- List.app_assoc. split; [reflexivity | now constructor].
Qed.
End ChildLoopFacts.

(** Unfolding of [FlattenTree] below the root. *)
Lemma FlattenTree_below (name path : string) (isDir : bool) (children : list FileNode)
      (pre : string) (isLast : bool) :
  FlattenTree (Node name path isDir children) (pre ++ four_spaces) isLast =
  flatten_children FlattenTree
    ((pre ++ (if isLast then four_spaces else glyph_bar)) ++ four_spaces)
    (len children) children 0
    [if isDir
     then (pre ++ (if isLast then glyph_last else glyph_mid)) ++ "[+] " ++ name ++ "/"
     else (pre ++ (if isLast then glyph_last else glyph_mid)) ++ "[-] " ++ name].
Proof.
  cbn [FlattenTree]. unfold lineOf, newPrefix.
  rewrite app_four_spaces_nonempty, slice0_four_spaces.
  cbn [negb option_map IsDir Name]. destruct isDir; reflexivity.
Qed.

Lemma FlattenTree_root (name path : string) (isDir : bool) (children : list FileNode)
      (isLast : bool) :
  FlattenTree (Node name path isDir children) "" isLast =
  flatten_children FlattenTree ("    " ++ four_spaces) (len children) children 0 [].
Proof. reflexivity. Qed.

Lemma FlattenTree_below_total (node : FileNode) :
  forall pre isLast, exists lines, FlattenTree node (pre ++ four_spaces) isLast = Some lines.
Proof.
  induction node as [name path isDir children IH] using FileNode_rect_Forall.
  intros pre isLast. rewrite FlattenTree_below.
  edestruct (flatten_children_some FlattenTree
               ((pre ++ (if isLast then four_spaces else glyph_bar)) ++ four_spaces)
               (len children) (fun _ _ => True) children) as [parts [Hparts _]].
  - eapply List.Forall_impl; [|exact IH]. intros c Hc l.
    destruct (Hc (pre ++ (if isLast then four_spaces else glyph_bar)) l) as [ls Hls].
    exists ls. split; [exact Hls | exact I].
  - eexists. apply Hparts.
Qed.

Lemma reached_prefix (entry c : call) :
  clos_refl_trans call calls entry c ->
  c = entry \/ exists np, callPrefix c = np ++ four_spaces.
Proof.
  intros Hreach. apply clos_rt_rtn1 in Hreach.
  induction Hreach as [|c1 c2 Hstep _ _].
  - now left.
  - right. destruct Hstep. eexists. reflexivity.
Qed.

(** C10. Flattening from the public entry point, [FlattenTree tree "" false],
    never slices the prefix out of bounds: the function returns a list of
    lines, and in every call reached from the entry point the prefix is empty
    (the entry call) or at least 4 bytes long, so that [prefix[0:len(prefix)-4]]
    is in bounds. *)
Theorem FlattenTree_total (tree : FileNode) :
  (exists lines, FlattenTree tree "" false = Some lines)
  /\ forall c, clos_refl_trans call calls (Call tree "" false) c ->
       (c = Call tree "" false \/ 4 <= slen (callPrefix c))
       /\ slices_in_bounds c.
Proof.
  split.
  - destruct tree as [name path isDir children]. rewrite FlattenTree_root.
    edestruct (flatten_children_some FlattenTree ("    " ++ four_spaces)
                 (len children) (fun _ _ => True) children) as [parts [Hparts _]].
    + apply List.Forall_forall. intros c _ l.
      destruct (FlattenTree_below_total c "    " l) as [ls Hls].
      exists ls. split; [exact Hls | exact I].
    + eexists. apply Hparts.
  - intros c Hreach. destruct (reached_prefix _ _ Hreach) as [-> | [np Hnp]].
    + split; [now left|]. intros Hne. now elim Hne.
    + split.
      * right. rewrite Hnp. apply slen_app_four_spaces.
      * intros _. rewrite Hnp. split.
        -- pose proof (slen_app_four_spaces np). lia.
        -- rewrite slice0_four_spaces. discriminate.
Qed.

(** ** File index and display lines *)

Lemma fold_left_app_flat_map {A B : Type} (f : A -> list B) (l : list A) (init : list B) :
  fold_left (fun acc x => (acc ++ f x)%list) l init = (init ++ flat_map f l)%list.
Proof.
  revert init. induction l as [|x l IHl]; intros init; cbn [fold_left flat_map].
  - now rewrite app_nil_r.
  - rewrite IHl. now rewrite <- List.app_assoc.
Qed.

Lemma CollectFiles_docNodes (node : FileNode) :
  CollectFiles node = List.map Path (docNodes node).
Proof.
  induction node as [name path isDir children IH] using FileNode_rect_Forall.
  cbn [CollectFiles docNodes]. rewrite fold_left_app_flat_map, List.map_app.
  f_equal; [destruct isDir; reflexivity|].
  induction IH as [|c rest Hc _ IHrest]; [reflexivity|].
  cbn [flat_map]. now rewrite List.map_app, Hc, IHrest.
Qed.

Lemma no_bracket_app (a b : string) :
  no_bracket (a ++ b) = no_bracket a && no_bracket b.
Proof.
  induction a as [|c a IHa]; [reflexivity|].
  rewrite append_cons. cbn [no_bracket]. rewrite IHa. now rewrite andb_assoc.
Qed.

Lemma marker_app (a b : string) : no_bracket a = true -> marker (a ++ b) = marker b.
Proof.
  induction a as [|c a IHa]; intros Ha; [reflexivity|].
  rewrite append_cons. cbn [no_bracket] in Ha. apply andb_prop in Ha as [Hc Ha].
  cbn [marker]. apply negb_true_iff in Hc. rewrite Hc. now apply IHa.
Qed.

Lemma doc_marked_doc (indent name : string) :
  no_bracket indent = true -> doc_marked (indent ++ "[-] " ++ name) = true.
Proof.
  intros Hi. unfold doc_marked. rewrite marker_app by exact Hi.
  destruct name; reflexivity.
Qed.

Lemma doc_marked_dir (indent name : string) :
  no_bracket indent = true -> doc_marked (indent ++ "[+] " ++ name ++ "/") = false.
Proof.
  intros Hi. unfold doc_marked. rewrite marker_app by exact Hi. reflexivity.
Qed.

Lemma Forall2_concat_filter (cs : list FileNode) (parts : list (list string)) :
  Forall2 (fun c ls => Forall2 (fun line doc => doc_line doc line)
                               (List.filter doc_marked ls) (docNodes c)) cs parts ->
  Forall2 (fun line doc => doc_line doc line)
          (List.filter doc_marked (concat parts)) (flat_map docNodes cs).
Proof.
  induction 1 as [|c ls cs parts Hc _ IH]; cbn [concat flat_map].
  - constructor.
  - rewrite List.filter_app. now apply Forall2_app.
Qed.

Lemma Forall2_nth_error_r {A B : Type} (R : A -> B -> Prop) (l1 : list A) (l2 : list B) :
  Forall2 R l1 l2 ->
  forall i b, nth_error l2 i = Some b -> exists a, nth_error l1 i = Some a /\ R a b.
Proof.
  induction 1 as [|a b l1 l2 Hab _ IH]; intros i y Hy.
  - destruct i; discriminate.
  - destruct i as [|i]; cbn [nth_error] in *.
    + injection Hy as <-. now exists a.
    + now apply IH.
Qed.

(** Below the root: the marked lines of a subtree are the lines of its
    documents, in order. *)
Lemma FlattenTree_below_docs (node : FileNode) :
  forall pre isLast,
    no_bracket pre = true ->
    exists lines,
      FlattenTree node (pre ++ four_spaces) isLast = Some lines
      /\ Forall2 (fun line doc => doc_line doc line)
                 (List.filter doc_marked lines) (docNodes node).
Proof.
  induction node as [name path isDir children IH] using FileNode_rect_Forall.
  intros pre isLast Hpre. rewrite FlattenTree_below.
  set (np := pre ++ (if isLast then four_spaces else glyph_bar)).
  set (ind := pre ++ (if isLast then glyph_last else glyph_mid)).
  assert (Hnp : no_bracket np = true).
  { unfold np. rewrite no_bracket_app, Hpre. now destruct isLast. }
  assert (Hind : no_bracket ind = true).
  { unfold ind. rewrite no_bracket_app, Hpre. now destruct isLast. }
  edestruct (flatten_children_some FlattenTree (np ++ four_spaces) (len children)
               (fun c ls => Forall2 (fun line doc => doc_line doc line)
                                    (List.filter doc_marked ls) (docNodes c))
               children) as [parts [Hparts Hall]].
  - eapply List.Forall_impl; [|exact IH]. intros c Hc l. now apply Hc.
  - eexists. split; [apply Hparts|].
    rewrite List.filter_app. cbn [docNodes]. apply Forall2_app.
    + destruct isDir; cbn [negb List.filter].
      * rewrite doc_marked_dir by exact Hind. constructor.
      * rewrite doc_marked_doc by exact Hind. constructor; [|constructor].
        exists ind. split; [exact Hind | reflexivity].
    + now apply Forall2_concat_filter.
Qed.

(** C6. For a tree whose root is a directory, [CollectFiles] and the lines of
    [FlattenTree] that carry the document marker go together: there are as
    many of the ones as of the others, and the path at position [i] of the
    file index is the path of the document whose line is the [i]-th marked
    line. *)
Theorem CollectFiles_FlattenTree_consistent (tree : FileNode) :
  IsDir tree = true ->
  exists lines,
    FlattenTree tree "" false = Some lines
    /\ len (CollectFiles tree) = len (List.filter doc_marked lines)
    /\ forall i path,
         nth_error (CollectFiles tree) i = Some path ->
         exists doc line,
           nth_error (docNodes tree) i = Some doc
           /\ Path doc = path
           /\ nth_error (List.filter doc_marked lines) i = Some line
           /\ doc_line doc line.
Proof.
  destruct tree as [name path isDir children]. cbn [IsDir]. intros ->.
  rewrite FlattenTree_root.
  edestruct (flatten_children_some FlattenTree ("    " ++ four_spaces) (len children)
               (fun c ls => Forall2 (fun line doc => doc_line doc line)
                                    (List.filter doc_marked ls) (docNodes c))
               children) as [parts [Hparts Hall]].
  - apply List.Forall_forall. intros c _ l. now apply FlattenTree_below_docs.
  - apply Forall2_concat_filter in Hall.
    exists (concat parts). split; [exact Hparts|].
    rewrite CollectFiles_docNodes. cbn [docNodes negb]. rewrite app_nil_l.
    set (docs := flat_map docNodes children) in *.
    set (marked := List.filter doc_marked (concat parts)) in *.
    split.
    + unfold len. rewrite List.length_map. f_equal. symmetry.
      eapply Forall2_length; exact Hall.
    + intros i p Hi. rewrite nth_error_map in Hi.
      destruct (nth_error docs i) as [doc|] eqn:Hdoc; [|discriminate].
      injection Hi as <-.
      destruct (Forall2_nth_error_r _ _ _ Hall i doc Hdoc) as [line [Hline Hld]].
      exists doc, line. repeat split; assumption.
Qed.

(** ** The order of strings *)

Lemma ascii_compare_refl (a : ascii) : Ascii.compare a a = Eq.
Proof. unfold Ascii.compare. apply N.compare_refl. Qed.

Lemma ascii_compare_lt_trans (a b c : ascii) :
  Ascii.compare a b = Lt -> Ascii.compare b c = Lt -> Ascii.compare a c = Lt.
Proof.
  unfold Ascii.compare. rewrite !N.compare_lt_iff. apply N.lt_trans.
Qed.

Lemma string_compare_lt_trans (a : string) :
  forall b c, String.compare a b = Lt -> String.compare b c = Lt -> String.compare a c = Lt.
Proof.
  induction a as [|x a IHa]; intros [|y b] [|z c]; cbn [String.compare];
    try discriminate; try reflexivity.
  destruct (Ascii.compare x y) eqn:Hxy; try discriminate;
    destruct (Ascii.compare y z) eqn:Hyz; try discriminate; intros Hab Hbc.
  - apply Ascii.compare_eq_iff in Hxy, Hyz. subst. rewrite ascii_compare_refl.
    now apply IHa with b.
  - apply Ascii.compare_eq_iff in Hxy. subst. now rewrite Hyz.
  - apply Ascii.compare_eq_iff in Hyz. subst. now rewrite Hxy.
  - now rewrite (ascii_compare_lt_trans x y z).
Qed.

Lemma ltb_lt (a b : string) : String.ltb a b = true <-> String.compare a b = Lt.
Proof. unfold String.ltb. destruct (String.compare a b); split; congruence. Qed.

Lemma ltb_asym (a b : string) : String.ltb a b = true -> String.ltb b a = false.
Proof.
  intros Hab. apply ltb_lt in Hab. unfold String.ltb.
  rewrite String.compare_antisym, Hab. reflexivity.
Qed.

Lemma ltb_false_leb (a b : string) : String.ltb b a = false -> String.leb a b = true.
Proof.
  unfold String.ltb, String.leb. rewrite (String.compare_antisym a b).
  destruct (String.compare b a); cbn; congruence.
Qed.

(** [c < a] and [a <= b] give [c < b]. *)
Lemma ltb_le_trans (a b c : string) :
  String.ltb c a = true -> String.ltb b a = false -> String.ltb c b = true.
Proof.
  intros Hca Hba. apply ltb_lt in Hca. apply ltb_lt.
  destruct (String.compare a b) eqn:Hab.
  - apply String.compare_eq_iff in Hab. now subst.
  - now apply string_compare_lt_trans with a.
  - exfalso. unfold String.ltb in Hba. rewrite String.compare_antisym, Hab in Hba.
    discriminate.
Qed.

(** ** Sorting *)

Section Sorting.
Context {lib : GoLib}.

Lemma less_asym (a b : FileNode) : less a b = true -> less b a = false.
Proof.
  unfold less. destruct (IsDir a), (IsDir b); cbn; try congruence; apply ltb_asym.
Qed.

Lemma before_trans (a b c : FileNode) : before a b -> before b c -> before a c.
Proof.
  unfold before, less.
  destruct (IsDir a), (IsDir b), (IsDir c); cbn; try congruence;
    intros Hba Hcb; destruct (String.ltb (ToLower (Name c)) (ToLower (Name a))) eqn:Hca;
    try reflexivity;
    now rewrite (ltb_le_trans _ _ _ Hca Hba) in Hcb.
Qed.

Lemma before_spec (a b : FileNode) :
  before a b ->
  (IsDir b = true -> IsDir a = true)
  /\ (IsDir a = IsDir b -> String.leb (ToLower (Name a)) (ToLower (Name b)) = true).
Proof.
  unfold before, less.
  destruct (IsDir a), (IsDir b); cbn; intros Hba; split; try congruence;
    intros _; now apply ltb_false_leb.
Qed.

Lemma Forall_insert (P : FileNode -> Prop) (x : FileNode) (l : list FileNode) :
  P x -> Forall P l -> Forall P (insert x l).
Proof.
  intros Hx. induction 1 as [|y rest Hy Hrest IH]; cbn [insert].
  - now constructor.
  - destruct (less x y); repeat constructor; assumption.
Qed.

Lemma Forall_sort_Slice (P : FileNode -> Prop) (l : list FileNode) :
  Forall P l -> Forall P (sort_Slice l).
Proof.
  induction 1 as [|x l Hx _ IH]; [constructor|].
  cbn [sort_Slice fold_right]. now apply Forall_insert.
Qed.

Lemma insert_sorted (x : FileNode) (l : list FileNode) :
  StronglySorted before l -> StronglySorted before (insert x l).
Proof.
  induction 1 as [|y rest Hsorted IH Hy]; cbn [insert].
  - repeat constructor.
  - destruct (less x y) eqn:Hxy.
    + constructor; [now constructor|].
      apply less_asym in Hxy. constructor; [exact Hxy|].
      eapply List.Forall_impl; [|exact Hy]. intros z Hz.
      now apply before_trans with y.
    + constructor; [exact IH|]. now apply Forall_insert.
Qed.

Lemma sort_Slice_sorted (l : list FileNode) : StronglySorted before (sort_Slice l).
Proof.
  induction l as [|x l IHl]; [constructor|].
  cbn [sort_Slice fold_right]. now apply insert_sorted.
Qed.

Lemma StronglySorted_nth_error (l : list FileNode) :
  StronglySorted before l ->
  forall i j a b,
    (i < j)%nat -> nth_error l i = Some a -> nth_error l j = Some b -> before a b.
Proof.
  induction 1 as [|x l _ IH Hx]; intros i j a b Hij Ha Hb.
  - destruct i; discriminate.
  - destruct j as [|j]; [lia|]. cbn [nth_error] in Hb. destruct i as [|i].
    + injection Ha as <-. rewrite List.Forall_forall in Hx.
      apply Hx. eapply nth_error_In; exact Hb.
    + cbn [nth_error] in Ha. apply (IH i j); [lia | assumption | assumption].
Qed.

Lemma sort_Slice_sorted_children (l : list FileNode) : sorted_children (sort_Slice l).
Proof.
  intros i j a b Hij Ha Hb. apply before_spec.
  exact (StronglySorted_nth_error _ (sort_Slice_sorted l) i j a b Hij Ha Hb).
Qed.

Lemma sortTree_sorted (node : FileNode) : tree_sorted (sortTree node).
Proof.
  induction node as [name path isDir children IH] using FileNode_rect_Forall.
  cbn [sortTree]. constructor.
  - apply sort_Slice_sorted_children.
  - apply Forall_sort_Slice. apply Forall_map. exact IH.
Qed.

(** Sorting below a node changes neither its name nor its flag. *)
Lemma less_sortTree (a b : FileNode) : less (sortTree a) (sortTree b) = less a b.
Proof. destruct a, b; reflexivity. Qed.

Lemma insert_map_sortTree (x : FileNode) (l : list FileNode) :
  insert (sortTree x) (List.map sortTree l) = List.map sortTree (insert x l).
Proof.
  induction l as [|y l IHl]; [reflexivity|].
  cbn [List.map insert]. rewrite less_sortTree.
  destruct (less x y); cbn [List.map]; [reflexivity | now rewrite IHl].
Qed.

(** [sortTree] in the order of the source: the children are sorted, then
    each of them is sorted below. *)
Lemma sortTree_eqn (name path : string) (isDir : bool) (children : list FileNode) :
  sortTree (Node name path isDir children) =
  Node name path isDir (List.map sortTree (sort_Slice children)).
Proof.
  cbn [sortTree]. f_equal.
  induction children as [|c cs IH]; [reflexivity|].
  cbn [List.map sort_Slice fold_right] in *.
  fold (sort_Slice (List.map sortTree cs)). fold (sort_Slice cs).
  rewrite IH. apply insert_map_sortTree.
Qed.
End Sorting.

(** ** The walk *)

Lemma FsEntry_rect_Forall (P : FsEntry -> Prop) :
  (forall name, P (FsFile name)) ->
  (forall name readErr entries, Forall P entries -> P (FsDir name readErr entries)) ->
  forall d, P d.
Proof.
  intros Hfile Hdir. fix IH 1. intros [name | name readErr entries].
  - apply Hfile.
  - apply Hdir. induction entries as [|d rest IHrest].
    + constructor.
    + constructor; [apply IH | exact IHrest].
Qed.

Section WalkFacts.
Context {S : Type}.
Variable fn : list string -> option FsEntry -> bool -> S -> S * option error.

(** The callback returns nil, or [SkipDir] on a directory. *)
Hypothesis fn_skips :
  forall path d err s e,
    snd (fn path (Some d) err s) = Some e -> e = SkipDir /\ entryIsDir d = true.

Lemma walkEntries_no_error (walk : list string -> FsEntry -> S -> S * option error)
      (path : list string) (dirs : list FsEntry) :
  Forall (fun d => forall p s, snd (walk p d s) = None) dirs ->
  forall s, snd (walkEntries walk path dirs s) = None.
Proof.
  induction 1 as [|d rest Hd _ IH]; intros s; cbn [walkEntries]; [reflexivity|].
  specialize (Hd (path ++ [entryName d])%list s).
  destruct (walk (path ++ [entryName d])%list d s) as [s1 [e|]]; cbn in Hd.
  - discriminate.
  - apply IH.
Qed.

Lemma walkDir_no_error (d : FsEntry) :
  forall path s, snd (walkDir fn path d s) = None.
Proof.
  induction d as [name | name readErr entries IH] using FsEntry_rect_Forall;
    intros path s; cbn [walkDir].
  - pose proof (fn_skips path (FsFile name) false s) as Hfn.
    destruct (fn path (Some (FsFile name)) false s) as [s1 [e|]]; [|reflexivity].
    destruct (Hfn e eq_refl) as [_ Hdir]. discriminate.
  - pose proof (fn_skips path (FsDir name readErr entries) false s) as Hfn.
    destruct (fn path (Some (FsDir name readErr entries)) false s) as [s1 [e|]].
    + destruct (Hfn e eq_refl) as [-> _]. reflexivity.
    + assert (Hrest : forall s2, snd (walkEntries (walkDir fn) path entries s2) = None).
      { intros s2. now apply walkEntries_no_error. }
      destruct readErr.
      * pose proof (fn_skips path (FsDir name true entries) true s1) as Hfn2.
        destruct (fn path (Some (FsDir name true entries)) true s1) as [s2 [e|]].
        -- destruct (Hfn2 e eq_refl) as [-> _]. reflexivity.
        -- apply Hrest.
      * apply Hrest.
Qed.
End WalkFacts.

Section ScanFacts.
Context {lib : GoLib}.
Variable os : OS.

Lemma visit_skips (rootPath : string) (includeIgnored : bool) (maxDepth : Z)
      (ignore : option (string -> bool)) :
  forall path d err s e,
    snd (visit rootPath includeIgnored maxDepth ignore path (Some d) err s) = Some e ->
    e = SkipDir /\ entryIsDir d = true.
Proof.
  intros path d err s e. unfold visit.
  repeat match goal with
         | |- context [if ?b then _ else _] => destruct b eqn:?
         end; cbn [snd]; try discriminate; intros [= <-]; split; try reflexivity.
  all: match goal with
       | Hc : _ && _ && _ = true |- _ =>
           apply andb_prop in Hc as [Hc _]; apply andb_prop in Hc as [Hc _]; exact Hc
       end.
Qed.

Lemma WalkDir_visit_no_error (rootPath : string) (includeIgnored : bool) (maxDepth : Z)
      (ignore : option (string -> bool)) (root : option FsEntry) (s : FileNode) :
  snd (WalkDir (visit rootPath includeIgnored maxDepth ignore) root s) = None.
Proof.
  unfold WalkDir. destruct root as [d|].
  - pose proof (walkDir_no_error _ (visit_skips rootPath includeIgnored maxDepth ignore)
                                 d [] s) as Hd.
    destruct (walkDir _ [] d s) as [s1 e]. cbn in Hd. now subst.
  - reflexivity.
Qed.

(** The depth-bounded scan always returns a tree and a nil error. *)
Lemma FindMarkdownFilesWithDepth_returns (rootPath : string) (includeIgnored : bool)
      (maxDepth : Z) :
  exists root',
    FindMarkdownFilesWithDepth os rootPath includeIgnored maxDepth
    = (Some (sortTree root'), None).
Proof.
  unfold FindMarkdownFilesWithDepth.
  pose proof (WalkDir_visit_no_error rootPath includeIgnored maxDepth
                (loadIgnore os rootPath includeIgnored) (Lstat os rootPath)
                (Node (Base rootPath) rootPath true [])) as Hw.
  destruct (WalkDir _ _ _) as [root' e]. cbn in Hw. subst. now exists root'.
Qed.

(** C8. In the tree a scan returns, the children of every node are in
    order: all directories before all documents, and within each group the
    lower-cased names do not decrease.  Both scans return such a tree (and
    a nil error). *)
Theorem scans_return_sorted_trees (rootPath : string) (includeIgnored : bool)
        (maxDepth : Z) :
  (exists tree,
      FindMarkdownFilesQuick os rootPath includeIgnored = (Some tree, None)
      /\ tree_sorted tree)
  /\ (exists tree,
        FindMarkdownFilesWithDepth os rootPath includeIgnored maxDepth = (Some tree, None)
        /\ tree_sorted tree).
Proof.
  split.
  - unfold FindMarkdownFilesQuick. destruct (ReadDir os rootPath) as [entries|].
    + eexists. split; [reflexivity | apply sortTree_sorted].
    + eexists. split; [reflexivity|].
      constructor; [|constructor]. intros [|i] j a b _ Ha; discriminate.
  - destruct (FindMarkdownFilesWithDepth_returns rootPath includeIgnored maxDepth)
      as [root' Hroot'].
    eexists. split; [exact Hroot' | apply sortTree_sorted].
Qed.

(** C7. When the entries of the root cannot be read (a root that does not
    exist too), the quick scan and the depth-bounded scan both return the
    root node, a directory without children, and a nil error. *)
Theorem unreadable_root_gives_empty_root (rootPath : string) (includeIgnored : bool)
        (maxDepth : Z) :
  root_unreadable os rootPath ->
  FindMarkdownFilesQuick os rootPath includeIgnored
  = (Some (Node (Base rootPath) rootPath true []), None)
  /\ FindMarkdownFilesWithDepth os rootPath includeIgnored maxDepth
     = (Some (Node (Base rootPath) rootPath true []), None).
Proof.
  unfold root_unreadable, FindMarkdownFilesQuick, FindMarkdownFilesWithDepth.
  assert (Hdepth : (maxDepth >=? 0) && (0 >? maxDepth) = false).
  { destruct (maxDepth >=? 0) eqn:Hge; [|reflexivity].
    cbn [andb]. rewrite Z.gtb_ltb. apply Z.ltb_ge. apply Z.geb_le in Hge. lia. }
  intros [-> Hroot]. split; [reflexivity|].
  destruct (Lstat os rootPath) as [[name | name readErr entries]|].
  - unfold WalkDir. cbn [walkDir]. unfold visit. rewrite Hdepth.
    cbn [entryIsDir andb negb].
    destruct (negb (HasSuffix (ToLower (entryName (FsFile name))) ".md")); reflexivity.
  - destruct Hroot as [-> ->].
    unfold WalkDir. cbn [walkDir]. unfold visit. rewrite Hdepth.
    cbn [entryIsDir entryName negb andb]. rewrite andb_false_r. reflexivity.
  - reflexivity.
Qed.

(** The two scans part on a root that is a symbolic link to a directory: the
    quick scan lists the directory, the walk does not follow the link.  Such
    a root is not one whose entries cannot be read. *)
Lemma linked_root_is_listed :
  FindMarkdownFilesQuick (lib := posix) link_os "/l" false
  = (Some (Node "l" "/l" true [Node "a.md" "/l/a.md" false []]), None)
  /\ FindMarkdownFilesWithDepth (lib := posix) link_os "/l" false 3
     = (Some (Node "l" "/l" true []), None)
  /\ ~ root_unreadable link_os "/l".
Proof.
  split; [vm_compute; reflexivity | split; [vm_compute; reflexivity|]].
  intros [Hnone _]. discriminate Hnone.
Qed.
End ScanFacts.

(** ** The quick scan and hidden entries *)

Section QuickFacts.
Context {lib : GoLib}.
Variable os : OS.

Lemma descend_last_part (part basePath : string) (all : list string) (isDir : bool)
      (i : nat) (cs : list FileNode) :
  forall cs', descend part (addParts basePath all isDir i []) cs = Some cs' -> cs' = cs.
Proof.
  induction cs as [|c cs IH]; intros cs'; cbn [descend]; [discriminate|].
  destruct (String.eqb (Name c) part).
  - now intros [= <-].
  - destruct (descend part _ cs) as [cs1|]; cbn [option_map]; [|discriminate].
    intros [= <-]. now rewrite (IH cs1).
Qed.

Lemma addToTree_single (root : FileNode) (basePath name : string) (isDir : bool) :
  HasPrefix name "." = false ->
  Forall visible_leaf (Children root) ->
  Forall visible_leaf (Children (addToTree root basePath [name] isDir)).
Proof.
  intros Hname Hroot. unfold addToTree. cbn [addParts].
  destruct (descend name _ (Children root)) as [cs|] eqn:Hfound; cbn [set_Children Children].
  - apply (descend_last_part name basePath [name] isDir 1) in Hfound. now subst.
  - apply Forall_app. split; [exact Hroot|]. constructor; [|constructor].
    split; [exact Hname | reflexivity].
Qed.

Lemma quickEntry_visible (rootPath : string) (includeIgnored : bool)
      (ignore : option (string -> bool)) (root : FileNode) (entry : FsEntry) :
  Forall visible_leaf (Children root) ->
  Forall visible_leaf (Children (quickEntry rootPath includeIgnored ignore root entry)).
Proof.
  intros Hroot. unfold quickEntry.
  destruct (HasPrefix (entryName entry) ".") eqn:Hhidden; [exact Hroot|].
  destruct (ignored ignore includeIgnored (entryName entry)); [exact Hroot|].
  destruct (entryIsDir entry); [now apply addToTree_single|].
  destruct (HasSuffix _ _); [now apply addToTree_single | exact Hroot].
Qed.

Lemma sortTree_visible_leaf (c : FileNode) : visible_leaf c -> sortTree c = c.
Proof. destruct c as [name path isDir children]. intros [_ Hnil]. cbn in Hnil. now subst. Qed.

(** The quick scan leaves out every entry whose name begins with a dot. *)
Lemma quick_scan_excludes_hidden (rootPath : string) (includeIgnored : bool) :
  exists tree,
    FindMarkdownFilesQuick os rootPath includeIgnored = (Some tree, None)
    /\ Forall (fun node => HasPrefix (Name node) "." = false) (descendants tree).
Proof.
  unfold FindMarkdownFilesQuick. destruct (ReadDir os rootPath) as [entries|].
  - eexists. split; [reflexivity|].
    set (ignore := loadIgnore os rootPath includeIgnored).
    assert (Hfold : forall root,
               Forall visible_leaf (Children root) ->
               Forall visible_leaf
                 (Children (fold_left (quickEntry rootPath includeIgnored ignore)
                                      entries root))).
    { induction entries as [|e es IH]; intros root Hroot; cbn [fold_left];
        [exact Hroot|]. apply IH. now apply quickEntry_visible. }
    specialize (Hfold (Node (Base rootPath) rootPath true []) (List.Forall_nil _)).
    destruct (fold_left _ entries _) as [name path isDir children].
    cbn [Children] in Hfold. cbn [sortTree descendants].
    assert (Hmap : List.map sortTree children = children).
    { induction Hfold as [|c cs Hc _ IH]; [reflexivity|].
      cbn [List.map]. now rewrite sortTree_visible_leaf, IH. }
    rewrite Hmap. apply Forall_sort_Slice in Hfold.
    induction Hfold as [|c cs [Hname Hnil] _ IH]; [constructor|].
    cbn [flat_map]. destruct c as [cname cpath cdir cchildren].
    cbn in Hnil. subst cchildren. cbn [descendants flat_map app].
    constructor; [exact Hname | exact IH].
  - eexists. split; [reflexivity | constructor].
Qed.
End QuickFacts.

(** C1. The depth-bounded scan keeps a document whose name begins with a
    dot: on a root that holds [.hidden.md] and [README.md], the tree it
    returns (without bound, and at depth 0) has a node named [.hidden.md],
    which the quick scan of the same root leaves out. *)
Theorem depth_scan_keeps_hidden_document :
  let hidden := Node ".hidden.md" "/r/.hidden.md" false [] in
  let readme := Node "README.md" "/r/README.md" false [] in
  FindMarkdownFilesWithDepth (lib := posix) hidden_doc_os "/r" true (-1)
  = (Some (Node "r" "/r" true [hidden; readme]), None)
  /\ FindMarkdownFilesWithDepth (lib := posix) hidden_doc_os "/r" false 0
     = (Some (Node "r" "/r" true [hidden; readme]), None)
  /\ HasPrefix (Name hidden) "." = true
  /\ FindMarkdownFilesQuick (lib := posix) hidden_doc_os "/r" true
     = (Some (Node "r" "/r" true [readme]), None).
Proof. cbv zeta. conjs; vm_compute; reflexivity. Qed.

(** ** The controller *)

Lemma int64_id (z : Z) : in_int64 z -> int64 z = z.
Proof.
  unfold in_int64, int64. intros Hz. rewrite Z.mod_small by lia. lia.
Qed.

Lemma max_Zmax (a b : Z) : max a b = Z.max a b.
Proof. unfold max. rewrite Z.gtb_ltb. destruct (Z.ltb_spec b a); lia. Qed.

Section ControllerFacts.
Context {lib : GoLib} {engine : Glamour}.
Variable os : OS.


(** C5. A deepening step that runs its scan (none is in flight) and whose
    scan does not find more documents than the file index holds leaves the
    tree, the file index, the display lines, the selected index and the
    selected line as they were, and adds one to the depth counter (which
    is below the largest [int]). *)
Theorem deepening_without_new_documents (m : DualPaneModel) (cache : Cache) :
  isExpanding m = false ->
  -1 <= currentDepth m < 2 ^ 63 - 1 ->
  len (CollectFiles_ptr
         (fst (FindMarkdownFilesWithDepth os (rootPath m) (includeIgnored m)
                                          (addi (currentDepth m) 1))))
    <= len (allFiles m) ->
  let m' := fst (fst (Update os (m, cache) performExpansionMsg)) in
  fileTree m' = fileTree m
  /\ allFiles m' = allFiles m
  /\ treeLines m' = treeLines m
  /\ selectedIndex m' = selectedIndex m
  /\ treeSelectedIdx m' = treeSelectedIdx m
  /\ currentDepth m' = currentDepth m + 1.
Proof.
  intros Hidle Hdepth Hscan.
  assert (Hinc : addi (currentDepth m) 1 = currentDepth m + 1).
  { unfold addi. apply int64_id. unfold in_int64. lia. }
  destruct m as [tree files lines sel tv cv content rendered w h ratio r pane rw line
                 incl root expanding depth].
  cbn [isExpanding currentDepth rootPath includeIgnored allFiles] in *. subst expanding.
  cbn [Update negb set_scan set_isExpanding isExpanding currentDepth rootPath
       includeIgnored allFiles fileTree treeLines selectedIndex treeSelectedIdx].
  destruct (FindMarkdownFilesWithDepth os root incl (addi depth 1)) as [newTree [err|]].
  - cbn [set_scan isExpanding currentDepth].
    destruct (addi depth 1 <? 5); cbn; rewrite ?Hinc; repeat split; reflexivity.
  - cbn [fst] in Hscan.
    replace (len (CollectFiles_ptr newTree) >? len files) with false
      by (symmetry; rewrite Z.gtb_ltb; apply Z.ltb_ge; exact Hscan).
    cbn [set_scan isExpanding currentDepth].
    destruct (addi depth 1 <? 5); cbn; rewrite ?Hinc; repeat split; reflexivity.
Qed.

(** The error branch of [loadFile]: for an index in range whose file cannot be
    read, the content is the error text, split at its line breaks, and
    nothing else changes; the content viewport stays. *)
Lemma loadFile_failure (index : Z) (m : DualPaneModel) (cache : Cache) (err : string) :
  0 <= index < len (allFiles m) ->
  ReadFile os (nth (Z.to_nat index) (allFiles m) "") = inr err ->
  loadFile os index (m, cache)
  = (set_content ("Error loading file: " ++ err)
                 (Split ("Error loading file: " ++ err) newline) m, cache)
  /\ contentViewport (fst (loadFile os index (m, cache))) = contentViewport m.
Proof.
  intros Hrange Hread. unfold loadFile.
  replace ((index <? 0) || (index >=? len (allFiles m))) with false
    by (symmetry; apply orb_false_intro; lia).
  rewrite Hread. split; reflexivity.
Qed.

(** The cache hit of [updateRendererWidth]: the renderer is taken from the
    cache and the lines are left as they are. *)
Lemma updateRendererWidth_cache_hit (m : DualPaneModel) (cache : Cache) (r : TermRenderer) :
  cache !! wrappingWidth m = Some r ->
  updateRendererWidth (m, cache) = (set_renderer (Some r) m, cache)
  /\ renderedLines (fst (updateRendererWidth (m, cache))) = renderedLines m.
Proof.
  intros Hhit. unfold updateRendererWidth. rewrite Hhit. split; reflexivity.
Qed.

End ControllerFacts.

(** The text of scenario D: a heading, an empty line, a body. *)
Lemma scenarioD_lines :
  Split ("# H" ++ String newline (String newline "body")) newline = ["# H"; ""; "body"].
Proof. reflexivity. Qed.


(** A session under an engine that is not known: the steps of the event
    loop are computed one by one, with a case for each answer of the
    engine. *)
Ltac settle_engine new render :=
  repeat first
    [ match goal with
      | H : new ?w = _ |- context [new ?w] => rewrite H
      | H : render ?r ?t = _ |- context [render ?r ?t] => rewrite H
      end
    | match goal with
      | |- context [new ?w] => destruct (new w) eqn:?
      | |- context [render ?r ?t] => destruct (render r t) eqn:?
      end ];
  cbv beta iota zeta.

Ltac step_session new render :=
  match goal with
  | |- context [@Update ?l ?e ?os ?st ?msg] =>
      match st with (_, _) => idtac end;
      let t := constr:(@Update l e os st msg) in
      let v := eval vm_compute in t in
      change t with v
  end;
  settle_engine new render; cbn [fst snd].

(** C3. A load that fails leaves the content viewport where it was,
    whatever the rendering engine: in the session of [docs_os], in raw mode
    and with the first document scrolled down by two lines, moving the
    selection to the unreadable document puts the error line in the content
    pane and keeps the offset 2. *)
Theorem failed_load_keeps_contentViewport {engine : Glamour} :
  let before :=
    run (lib := posix) docs_os
        (session_start docs_os 12
         ++ [KeyMsg "r"; KeyMsg "l"; KeyMsg "j"; KeyMsg "j"; KeyMsg "h"])%list
        (NewDualPaneModel "/r" false, ∅) in
  let after := fst (Update (lib := posix) docs_os before (KeyMsg "j")) in
  raw (fst before) = true
  /\ renderedLines (fst before) = Split thirty_lines newline
  /\ contentViewport (fst before) = 2
  /\ selectedIndex (fst after) = 1
  /\ nth 1 (allFiles (fst after)) "" = "/r/b.md"
  /\ ReadFile docs_os "/r/b.md" = inr "open /r/b.md: permission denied"
  /\ renderedLines (fst after) = ["Error loading file: open /r/b.md: permission denied"]
  /\ contentViewport (fst after) = 2
  /\ contentViewport (fst (loadFile docs_os 1 before)) = 2.
Proof.
  destruct engine as [T new render].
  cbv zeta. unfold run, session_start. cbn [app fold_left].
  do 9 (step_session new render).
  all: conjs; vm_compute; reflexivity.
Qed.

(** C4. A change of the split ratio that arrives at a wrap width whose
    renderer is in the cache does not render again: after narrowing and
    widening the tree pane once, the ratio is within its range and the
    renderer is the cached one of width 64, but the lines are still those
    rendered at width 69. *)
Theorem cached_width_is_not_rendered_again :
  let before := session docs_os 12 [KeyMsg "<"] in
  let after := fst (Update (lib := posix) docs_os before (KeyMsg ">")) in
  snd before !! 64 = Some 64
  /\ wrappingWidth (fst before) = 69
  /\ wrappingWidth (fst after) = 64
  /\ renderer (fst after) = Some 64
  /\ PrimFloat.leb 0.2 (splitRatio (fst after)) = true
  /\ PrimFloat.leb (splitRatio (fst after)) 0.5 = true
  /\ renderedLines (fst after) = renderedLines (fst before)
  /\ exists text,
      Render (Glamour := wrap_engine) 64 (currentContent (fst after)) = inl text
      /\ len (renderedLines (fst after)) = 30
      /\ len (Split text newline) = 31.
Proof.
  cbv zeta. conjs; try (vm_compute; reflexivity).
  eexists. conjs; vm_compute; reflexivity.
Qed.


Section ViewportFacts.
Context {lib : GoLib} {engine : Glamour}.
Variable os : OS.













End ViewportFacts.

(** ** The theorems at concrete inputs *)


Lemma deepening_without_new_documents_witness :
  let st := session docs_os 12 [] in
  let m' := fst (fst (Update (lib := posix) docs_os st performExpansionMsg)) in
  allFiles m' = ["/r/a.md"; "/r/b.md"] /\ currentDepth (fst st) = 0 /\ currentDepth m' = 1.
Proof.
  cbv zeta.
  pose proof (deepening_without_new_documents (lib := posix) docs_os
                (fst (session docs_os 12 [])) (snd (session docs_os 12 []))) as Hthm.
  rewrite <- surjective_pairing in Hthm.
  destruct Hthm as [_ [Hfiles [_ [_ [_ Hdepth]]]]].
  - vm_compute. reflexivity.
  - vm_compute. split; [discriminate | reflexivity].
  - vm_compute. discriminate.
  - rewrite Hfiles, Hdepth. conjs; vm_compute; reflexivity.
Defined.

Lemma CollectFiles_FlattenTree_consistent_witness :
  exists lines,
    FlattenTree sample_tree "" false = Some lines
    /\ len (CollectFiles sample_tree) = 3
    /\ len (List.filter doc_marked lines) = 3.
Proof.
  destruct (CollectFiles_FlattenTree_consistent sample_tree) as [lines [Hlines [Hlen _]]].
  - reflexivity.
  - exists lines. conjs; [exact Hlines | reflexivity | rewrite <- Hlen; reflexivity].
Defined.

Lemma unreadable_root_gives_empty_root_witness :
  FindMarkdownFilesQuick (lib := posix) docs_os "/nonexistent" false
  = (Some (Node "nonexistent" "/nonexistent" true []), None)
  /\ FindMarkdownFilesWithDepth (lib := posix) docs_os "/nonexistent" false 3
     = (Some (Node "nonexistent" "/nonexistent" true []), None).
Proof.
  apply (unreadable_root_gives_empty_root (lib := posix) docs_os "/nonexistent" false 3).
  split; [reflexivity | exact I].
Defined.


(** * Further properties *)

(** ** Display lines *)

Lemma length_concat_descendants (cs : list FileNode) (parts : list (list string)) :
  Forall2 (fun c ls => List.length ls = S (List.length (descendants c))) cs parts ->
  List.length (concat parts)
  = List.length (flat_map (fun c => c :: descendants c) cs).
Proof.
  induction 1 as [|c ls cs parts Hc _ IH]; [reflexivity|].
  cbn [concat flat_map]. rewrite !List.length_app, IH, Hc. reflexivity.
Qed.

Lemma FlattenTree_below_length (node : FileNode) :
  forall pre isLast,
  exists lines,
    FlattenTree node (pre ++ four_spaces) isLast = Some lines
    /\ List.length lines = S (List.length (descendants node)).
Proof.
  induction node as [name path isDir children IH] using FileNode_rect_Forall.
  intros pre isLast. rewrite FlattenTree_below.
  edestruct (flatten_children_some FlattenTree
               ((pre ++ (if isLast then four_spaces else glyph_bar)) ++ four_spaces)
               (len children)
               (fun c ls => List.length ls = S (List.length (descendants c)))
               children) as [parts [Hparts Hall]].
  - eapply List.Forall_impl; [|exact IH]. intros c Hc l. apply Hc.
  - eexists. split; [apply Hparts|].
    rewrite List.length_app, (length_concat_descendants _ _ Hall). reflexivity.
Qed.

(** The display lines are one per node below the root: [FlattenTree] from
    the empty prefix returns as many lines as the tree has nodes other than
    its root. *)
Theorem FlattenTree_one_line_per_node (tree : FileNode) :
  exists lines,
    FlattenTree tree "" false = Some lines
    /\ len lines = len (descendants tree).
Proof.
  destruct tree as [name path isDir children]. rewrite FlattenTree_root.
  edestruct (flatten_children_some FlattenTree ("    " ++ four_spaces) (len children)
               (fun c ls => List.length ls = S (List.length (descendants c)))
               children) as [parts [Hparts Hall]].
  - apply List.Forall_forall. intros c _ l. apply FlattenTree_below_length.
  - exists (concat parts). split; [exact Hparts|].
    unfold len. f_equal. cbn [descendants]. now apply length_concat_descendants.
Qed.

(** ** Insertion into the tree *)

(** The inner loop of [addToTree] and the first child with a name. *)
Lemma descend_cases (part : string) (step : FileNode -> FileNode) (cs : list FileNode) :
  (exists pre c post,
      cs = (pre ++ c :: post)%list
      /\ Forall (fun x => String.eqb (Name x) part = false) pre
      /\ String.eqb (Name c) part = true
      /\ descend part step cs = Some (pre ++ step c :: post)%list
      /\ List.find (fun x => String.eqb (Name x) part) cs = Some c)
  \/ (Forall (fun x => String.eqb (Name x) part = false) cs
      /\ descend part step cs = None
      /\ List.find (fun x => String.eqb (Name x) part) cs = None).
Proof.
  induction cs as [|x cs IH].
  - right. repeat split. constructor.
  - cbn [descend List.find]. destruct (String.eqb (Name x) part) eqn:Hx.
    + left. exists [], x, cs. repeat split; try reflexivity; try assumption. constructor.
    + destruct IH as [[pre [c [post [-> [Hpre [Hc [Hd Hf]]]]]]] | [Hall [Hd Hf]]].
      * left. exists (x :: pre), c, post. rewrite Hd, Hf.
        repeat split; try reflexivity; try assumption. now constructor.
      * right. rewrite Hd, Hf. repeat split. now constructor.
Qed.

Lemma find_first (p : FileNode -> bool) (pre post : list FileNode) (c : FileNode) :
  Forall (fun x => p x = false) pre -> p c = true ->
  List.find p (pre ++ c :: post)%list = Some c.
Proof.
  induction 1 as [|x pre Hx _ IH]; intros Hc; cbn [app List.find].
  - now rewrite Hc.
  - rewrite Hx. now apply IH.
Qed.

Lemma find_skip (p : FileNode -> bool) (pre rest : list FileNode) :
  Forall (fun x => p x = false) pre ->
  List.find p (pre ++ rest)%list = List.find p rest.
Proof.
  induction 1 as [|x pre Hx _ IH]; cbn [app List.find]; [reflexivity|].
  now rewrite Hx.
Qed.

Section AddToTreeFacts.
Context {lib : GoLib}.
Variable basePath : string.
Variable all : list string.
Variable isDir : bool.

Lemma addParts_fields (i : nat) (parts : list string) (current : FileNode) :
  Name (addParts basePath all isDir i parts current) = Name current
  /\ Path (addParts basePath all isDir i parts current) = Path current
  /\ IsDir (addParts basePath all isDir i parts current) = IsDir current.
Proof.
  destruct parts as [|part rest]; cbn [addParts]; [now repeat split|].
  destruct (descend part _ (Children current)); now repeat split.
Qed.

Lemma set_Children_same (current : FileNode) :
  set_Children (Children current) current = current.
Proof. now destruct current. Qed.

(** A path that is in the tree: nothing changes. *)
Lemma addParts_existing (parts : list string) :
  forall i current old,
    findPath parts current = Some old ->
    addParts basePath all isDir i parts current = current.
Proof.
  induction parts as [|part rest IH]; intros i current old Hfind; [reflexivity|].
  cbn [findPath] in Hfind. cbn [addParts].
  destruct (descend_cases part (addParts basePath all isDir (S i) rest) (Children current))
    as [[pre [c [post [Hcs [Hpre [Hc [Hd Hf]]]]]]] | [Hall [Hd Hf]]];
    rewrite Hf in Hfind; [|discriminate].
  rewrite Hd, (IH (S i) c old Hfind), <- Hcs. apply set_Children_same.
Qed.

(** A path that is not in the tree: its node is there afterwards, a leaf with
    the flag and the joined path of the call. *)
Lemma addParts_new (parts : list string) :
  forall before i current,
    parts <> [] ->
    all = (before ++ parts)%list ->
    List.length before = i ->
    findPath parts current = None ->
    exists node,
      findPath parts (addParts basePath all isDir i parts current) = Some node
      /\ Name node = List.last parts ""
      /\ Path node = Join basePath (String.concat "/" all)
      /\ IsDir node = isDir
      /\ Children node = [].
Proof.
  induction parts as [|part rest IH]; intros before i current Hne Hall Hlen Hfind;
    [now elim Hne|].
  cbn [findPath] in Hfind. cbn [addParts].
  set (step := addParts basePath all isDir (S i) rest).
  assert (Hstep_name : forall c, String.eqb (Name (step c)) part = String.eqb (Name c) part).
  { intros c. unfold step.
    now destruct (addParts_fields (S i) rest c) as [-> _]. }
  destruct rest as [|part2 rest].
  - (* the last name *)
    destruct (descend_cases part step (Children current))
      as [[pre [c [post [Hcs [Hpre [Hc [Hd Hf]]]]]]] | [Hnone [Hd Hf]]];
      rewrite Hf in Hfind; [discriminate|].
    rewrite Hd. cbn [findPath set_Children Children].
    rewrite (find_first _ (Children current) []);
      [| exact Hnone | unfold step; cbn [addParts Name]; apply String.eqb_refl ].
    eexists. split; [reflexivity|]. unfold step. cbn [addParts Name Path IsDir Children List.last].
    repeat split.
    + f_equal. f_equal. rewrite Hall. apply List.firstn_all2.
      rewrite List.length_app. cbn [List.length]. lia.
    + replace (Z.of_nat i <? len all - 1) with false; [apply orb_false_r|].
      symmetry. apply Z.ltb_ge. unfold len. rewrite Hall, List.length_app.
      cbn [List.length]. lia.
  - (* an inner name *)
    assert (Hrest : forall c,
               findPath (part2 :: rest) c = None ->
               exists node,
                 findPath (part2 :: rest) (step c) = Some node
                 /\ Name node = List.last (part2 :: rest) ""
                 /\ Path node = Join basePath (String.concat "/" all)
                 /\ IsDir node = isDir
                 /\ Children node = []).
    { intros c Hc. apply (IH (before ++ [part])%list (S i) c).
      - discriminate.
      - rewrite Hall, <- List.app_assoc. reflexivity.
      - rewrite List.length_app. cbn [List.length]. lia.
      - exact Hc. }
    destruct (descend_cases part step (Children current))
      as [[pre [c [post [Hcs [Hpre [Hc [Hd Hf]]]]]]] | [Hnone [Hd Hf]]];
      rewrite Hf in Hfind; rewrite Hd.
    + destruct (Hrest c Hfind) as [node [Hnode Hprops]].
      exists node. split; [|exact Hprops].
      cbn [findPath set_Children Children].
      rewrite (find_first _ pre post (step c)); [exact Hnode | exact Hpre |].
      now rewrite Hstep_name.
    + set (newNode := Node part _ _ []).
      destruct (Hrest newNode eq_refl) as [node [Hnode Hprops]].
      exists node. split; [|exact Hprops].
      cbn [findPath set_Children Children].
      rewrite (find_first _ (Children current) [] (step newNode));
        [exact Hnode | exact Hnone |].
      rewrite Hstep_name. apply String.eqb_refl.
Qed.

(** The nodes of the tree stay where they are, with their name, path and
    flag. *)
Lemma addParts_keeps (q : list string) :
  forall parts i current x,
    findPath q current = Some x ->
    exists y,
      findPath q (addParts basePath all isDir i parts current) = Some y
      /\ Name y = Name x /\ Path y = Path x /\ IsDir y = IsDir x.
Proof.
  induction q as [|q1 qs IH]; intros parts i current x Hx.
  - injection Hx as <-. eexists. split; [reflexivity|]. apply addParts_fields.
  - destruct parts as [|part rest]; [exists x; now repeat split|].
    cbn [findPath] in Hx. cbn [addParts].
    set (step := addParts basePath all isDir (S i) rest).
    destruct (List.find (fun c => String.eqb (Name c) q1) (Children current))
      as [c|] eqn:Hq1; [|discriminate].
    destruct (descend_cases part step (Children current))
      as [[pre [c' [post [Hcs [Hpre [Hc' [Hd Hf]]]]]]] | [Hnone [Hd Hf]]];
      rewrite Hd; cbn [findPath set_Children Children].
    + destruct (String.eqb_spec q1 part) as [-> | Hne].
      * rewrite Hf in Hq1. injection Hq1 as <-.
        rewrite (find_first _ pre post (step c')); [| exact Hpre |].
        -- apply IH. exact Hx.
        -- unfold step. now destruct (addParts_fields (S i) rest c') as [-> _].
      * assert (Hpre1 : forall z, String.eqb (Name z) part = true ->
                                  String.eqb (Name z) q1 = false).
        { intros z Hz. apply String.eqb_eq in Hz. apply String.eqb_neq. congruence. }
        rewrite Hcs in Hq1.
        destruct (List.find (fun c0 => String.eqb (Name c0) q1) pre) as [z|] eqn:Hz.
        -- assert (Hfound : List.find (fun c0 => String.eqb (Name c0) q1)
                               (pre ++ step c' :: post)%list = Some z).
           { clear -Hz. induction pre as [|p pre IHp]; [discriminate|].
             cbn [app List.find] in *. destruct (String.eqb (Name p) q1); [exact Hz|].
             now apply IHp. }
           assert (Hold : List.find (fun c0 => String.eqb (Name c0) q1)
                               (pre ++ c' :: post)%list = Some z).
           { clear -Hz. induction pre as [|p pre IHp]; [discriminate|].
             cbn [app List.find] in *. destruct (String.eqb (Name p) q1); [exact Hz|].
             now apply IHp. }
           rewrite Hfound. rewrite Hold in Hq1. injection Hq1 as <-.
           exists x. now repeat split.
        -- assert (Hskip : Forall (fun z => String.eqb (Name z) q1 = false) pre).
           { apply List.Forall_forall. intros z Hin.
             exact (List.find_none _ _ Hz z Hin). }
           rewrite (find_skip _ pre _ Hskip) in Hq1.
           rewrite (find_skip _ pre _ Hskip).
           cbn [List.find] in Hq1 |- *.
           unfold step at 1. destruct (addParts_fields (S i) rest c') as [-> _].
           rewrite (Hpre1 c' Hc') in Hq1 |- *. rewrite Hq1.
           exists x. now repeat split.
    + assert (Hfound : List.find (fun c0 => String.eqb (Name c0) q1)
                         (Children current ++ [step (Node part
                            (Join basePath (String.concat "/" (firstn (S i) all)))
                            (isDir || (Z.of_nat i <? len all - 1)) [])])%list = Some c).
      { clear -Hq1. induction (Children current) as [|p l IHl]; [discriminate|].
        cbn [app List.find] in *. destruct (String.eqb (Name p) q1); [exact Hq1|].
        now apply IHl. }
      rewrite Hfound. exists x. now repeat split.
Qed.

Lemma addParts_unique (parts : list string) :
  forall i current,
    unique_names current -> unique_names (addParts basePath all isDir i parts current).
Proof.
  induction parts as [|part rest IH]; intros i current Hu; [exact Hu|].
  cbn [addParts]. set (step := addParts basePath all isDir (S i) rest).
  destruct Hu as [name path dir children Hnodup Hall]. cbn [Children set_Children Name Path IsDir].
  destruct (descend_cases part step children)
    as [[pre [c [post [Hcs [Hpre [Hc [Hd Hf]]]]]]] | [Hnone [Hd Hf]]]; rewrite Hd.
  - subst children. constructor.
    + rewrite List.map_app in *. cbn [List.map] in *.
      unfold step. now destruct (addParts_fields (S i) rest c) as [-> _].
    + apply Forall_app in Hall as [Hall1 Hall2].
      apply Forall_app. split; [exact Hall1|].
      inversion Hall2 as [|? ? Hcu Hpost]; subst.
      constructor; [now apply IH | exact Hpost].
  - constructor.
    + rewrite List.map_app. cbn [List.map].
      unfold step. destruct (addParts_fields (S i) rest
        (Node part (Join basePath (String.concat "/" (firstn (S i) all)))
              (isDir || (Z.of_nat i <? len all - 1)) [])) as [-> _].
      cbn [Name]. apply List.NoDup_app; [exact Hnodup | repeat constructor; intros [] |].
      intros z Hz [<- | []]. apply List.in_map_iff in Hz as [n [Hn Hin]].
      rewrite List.Forall_forall in Hnone. specialize (Hnone n Hin).
      rewrite Hn, String.eqb_refl in Hnone. discriminate.
    + apply Forall_app. split; [exact Hall|]. constructor; [|constructor].
      apply IH. constructor; constructor.
Qed.
End AddToTreeFacts.

(** Adding a path that is in the tree changes nothing. *)
Theorem addToTree_existing_path {lib : GoLib} (root : FileNode) (basePath : string)
        (parts : list string) (isDir : bool) (old : FileNode) :
  findPath parts root = Some old ->
  addToTree root basePath parts isDir = root.
Proof. apply addParts_existing. Qed.

(** Adding a path that is not in the tree puts its node there: the names of
    the path lead to a node without children that has the last name, the
    directory flag of the call and the base path joined with the relative
    path. *)
Theorem addToTree_new_path {lib : GoLib} (root : FileNode) (basePath : string)
        (parts : list string) (isDir : bool) :
  parts <> [] ->
  findPath parts root = None ->
  exists node,
    findPath parts (addToTree root basePath parts isDir) = Some node
    /\ Name node = List.last parts ""
    /\ Path node = Join basePath (String.concat "/" parts)
    /\ IsDir node = isDir
    /\ Children node = [].
Proof.
  intros Hne Hnone. unfold addToTree.
  now apply (addParts_new basePath parts isDir parts [] 0%nat root).
Qed.

(** A path is in the tree once: adding it again, with whatever flag, changes
    nothing. *)
Theorem addToTree_merges {lib : GoLib} (root : FileNode) (basePath : string)
        (parts : list string) (isDir isDir' : bool) :
  addToTree (addToTree root basePath parts isDir) basePath parts isDir'
  = addToTree root basePath parts isDir.
Proof.
  destruct parts as [|part rest]; [reflexivity|]. unfold addToTree.
  destruct (findPath (part :: rest) root) as [old|] eqn:Hfind.
  - rewrite (addParts_existing basePath _ isDir _ 0%nat root old Hfind).
    now apply addParts_existing with old.
  - destruct (addParts_new basePath (part :: rest) isDir (part :: rest) [] 0%nat root)
      as [node [Hnode _]]; [discriminate | reflexivity | reflexivity | exact Hfind |].
    now apply addParts_existing with node.
Qed.

(** Adding a path keeps every node of the tree where it was, with its name,
    path and directory flag. *)
Theorem addToTree_keeps_nodes {lib : GoLib} (root : FileNode) (basePath : string)
        (parts : list string) (isDir : bool) (q : list string) (x : FileNode) :
  findPath q root = Some x ->
  exists y,
    findPath q (addToTree root basePath parts isDir) = Some y
    /\ Name y = Name x /\ Path y = Path x /\ IsDir y = IsDir x.
Proof. apply addParts_keeps. Qed.

(** ** What sorting keeps *)

Section SortKeeps.
Context {lib : GoLib}.

Lemma insert_Permutation (x : FileNode) (l : list FileNode) :
  Permutation (insert x l) (x :: l).
Proof.
  induction l as [|y l IH]; cbn [insert]; [reflexivity|].
  destruct (less x y); [reflexivity|].
  rewrite IH. apply perm_swap.
Qed.

Lemma sort_Slice_Permutation (l : list FileNode) : Permutation (sort_Slice l) l.
Proof.
  induction l as [|x l IH]; [reflexivity|].
  cbn [sort_Slice fold_right]. fold (sort_Slice l).
  rewrite insert_Permutation. now constructor.
Qed.

Lemma docNodes_paths_sortTree (node : FileNode) :
  Permutation (List.map Path (docNodes (sortTree node))) (List.map Path (docNodes node)).
Proof.
  induction node as [name path isDir children IH] using FileNode_rect_Forall.
  cbn [sortTree docNodes]. rewrite !List.map_app.
  apply Permutation_app.
  - destruct isDir; reflexivity.
  - transitivity (List.map Path (flat_map docNodes (List.map sortTree children))).
    + apply Permutation_map. apply Permutation_flat_map. apply sort_Slice_Permutation.
    + clear -IH. induction IH as [|c cs Hc _ IHcs]; [reflexivity|].
      cbn [List.map flat_map]. rewrite !List.map_app.
      now apply Permutation_app.
Qed.

(** Sorting loses no document and invents none: the file index of the sorted
    tree is a permutation of the file index of the tree. *)
Theorem sortTree_keeps_documents (tree : FileNode) :
  Permutation (CollectFiles (sortTree tree)) (CollectFiles tree).
Proof. rewrite !CollectFiles_docNodes. apply docNodes_paths_sortTree. Qed.
End SortKeeps.

(** ** Invariants of the tree under construction *)

Lemma Forall_descendants (P : FileNode -> Prop) (name path : string) (isDir : bool)
      (children : list FileNode) :
  Forall P (descendants (Node name path isDir children))
  <-> Forall (fun c => P c /\ Forall P (descendants c)) children.
Proof.
  cbn [descendants]. induction children as [|c cs IH]; cbn [flat_map].
  - split; constructor.
  - rewrite <- List.app_comm_cons. split.
    + intros Hall. inversion Hall as [|? ? Hc Hrest]; subst.
      apply Forall_app in Hrest as [Hd Hcs]. constructor; [now split | now apply IH].
    + intros Hall. inversion Hall as [|? ? [Hc Hd] Hcs]; subst.
      constructor; [exact Hc|]. apply Forall_app. split; [exact Hd | now apply IH].
Qed.

Lemma treeDepth_le (name path : string) (isDir : bool) (children : list FileNode) (k : nat) :
  (treeDepth (Node name path isDir children) <= k)%nat
  <-> Forall (fun c => (S (treeDepth c) <= k)%nat) children.
Proof.
  cbn [treeDepth]. induction children as [|c cs IH]; cbn [fold_right].
  - split; [constructor | lia].
  - split.
    + intros Hk. constructor; [lia | apply IH; lia].
    + intros Hall. inversion Hall as [|? ? Hc Hcs]; subst.
      apply IH in Hcs. lia.
Qed.

Section TreeInvariants.
Context {lib : GoLib}.

(** A property of nodes that reads the name and the flag only. *)
Variable P : FileNode -> Prop.
Hypothesis P_reads_name_and_flag :
  forall a b, Name a = Name b -> IsDir a = IsDir b -> P a -> P b.

Lemma addParts_descendants (basePath : string) (all : list string) (isDir : bool)
      (parts : list string) :
  (forall j part path,
      nth_error all j = Some part ->
      P (Node part path (isDir || (Z.of_nat j <? len all - 1)) [])) ->
  forall before i current,
    all = (before ++ parts)%list ->
    List.length before = i ->
    Forall P (descendants current) ->
    Forall P (descendants (addParts basePath all isDir i parts current)).
Proof.
  intros Hnew. induction parts as [|part rest IH]; intros before i current Hall Hlen Hcur;
    [exact Hcur|].
  cbn [addParts]. set (step := addParts basePath all isDir (S i) rest).
  assert (Hstep : forall c, P c -> P (step c)).
  { intros c. unfold step. destruct (addParts_fields basePath all isDir (S i) rest c)
      as [Hn [_ Hd]]. now apply P_reads_name_and_flag. }
  assert (Hrest : forall c, Forall P (descendants c) -> Forall P (descendants (step c))).
  { intros c Hc. apply (IH (before ++ [part])%list (S i) c); [| |exact Hc].
    - rewrite Hall, <- List.app_assoc. reflexivity.
    - rewrite List.length_app. cbn [List.length]. lia. }
  assert (Hpart : nth_error all i = Some part).
  { rewrite Hall, <- Hlen. rewrite List.nth_error_app2 by lia.
    now rewrite Nat.sub_diag. }
  destruct current as [name path dir children].
  cbn [Children set_Children Name Path IsDir].
  apply Forall_descendants in Hcur.
  destruct (descend_cases part step children)
    as [[pre [c [post [Hcs [Hpre [Hc [Hd Hf]]]]]]] | [Hnone [Hd Hf]]]; rewrite Hd;
    apply Forall_descendants.
  - subst children. apply Forall_app in Hcur as [Hcur1 Hcur2].
    inversion Hcur2 as [|? ? [HPc Hdc] Hpost]; subst.
    apply Forall_app. split; [exact Hcur1|].
    constructor; [|exact Hpost]. split; [now apply Hstep | now apply Hrest].
  - apply Forall_app. split; [exact Hcur|].
    constructor; [|constructor]. split.
    + apply Hstep. now apply Hnew.
    + apply Hrest. constructor.
Qed.

Lemma sortTree_descendants (node : FileNode) :
  Forall P (descendants node) -> Forall P (descendants (sortTree node)).
Proof.
  induction node as [name path isDir children IH] using FileNode_rect_Forall.
  intros Hall. apply Forall_descendants in Hall. cbn [sortTree].
  apply Forall_descendants. apply Forall_sort_Slice. apply Forall_map.
  induction IH as [|c cs Hc _ IHcs]; [constructor|].
  inversion Hall as [|? ? [HPc Hdc] Hrest]; subst.
  constructor; [|now apply IHcs].
  split; [|now apply Hc].
  apply (P_reads_name_and_flag c); [now destruct c | now destruct c | exact HPc].
Qed.
End TreeInvariants.

Section TreeShape.
Context {lib : GoLib}.

Lemma addParts_depth (basePath : string) (all : list string) (isDir : bool)
      (parts : list string) :
  forall i current k,
    (treeDepth current <= k)%nat ->
    (List.length parts <= k)%nat ->
    (treeDepth (addParts basePath all isDir i parts current) <= k)%nat.
Proof.
  induction parts as [|part rest IH]; intros i current k Hcur Hlen; [exact Hcur|].
  cbn [addParts]. set (step := addParts basePath all isDir (S i) rest).
  cbn [List.length] in Hlen. destruct k as [|k]; [lia|].
  destruct current as [name path dir children].
  cbn [Children set_Children Name Path IsDir].
  apply treeDepth_le in Hcur.
  destruct (descend_cases part step children)
    as [[pre [c [post [Hcs [Hpre [Hc [Hd Hf]]]]]]] | [Hnone [Hd Hf]]]; rewrite Hd;
    apply treeDepth_le.
  - subst children. apply Forall_app in Hcur as [Hcur1 Hcur2].
    inversion Hcur2 as [|? ? Hck Hpost]; subst.
    apply Forall_app. split; [exact Hcur1|].
    constructor; [|exact Hpost].
    apply le_n_S. apply IH; lia.
  - apply Forall_app. split; [exact Hcur|].
    constructor; [|constructor]. apply le_n_S. apply IH; [cbn; lia | lia].
Qed.

Lemma sortTree_depth (node : FileNode) :
  forall k, (treeDepth node <= k)%nat -> (treeDepth (sortTree node) <= k)%nat.
Proof.
  induction node as [name path isDir children IH] using FileNode_rect_Forall.
  intros k Hk. apply treeDepth_le in Hk. cbn [sortTree]. apply treeDepth_le.
  apply Forall_sort_Slice. apply Forall_map.
  induction IH as [|c cs Hc _ IHcs]; [constructor|].
  inversion Hk as [|? ? Hck Hrest]; subst.
  constructor; [|now apply IHcs].
  destruct k as [|k]; [lia|]. apply le_n_S. apply Hc. lia.
Qed.

Lemma sortTree_unique (node : FileNode) :
  unique_names node -> unique_names (sortTree node).
Proof.
  induction node as [name path isDir children IH] using FileNode_rect_Forall.
  intros Hu. inversion Hu as [? ? ? ? Hnodup Hall]; subst. cbn [sortTree]. constructor.
  - apply (Permutation_NoDup (l := List.map Name children)); [|exact Hnodup].
    transitivity (List.map Name (List.map sortTree children)).
    + rewrite List.map_map. apply Permutation_refl'.
      apply List.map_ext. intros c. now destruct c.
    + apply Permutation_map. symmetry. apply sort_Slice_Permutation.
  - apply Forall_sort_Slice. apply Forall_map.
    induction IH as [|c cs Hc _ IHcs]; [constructor|].
    inversion Hall as [|? ? Hcu Hrest]; subst.
    inversion Hnodup; subst.
    constructor; [now apply Hc | now apply IHcs].
Qed.
End TreeShape.

(** ** Invariants of the walk *)

Section WalkInvariant.
Context {S : Type}.
Variable fn : list string -> option FsEntry -> bool -> S -> S * option error.
Variable Inv : S -> Prop.
Variable Called : list string -> FsEntry -> Prop.

Hypothesis fn_keeps :
  forall path d err s, Called path d -> Inv s -> Inv (fst (fn path (Some d) err s)).
Hypothesis fn_descends :
  forall path name readErr entries s child,
    Called path (FsDir name readErr entries) ->
    snd (fn path (Some (FsDir name readErr entries)) false s) = None ->
    In child entries ->
    Called (path ++ [entryName child])%list child.

Lemma walkEntries_invariant (walk : list string -> FsEntry -> S -> S * option error)
      (path : list string) (dirs : list FsEntry) :
  Forall (fun d => forall p s, Called p d -> Inv s -> Inv (fst (walk p d s))) dirs ->
  (forall child, In child dirs -> Called (path ++ [entryName child])%list child) ->
  forall s, Inv s -> Inv (fst (walkEntries walk path dirs s)).
Proof.
  induction 1 as [|d rest Hd _ IH]; intros Hcalled s Hs; cbn [walkEntries]; [exact Hs|].
  specialize (Hd (path ++ [entryName d])%list s (Hcalled d (or_introl eq_refl)) Hs).
  destruct (walk (path ++ [entryName d])%list d s) as [s1 [[| |msg]|]]; cbn [fst] in *;
    try exact Hd.
  apply IH; [|exact Hd]. intros child Hin. apply Hcalled. now right.
Qed.

Lemma walkDir_invariant (d : FsEntry) :
  forall path s, Called path d -> Inv s -> Inv (fst (walkDir fn path d s)).
Proof.
  induction d as [name | name readErr entries IH] using FsEntry_rect_Forall;
    intros path s Hcalled Hs; cbn [walkDir].
  - pose proof (fn_keeps path (FsFile name) false s Hcalled Hs) as H1.
    destruct (fn path (Some (FsFile name)) false s) as [s1 [[| |msg]|]]; exact H1.
  - pose proof (fn_keeps path (FsDir name readErr entries) false s Hcalled Hs) as H1.
    pose proof (fn_descends path name readErr entries s) as Hdesc.
    destruct (fn path (Some (FsDir name readErr entries)) false s) as [s1 [[| |msg]|]];
      cbn [fst snd entryIsDir] in *; try exact H1.
    assert (Hwalk : forall s2, Inv s2 ->
                               Inv (fst (walkEntries (walkDir fn) path entries s2))).
    { intros s2 Hs2. apply walkEntries_invariant; [exact IH | | exact Hs2].
      intros child Hin. now apply Hdesc. }
    destruct readErr.
    + pose proof (fn_keeps path (FsDir name true entries) true s1 Hcalled H1) as H2.
      destruct (fn path (Some (FsDir name true entries)) true s1) as [s2 [[| |msg]|]];
        cbn [fst] in *; try exact H2.
      now apply Hwalk.
    + now apply Hwalk.
Qed.

Hypothesis fn_nil : forall s, Inv s -> Inv (fst (fn [] None true s)).
Hypothesis called_root : forall d, Called [] d.

Lemma WalkDir_invariant (root : option FsEntry) (s : S) :
  Inv s -> Inv (fst (WalkDir fn root s)).
Proof.
  intros Hs. unfold WalkDir. destruct root as [d|].
  - pose proof (walkDir_invariant d [] s (called_root d) Hs) as H1.
    destruct (walkDir fn [] d s) as [s1 [[| |msg]|]]; exact H1.
  - pose proof (fn_nil s Hs) as H1.
    destruct (fn [] None true s) as [s1 [[| |msg]|]]; exact H1.
Qed.
End WalkInvariant.

(** ** What the scans put into the tree *)

Section ScanInvariants.
Context {lib : GoLib}.
Variable os : OS.

(** The callback of the depth-bounded scan leaves the tree, or adds the
    path of an entry that passed its tests. *)
Lemma visit_cases (rootPath : string) (includeIgnored : bool) (maxDepth : Z)
      (ignore : option (string -> bool)) (path : list string) (d : option FsEntry)
      (err : bool) (root : FileNode) :
  fst (visit rootPath includeIgnored maxDepth ignore path d err root) = root
  \/ exists entry,
      d = Some entry
      /\ path <> []
      /\ (0 <= maxDepth -> len path - 1 <= maxDepth)
      /\ (entryIsDir entry = true -> HasPrefix (entryName entry) "." = false)
      /\ (entryIsDir entry = false ->
          HasSuffix (ToLower (entryName entry)) ".md" = true)
      /\ fst (visit rootPath includeIgnored maxDepth ignore path d err root)
         = addToTree root rootPath path (entryIsDir entry).
Proof.
  unfold visit. destruct err; [now left|]. destruct d as [entry|]; [|now left].
  destruct path as [|p path]; cbn [negb andb].
  - left. repeat match goal with
          | |- context [if ?b then _ else _] => destruct b
          end; reflexivity.
  - destruct ((maxDepth >=? 0) && (len (p :: path) - 1 >? maxDepth)) eqn:Hdepth;
      [now left|].
    rewrite andb_true_r.
    destruct (entryIsDir entry && HasPrefix (entryName entry) ".") eqn:Hhidden;
      [now left|].
    destruct (ignored ignore includeIgnored (String.concat "/" (p :: path)));
      [now left|].
    destruct (negb (entryIsDir entry)
              && negb (HasSuffix (ToLower (entryName entry)) ".md")) eqn:Hmd;
      [now left|].
    right. exists entry. repeat split.
    + discriminate.
    + intros Hmax. apply andb_false_iff in Hdepth as [Hge | Hgt].
      * lia.
      * lia.
    + intros Hdir. rewrite Hdir in Hhidden. exact Hhidden.
    + intros Hfile. rewrite Hfile in Hmd. cbn [negb andb] in Hmd.
      now apply negb_false_iff in Hmd.
Qed.

(** The walk goes below a directory only when its name has no leading dot. *)
Lemma visit_descends (rootPath : string) (includeIgnored : bool) (maxDepth : Z)
      (ignore : option (string -> bool)) (path : list string) (entry : FsEntry)
      (root : FileNode) :
  path <> [] ->
  entryIsDir entry = true ->
  snd (visit rootPath includeIgnored maxDepth ignore path (Some entry) false root) = None ->
  HasPrefix (entryName entry) "." = false.
Proof.
  intros Hpath Hdir. unfold visit. rewrite Hdir.
  destruct path as [|p path]; [now elim Hpath|]. cbn [negb andb].
  destruct ((maxDepth >=? 0) && (len (p :: path) - 1 >? maxDepth)); [discriminate|].
  rewrite andb_true_r.
  destruct (HasPrefix (entryName entry) "."); [discriminate | reflexivity].
Qed.

(** An invariant of the tree that adding a path keeps is kept by the whole
    depth-bounded scan, up to the sort. *)
Lemma depth_scan_invariant (Inv : FileNode -> Prop) (rootPath : string)
      (includeIgnored : bool) (maxDepth : Z) :
  Inv (Node (Base rootPath) rootPath true []) ->
  (forall root path isDir,
      Inv root -> path <> [] ->
      (0 <= maxDepth -> len path - 1 <= maxDepth) ->
      Inv (addToTree root rootPath path isDir)) ->
  (forall root, Inv root -> Inv (sortTree root)) ->
  exists tree,
    FindMarkdownFilesWithDepth os rootPath includeIgnored maxDepth = (Some tree, None)
    /\ Inv tree.
Proof.
  intros Hroot Hadd Hsort. unfold FindMarkdownFilesWithDepth.
  set (fn := visit rootPath includeIgnored maxDepth (loadIgnore os rootPath includeIgnored)).
  pose proof (WalkDir_visit_no_error rootPath includeIgnored maxDepth
                (loadIgnore os rootPath includeIgnored) (Lstat os rootPath)
                (Node (Base rootPath) rootPath true [])) as Herr.
  assert (Hkeep : forall path d err s, Inv s -> Inv (fst (fn path d err s))).
  { intros path d err s Hs. unfold fn.
    destruct (visit_cases rootPath includeIgnored maxDepth
                (loadIgnore os rootPath includeIgnored) path d err s)
      as [-> | [entry [_ [Hpath [Hdepth [_ [_ ->]]]]]]]; [exact Hs|].
    now apply Hadd. }
  pose proof (WalkDir_invariant fn Inv (fun _ _ => True)
                (fun path d err s _ Hs => Hkeep path (Some d) err s Hs)
                (fun _ _ _ _ _ _ _ _ _ => I)
                (fun s Hs => Hkeep [] None true s Hs)
                (fun _ => I)
                (Lstat os rootPath) (Node (Base rootPath) rootPath true []) Hroot) as Hinv.
  fold fn in Herr. destruct (WalkDir fn _ _) as [root' e]. cbn [fst snd] in *. subst e.
  eexists. split; [reflexivity | now apply Hsort].
Qed.

(** The same for the quick scan. *)
Lemma quickEntry_cases (rootPath : string) (includeIgnored : bool)
      (ignore : option (string -> bool)) (root : FileNode) (entry : FsEntry) :
  quickEntry rootPath includeIgnored ignore root entry = root
  \/ (HasPrefix (entryName entry) "." = false
      /\ ignored ignore includeIgnored (entryName entry) = false
      /\ (entryIsDir entry = false ->
          HasSuffix (ToLower (entryName entry)) ".md" = true)
      /\ quickEntry rootPath includeIgnored ignore root entry
         = addToTree root rootPath [entryName entry] (entryIsDir entry)).
Proof.
  unfold quickEntry.
  destruct (HasPrefix (entryName entry) "."); [now left|].
  destruct (ignored ignore includeIgnored (entryName entry)); [now left|].
  destruct (entryIsDir entry); [right; now repeat split|].
  destruct (HasSuffix (ToLower (entryName entry)) ".md"); [right; now repeat split | now left].
Qed.

Lemma quick_scan_invariant (Inv : FileNode -> Prop) (rootPath : string)
      (includeIgnored : bool) :
  Inv (Node (Base rootPath) rootPath true []) ->
  (forall root name isDir,
      Inv root ->
      HasPrefix name "." = false ->
      ignored (loadIgnore os rootPath includeIgnored) includeIgnored name = false ->
      (isDir = false -> HasSuffix (ToLower name) ".md" = true) ->
      Inv (addToTree root rootPath [name] isDir)) ->
  (forall root, Inv root -> Inv (sortTree root)) ->
  exists tree,
    FindMarkdownFilesQuick os rootPath includeIgnored = (Some tree, None)
    /\ Inv tree.
Proof.
  intros Hroot Hadd Hsort. unfold FindMarkdownFilesQuick.
  destruct (ReadDir os rootPath) as [entries|]; [|eexists; split; [reflexivity | exact Hroot]].
  eexists. split; [reflexivity|]. apply Hsort.
  revert Hroot. generalize (Node (Base rootPath) rootPath true []).
  induction entries as [|e es IH]; intros root Hroot; cbn [fold_left]; [exact Hroot|].
  apply IH.
  destruct (quickEntry_cases rootPath includeIgnored
              (loadIgnore os rootPath includeIgnored) root e)
    as [-> | [Hdot [Hign [Hmd ->]]]]; [exact Hroot|].
  now apply Hadd.
Qed.

(** No two children of a node of a scanned tree have the same name: an entry
    that is met again is merged with its node. *)
Theorem scans_return_unique_names (rootPath : string) (includeIgnored : bool)
        (maxDepth : Z) :
  (exists tree,
      FindMarkdownFilesQuick os rootPath includeIgnored = (Some tree, None)
      /\ unique_names tree)
  /\ (exists tree,
        FindMarkdownFilesWithDepth os rootPath includeIgnored maxDepth = (Some tree, None)
        /\ unique_names tree).
Proof.
  assert (Hroot : unique_names (Node (Base rootPath) rootPath true []))
    by (constructor; constructor).
  split.
  - apply quick_scan_invariant; [exact Hroot | | apply sortTree_unique].
    intros root name isDir Hu _ _ _. now apply addParts_unique.
  - apply depth_scan_invariant; [exact Hroot | | apply sortTree_unique].
    intros root path isDir Hu _ _. now apply addParts_unique.
Qed.

(** A depth bound is kept: with [maxDepth >= 0], the tree of the
    depth-bounded scan has at most [maxDepth + 1] levels below its root. *)
Theorem depth_scan_is_bounded (rootPath : string) (includeIgnored : bool) (maxDepth : Z) :
  0 <= maxDepth ->
  exists tree,
    FindMarkdownFilesWithDepth os rootPath includeIgnored maxDepth = (Some tree, None)
    /\ Z.of_nat (treeDepth tree) <= maxDepth + 1.
Proof.
  intros Hmax.
  destruct (depth_scan_invariant
              (fun t => (treeDepth t <= Z.to_nat maxDepth + 1)%nat)
              rootPath includeIgnored maxDepth) as [tree [Htree Hdepth]].
  - cbn. lia.
  - intros root path isDir Hroot _ Hlen. apply addParts_depth; [exact Hroot|].
    specialize (Hlen Hmax). unfold len in Hlen. lia.
  - intros root. apply sortTree_depth.
  - exists tree. split; [exact Htree | lia].
Qed.

(** The quick scan does not go below the root: the children of the root it
    returns have no children, no leading dot, are directories or markdown
    documents, and are not ignored. *)
Theorem quick_scan_is_flat (rootPath : string) (includeIgnored : bool) :
  exists tree,
    FindMarkdownFilesQuick os rootPath includeIgnored = (Some tree, None)
    /\ Forall (fun c =>
                 Children c = []
                 /\ HasPrefix (Name c) "." = false
                 /\ scanned_node c
                 /\ ignored (loadIgnore os rootPath includeIgnored) includeIgnored (Name c)
                    = false)
              (Children tree).
Proof.
  set (ok := fun c : FileNode =>
               Children c = []
               /\ HasPrefix (Name c) "." = false
               /\ scanned_node c
               /\ ignored (loadIgnore os rootPath includeIgnored) includeIgnored (Name c)
                  = false).
  apply (quick_scan_invariant (fun t => Forall ok (Children t))).
  - constructor.
  - intros root name isDir Hroot Hdot Hign Hmd. unfold addToTree. cbn [addParts].
    destruct (descend name _ (Children root)) as [cs|] eqn:Hfound;
      cbn [set_Children Children].
    + apply (descend_last_part name rootPath [name] isDir 1) in Hfound. now subst.
    + apply Forall_app. split; [exact Hroot|]. constructor; [|constructor].
      unfold ok, scanned_node. cbn [Children Name IsDir].
      replace (isDir || (Z.of_nat 0 <? len [name] - 1)) with isDir
        by (destruct isDir; reflexivity).
      repeat split; try assumption.
      destruct isDir; [exact Hdot | now apply Hmd].
  - intros [name path isDir children] Hall. cbn [Children] in *. cbn [sortTree Children].
    apply Forall_sort_Slice. apply Forall_map.
    eapply List.Forall_impl; [|exact Hall].
    intros [cname cpath cdir cchildren] [Hnil Hrest]. cbn [Children] in Hnil. subst.
    exact (conj eq_refl Hrest).
Qed.

(** Every node below the root of the tree of a depth-bounded scan is a
    directory whose name has no leading dot or a document with the markdown
    extension. *)
Theorem depth_scan_nodes (rootPath : string) (includeIgnored : bool) (maxDepth : Z) :
  exists tree,
    FindMarkdownFilesWithDepth os rootPath includeIgnored maxDepth = (Some tree, None)
    /\ Forall scanned_node (descendants tree).
Proof.
  assert (Hreads : forall a b, Name a = Name b -> IsDir a = IsDir b ->
                               scanned_node a -> scanned_node b).
  { intros a b Hn Hd. unfold scanned_node. now rewrite Hn, Hd. }
  unfold FindMarkdownFilesWithDepth.
  set (ignore := loadIgnore os rootPath includeIgnored).
  set (fn := visit rootPath includeIgnored maxDepth ignore).
  set (Called := fun (path : list string) (d : FsEntry) =>
                   path = [] \/
                   exists q, path = (q ++ [entryName d])%list
                             /\ Forall (fun p => HasPrefix p "." = false) q).
  pose proof (WalkDir_visit_no_error rootPath includeIgnored maxDepth ignore
                (Lstat os rootPath) (Node (Base rootPath) rootPath true [])) as Herr.
  assert (Hinv : Forall scanned_node
                   (descendants (fst (WalkDir fn (Lstat os rootPath)
                                              (Node (Base rootPath) rootPath true []))))).
  { apply (WalkDir_invariant fn (fun t => Forall scanned_node (descendants t)) Called).
    - intros path d err s Hcalled Hs. unfold fn.
      destruct (visit_cases rootPath includeIgnored maxDepth ignore path (Some d) err s)
        as [-> | [entry [[= <-] [Hpath [_ [Hdir [Hfile ->]]]]]]]; [exact Hs|].
      destruct Hcalled as [-> | [q [-> Hq]]]; [now elim Hpath|].
      unfold addToTree.
      apply (addParts_descendants scanned_node Hreads rootPath
               (q ++ [entryName d])%list (entryIsDir d) (q ++ [entryName d])%list)
        with (before := []); [| reflexivity | reflexivity | exact Hs].
      intros j part path Hj. unfold scanned_node. cbn [IsDir Name].
      unfold len. rewrite List.length_app. cbn [List.length].
      destruct (Nat.lt_ge_cases j (List.length q)) as [Hlt | Hge].
      + replace (Z.of_nat j <? Z.of_nat (List.length q + 1) - 1) with true
          by (symmetry; apply Z.ltb_lt; lia).
        rewrite orb_true_r. rewrite List.nth_error_app1 in Hj by exact Hlt.
        rewrite List.Forall_forall in Hq. apply Hq. eapply nth_error_In; exact Hj.
      + replace (Z.of_nat j <? Z.of_nat (List.length q + 1) - 1) with false
          by (symmetry; apply Z.ltb_ge; lia).
        rewrite orb_false_r. rewrite List.nth_error_app2 in Hj by exact Hge.
        destruct (j - List.length q)%nat as [|n]; [|destruct n; discriminate].
        injection Hj as <-.
        destruct (entryIsDir d) eqn:Hd; [now apply Hdir | now apply Hfile].
    - intros path name readErr entries s child Hcalled Hnone Hin. right.
      exists path. split; [reflexivity|].
      destruct Hcalled as [-> | [q [-> Hq]]]; [constructor|].
      apply Forall_app. split; [exact Hq|]. constructor; [|constructor].
      apply (visit_descends rootPath includeIgnored maxDepth ignore
               (q ++ [entryName (FsDir name readErr entries)])%list
               (FsDir name readErr entries) s); [| reflexivity | exact Hnone].
      destruct q; discriminate.
    - intros s Hs. exact Hs.
    - intros d. now left.
    - constructor. }
  change (snd (WalkDir fn (Lstat os rootPath) (Node (Base rootPath) rootPath true []))
          = None) in Herr.
  destruct (WalkDir fn _ _) as [root' e]. cbn [fst snd] in *. subst e.
  eexists. split; [reflexivity|].
  now apply (sortTree_descendants scanned_node Hreads).
Qed.
End ScanInvariants.

(** ** The lookup of the selected line *)

Lemma findLine_spec (filename : string) (lines : list string) :
  forall i,
    (exists j line,
        nth_error lines j = Some line
        /\ line_matches filename line = true
        /\ (forall k line', (k < j)%nat -> nth_error lines k = Some line' ->
                            line_matches filename line' = false)
        /\ findLine filename lines i = i + Z.of_nat j)
    \/ (Forall (fun line => line_matches filename line = false) lines
        /\ findLine filename lines i = 0).
Proof.
  induction lines as [|line lines IH]; intros i; cbn [findLine].
  - right. split; [constructor | reflexivity].
  - fold (line_matches filename line).
    destruct (line_matches filename line) eqn:Hline.
    + left. exists 0%nat, line. repeat split; [exact Hline | | lia].
      intros k line' Hk. lia.
    + destruct (IH (i + 1)) as [[j [l [Hj [Hl [Hfirst Hr]]]]] | [Hall Hr]].
      * left. exists (S j), l. repeat split; [exact Hj | exact Hl | | lia].
        intros [|k] line' Hk Hnth; cbn [nth_error] in Hnth.
        -- now injection Hnth as <-.
        -- apply (Hfirst k); [lia | exact Hnth].
      * right. split; [now constructor | exact Hr].
Qed.

Lemma findTreeLineForFile_spec (fileIndex : Z) (treeLines allFiles : list string) :
  let r := findTreeLineForFile fileIndex treeLines allFiles in
  let parts := Split (nth (Z.to_nat fileIndex) allFiles "") slash in
  let filename := nth (Z.to_nat (len parts - 1)) parts "" in
  (fileIndex < 0 \/ len allFiles <= fileIndex -> r = 0)
  /\ (0 <= fileIndex < len allFiles ->
      (exists line,
          0 <= r
          /\ nth_error treeLines (Z.to_nat r) = Some line
          /\ line_matches filename line = true
          /\ forall k line', (k < Z.to_nat r)%nat -> nth_error treeLines k = Some line' ->
                             line_matches filename line' = false)
      \/ (r = 0 /\ Forall (fun line => line_matches filename line = false) treeLines)).
Proof.
  cbv zeta. unfold findTreeLineForFile. split.
  - intros Hout.
    replace ((fileIndex <? 0) || (fileIndex >=? len allFiles)) with true; [reflexivity|].
    symmetry. apply orb_true_iff. lia.
  - intros Hin.
    replace ((fileIndex <? 0) || (fileIndex >=? len allFiles)) with false
      by (symmetry; apply orb_false_iff; lia).
    destruct (findLine_spec
                (nth (Z.to_nat (len (Split (nth (Z.to_nat fileIndex) allFiles "") slash) - 1))
                     (Split (nth (Z.to_nat fileIndex) allFiles "") slash) "")
                treeLines 0) as [[j [line [Hj [Hline [Hfirst Hr]]]]] | [Hall Hr]].
    + left. exists line. rewrite Hr, Z.add_0_l, Nat2Z.id.
      repeat split; [lia | exact Hj | exact Hline | exact Hfirst].
    + right. now split.
Qed.

(** [findTreeLineForFile] gives the index of the first display line that
    holds the document marker and the base name of the indexed document, and
    0 when the index is out of range or no line does. *)
Theorem findTreeLineForFile_first_match (fileIndex : Z) (treeLines allFiles : list string) :
  let r := findTreeLineForFile fileIndex treeLines allFiles in
  let parts := Split (nth (Z.to_nat fileIndex) allFiles "") slash in
  let filename := nth (Z.to_nat (len parts - 1)) parts "" in
  (fileIndex < 0 \/ len allFiles <= fileIndex -> r = 0)
  /\ (0 <= fileIndex < len allFiles ->
      (exists line,
          0 <= r
          /\ nth_error treeLines (Z.to_nat r) = Some line
          /\ line_matches filename line = true
          /\ forall k line', (k < Z.to_nat r)%nat -> nth_error treeLines k = Some line' ->
                             line_matches filename line' = false)
      \/ (r = 0 /\ Forall (fun line => line_matches filename line = false) treeLines)).
Proof. apply findTreeLineForFile_spec. Qed.

Lemma findTreeLineForFile_range (fileIndex : Z) (treeLines allFiles : list string) :
  0 <= findTreeLineForFile fileIndex treeLines allFiles <= len treeLines.
Proof.
  destruct (findTreeLineForFile_spec fileIndex treeLines allFiles) as [Hout Hin].
  cbv zeta in *.
  destruct (Z.lt_ge_cases fileIndex 0) as [Hneg | Hpos];
    [rewrite Hout by lia; unfold len; lia|].
  destruct (Z.lt_ge_cases fileIndex (len allFiles)) as [Hlt | Hge];
    [|rewrite Hout by lia; unfold len; lia].
  destruct (Hin (conj Hpos Hlt)) as [[line [Hr [Hnth _]]] | [-> _]];
    [|unfold len; lia].
  split; [exact Hr|].
  assert (Hsome : nth_error treeLines (Z.to_nat (findTreeLineForFile fileIndex treeLines allFiles))
                  <> None) by congruence.
  apply List.nth_error_Some in Hsome. unfold len. lia.
Qed.

(** ** The controller: what its steps keep *)

Ltac xfields :=
  cbn [fst snd fileTree allFiles treeLines selectedIndex treeViewport contentViewport
       currentContent renderedLines width height splitRatio renderer focusedPane raw
       treeSelectedIdx includeIgnored rootPath isExpanding currentDepth
       set_tree set_treeLines set_selection set_treeViewport set_contentViewport
       set_content set_renderedLines set_currentContent set_size set_view
       set_splitRatio set_renderer set_focusedPane set_raw set_scan set_isExpanding
       set_currentDepth] in *.

Ltac xunwrap :=
  repeat match goal with
         | |- context [int64 ?z] => rewrite (int64_id z) by (unfold in_int64; lia)
         | H : context [int64 ?z] |- _ =>
             rewrite (int64_id z) in H by (unfold in_int64; lia)
         end.

Ltac xsplit_ifs :=
  repeat match goal with
         | |- context [if ?b then _ else _] => destruct b eqn:?
         end.

Ltac frame_refl :=
  unfold same_but_content; cbn [fst snd]; xfields;
  repeat match goal with |- _ /\ _ => split end; reflexivity.

Section ControllerFrames.
Context {lib : GoLib} {engine : Glamour}.
Variable os : OS.

Lemma cache_kept_refl (cache : Cache) : cache_kept cache cache.
Proof. now intros w r. Qed.

Lemma cache_kept_trans (c1 c2 c3 : Cache) :
  cache_kept c1 c2 -> cache_kept c2 c3 -> cache_kept c1 c3.
Proof. intros H12 H23 w r Hw. now apply H23, H12. Qed.

Lemma cache_kept_insert (cache : Cache) (w : Z) (r : TermRenderer) :
  cache !! w = None -> cache_kept cache (<[w := r]> cache).
Proof.
  intros Hnone w' r' Hw'. unfold Cache in *.
  rewrite lookup_insert_ne; [exact Hw'|]. intros <-. congruence.
Qed.

Lemma same_but_content_refl (m : DualPaneModel) : same_but_content m m.
Proof. frame_refl. Qed.

Lemma same_but_content_trans (m1 m2 m3 : DualPaneModel) :
  same_but_content m1 m2 -> same_but_content m2 m3 -> same_but_content m1 m3.
Proof.
  unfold same_but_content. intros H12 H23.
  repeat match goal with H : _ /\ _ |- _ => destruct H end.
  repeat split; congruence.
Qed.

Lemma ensureRenderer_frame (m : DualPaneModel) (cache : Cache) :
  same_but_content m (fst (ensureRenderer (m, cache)))
  /\ cache_kept cache (snd (ensureRenderer (m, cache))).
Proof.
  unfold ensureRenderer. cbv zeta.
  destruct (renderer m); [split; [frame_refl | apply cache_kept_refl]|].
  destruct (_ !! 60) eqn:Hhit; [split; [frame_refl | apply cache_kept_refl]|].
  destruct (NewTermRenderer 60).
  - split; [frame_refl|].
    now apply cache_kept_insert.
  - split; [frame_refl | apply cache_kept_refl].
Qed.

Lemma refreshContent_frame (m : DualPaneModel) (cache : Cache) :
  same_but_content m (fst (refreshContent (m, cache)))
  /\ cache_kept cache (snd (refreshContent (m, cache))).
Proof.
  unfold refreshContent. destruct (raw m).
  - split; [frame_refl | apply cache_kept_refl].
  - destruct (ensureRenderer_frame m cache) as [Hm Hc].
    destruct (ensureRenderer (m, cache)) as [m1 cache1]. cbn [fst snd] in *.
    destruct (renderer m1); (split; [|exact Hc]);
      (eapply same_but_content_trans; [exact Hm|]);
      frame_refl.
Qed.

Lemma loadFile_frame (index : Z) (m : DualPaneModel) (cache : Cache) :
  same_but_content m (fst (loadFile os index (m, cache)))
  /\ cache_kept cache (snd (loadFile os index (m, cache))).
Proof.
  unfold loadFile.
  destruct ((index <? 0) || (index >=? len (allFiles m)));
    [split; [frame_refl | apply cache_kept_refl]|].
  destruct (ReadFile os _) as [content | err].
  - destruct (refreshContent_frame (set_currentContent content m) cache) as [Hm Hc].
    destruct (refreshContent (set_currentContent content m, cache)) as [m1 cache1].
    cbn [fst snd] in *. split; [|exact Hc].
    unfold same_but_content in *. xfields.
    repeat match goal with H : _ /\ _ |- _ => destruct H end.
    repeat split; assumption.
  - split; [frame_refl | apply cache_kept_refl].
Qed.

Lemma updateRendererWidth_frame (m : DualPaneModel) (cache : Cache) :
  same_but_content m (fst (updateRendererWidth (m, cache)))
  /\ cache_kept cache (snd (updateRendererWidth (m, cache))).
Proof.
  unfold updateRendererWidth. cbv zeta.
  destruct (_ !! wrappingWidth m) eqn:Hhit;
    [split; [frame_refl | apply cache_kept_refl]|].
  destruct (NewTermRenderer (wrappingWidth m)) as [r|];
    [|split; [frame_refl | apply cache_kept_refl]].
  destruct (refreshContent_frame (set_renderer (Some r) m)
              (<[wrappingWidth m := r]> cache)) as [Hm Hc].
  destruct (refreshContent _) as [m1 cache1]. cbn [fst snd] in *. split.
  - unfold same_but_content in *. xfields.
    repeat match goal with H : _ /\ _ |- _ => destruct H end.
    repeat split; assumption.
  - eapply cache_kept_trans; [|exact Hc]. now apply cache_kept_insert.
Qed.
End ControllerFrames.

Section ControllerInvariants.
Context {lib : GoLib} {engine : Glamour}.
Variable os : OS.

(** The helpers met in a branch of [Update], replaced by what they keep. *)
Ltac frames :=
  repeat match goal with
         | |- context [loadFile os ?i (?m0, ?c0)] =>
             let Hf := fresh "Hframe" in
             let Hc := fresh "Hcache" in
             destruct (loadFile_frame os i m0 c0) as [Hf Hc];
             destruct (loadFile os i (m0, c0)) as [? ?]; cbn [fst snd] in Hf, Hc
         | |- context [refreshContent (?m0, ?c0)] =>
             let Hf := fresh "Hframe" in
             let Hc := fresh "Hcache" in
             destruct (refreshContent_frame m0 c0) as [Hf Hc];
             destruct (refreshContent (m0, c0)) as [? ?]; cbn [fst snd] in Hf, Hc
         | |- context [updateRendererWidth (?m0, ?c0)] =>
             let Hf := fresh "Hframe" in
             let Hc := fresh "Hcache" in
             destruct (updateRendererWidth_frame m0 c0) as [Hf Hc];
             destruct (updateRendererWidth (m0, c0)) as [? ?]; cbn [fst snd] in Hf, Hc
         end.

(** All branches of [Update] on a message. *)
Ltac branches msg :=
  destruct msg as [ | tree [err|] | | | Width Height | key | type X | ];
  cbn [Update]; unfold updateKey, updateMouse, adjustTreeViewport, expandTree;
  try match goal with
      | |- context [FindMarkdownFilesWithDepth ?o ?r ?i ?d] =>
          destruct (FindMarkdownFilesWithDepth o r i d) as [? [?|]]
      end;
  try match goal with
      | |- context [match ?t with MouseWheelUp => _ | _ => _ end] => destruct t
      end;
  xsplit_ifs; frames; cbn [fst snd]; xsplit_ifs; cbn [fst snd].

Ltac use_frames :=
  unfold same_but_content in *; xfields;
  repeat match goal with H : _ /\ _ |- _ => destruct H end.

(** The renderer cache only grows: whatever the message, a renderer that was
    cached for a width is still cached for it afterwards. *)
Theorem Update_keeps_cache (m : DualPaneModel) (cache : Cache) (msg : Msg) :
  cache_kept cache (snd (fst (Update os (m, cache) msg))).
Proof. branches msg; try assumption; apply cache_kept_refl. Qed.

(** The scan progress: a message leaves the depth counter or adds one to it
    (the counter, which starts at -1, is below the largest [int]), and raises
    the scan-in-progress flag only at the initial load. *)
Theorem Update_scan_progress (m : DualPaneModel) (cache : Cache) (msg : Msg) :
  -1 <= currentDepth m < 2 ^ 63 - 1 ->
  let m' := fst (fst (Update os (m, cache) msg)) in
  currentDepth m <= currentDepth m' <= currentDepth m + 1
  /\ (isExpanding m' = true -> isExpanding m = true \/ msg = initialLoadMsg).
Proof.
  intros Hdepth. cbv zeta. branches msg; use_frames; unfold addi in *; xunwrap;
    (split; [lia | intros Hexp; try discriminate Hexp; auto; try (left; congruence)]).
Qed.

(** Only the quit keys end the session: [Update] hands back [tea.Quit]
    exactly on a key message [q] or [ctrl+c]. *)
Theorem Update_quits_on_quit_key (m : DualPaneModel) (cache : Cache) (msg : Msg) :
  snd (Update os (m, cache) msg) = Quit
  <-> exists key, msg = KeyMsg key /\ isKey key ["q"; "ctrl+c"] = true.
Proof.
  split.
  - branches msg; intros Hquit; try discriminate Hquit.
    exists key. now split.
  - intros [key [-> Hkey]]. cbn [Update]. unfold updateKey. now rewrite Hkey.
Qed.

(** The focus is on one of the two panes and stays there. *)
Theorem Update_keeps_focus (m : DualPaneModel) (cache : Cache) (msg : Msg) :
  focusedPane m = 0 \/ focusedPane m = 1 ->
  let m' := fst (fst (Update os (m, cache) msg)) in
  focusedPane m' = 0 \/ focusedPane m' = 1.
Proof.
  intros Hfocus. cbv zeta. branches msg; use_frames;
    try (destruct Hfocus as [Hf | Hf]; [left | right]; congruence);
    try (now left); try (now right).
  destruct Hfocus as [-> | ->]; [now right | now left].
Qed.

(** A valid selection stays valid: when the selected index is an index of
    the file index, it is one afterwards too, unless the file index has
    become empty. *)
Theorem Update_keeps_selection (m : DualPaneModel) (cache : Cache) (msg : Msg) :
  0 <= selectedIndex m < len (allFiles m) ->
  len (allFiles m) < 2 ^ 62 ->
  let m' := fst (fst (Update os (m, cache) msg)) in
  allFiles m' = [] \/ 0 <= selectedIndex m' < len (allFiles m').
Proof.
  intros Hsel Hlen. cbv zeta.
  branches msg; use_frames; unfold addi, subi in *; xunwrap.
  all: try (right; unfold len in *;
            repeat match goal with
                   | H : ?x = _ |- context [?x] => rewrite H
                   end; lia).
  all: left; revert Heqb; destruct (CollectFiles_ptr tree); [reflexivity|];
    unfold len; cbn [List.length]; rewrite Z.gtb_ltb; intros Hpos;
    apply Z.ltb_ge in Hpos; lia.
Qed.
(** [adjustTreeViewport] brings the selected line into the window of the
    tree pane, and leaves the window alone when the line is in it already
    (the pane has at least one row, and the numbers are far from the ends of
    [int]). *)
Theorem adjustTreeViewport_shows_selection (m : DualPaneModel) :
  3 <= height m < 2 ^ 62 ->
  0 <= treeSelectedIdx m < 2 ^ 62 ->
  0 <= treeViewport m < 2 ^ 62 ->
  let m' := adjustTreeViewport m in
  treeViewport m' <= treeSelectedIdx m' < treeViewport m' + availableHeight m'
  /\ treeSelectedIdx m' = treeSelectedIdx m
  /\ (treeViewport m <= treeSelectedIdx m < treeViewport m + availableHeight m -> m' = m).
Proof.
  intros Hheight Hsel Hview. cbv zeta.
  unfold adjustTreeViewport, availableHeight, addi, subi. xunwrap.
  xsplit_ifs; xfields; xunwrap; repeat split; try lia; intros Hin; try reflexivity; lia.
Qed.

Ltac line_ranges :=
  repeat match goal with
         | |- context [findTreeLineForFile ?i ?l ?f] =>
             let line := fresh "line" in
             pose proof (findTreeLineForFile_range i l f);
             set (line := findTreeLineForFile i l f) in *; clearbody line
         | H : context [findTreeLineForFile ?i ?l ?f] |- _ =>
             let line := fresh "line" in
             pose proof (findTreeLineForFile_range i l f);
             set (line := findTreeLineForFile i l f) in *; clearbody line
         end.

(** The window of the tree pane and the selected line never get a negative
    index, whatever the message (the numbers are far from the ends of
    [int]). *)
Theorem Update_keeps_tree_position (m : DualPaneModel) (cache : Cache) (msg : Msg) :
  0 <= treeViewport m < 2 ^ 62 ->
  0 <= treeSelectedIdx m ->
  - 2 ^ 61 < height m < 2 ^ 61 ->
  len (treeLines m) < 2 ^ 62 ->
  let m' := fst (fst (Update os (m, cache) msg)) in
  0 <= treeViewport m' /\ 0 <= treeSelectedIdx m'.
Proof.
  intros Hview Hsel Hheight Hlines. cbv zeta.
  branches msg; use_frames; line_ranges; unfold addi, subi in *; xunwrap;
    unfold len in *; lia.
Qed.

Lemma ratio_values_closed (r : float) :
  In r ratio_values -> In (narrower r) ratio_values /\ In (wider r) ratio_values.
Proof.
  intros Hin. vm_compute in Hin.
  repeat (destruct Hin as [<- | Hin]); [..|destruct Hin];
    (split; vm_compute; repeat first [left; reflexivity | right]).
Qed.

Lemma ratio_values_bounds (r : float) :
  In r ratio_values -> PrimFloat.leb 0.2 r = true /\ PrimFloat.leb r 0.5 = true.
Proof.
  intros Hin. vm_compute in Hin.
  repeat (destruct Hin as [<- | Hin]); [..|destruct Hin];
    (split; vm_compute; reflexivity).
Qed.

Lemma Update_ratio_values (m : DualPaneModel) (cache : Cache) (msg : Msg) :
  In (splitRatio m) ratio_values ->
  In (splitRatio (fst (fst (Update os (m, cache) msg)))) ratio_values.
Proof.
  intros Hin. destruct (ratio_values_closed _ Hin) as [Hnarrow Hwide].
  unfold narrower, wider in *.
  branches msg; use_frames;
    repeat match goal with
           | H : splitRatio ?x = _ |- context [splitRatio ?x] => rewrite H
           end; assumption.
Qed.

(** The tree pane keeps between a fifth and a half of the width: in every
    run of the event loop from the initial model, the split ratio is within
    0.2 and 0.5. *)
Theorem splitRatio_stays_in_range (cwd : string) (incl : bool) (cache : Cache)
        (msgs : list Msg) :
  let m := fst (run os msgs (NewDualPaneModel cwd incl, cache)) in
  PrimFloat.leb 0.2 (splitRatio m) = true /\ PrimFloat.leb (splitRatio m) 0.5 = true.
Proof.
  cbv zeta. apply ratio_values_bounds.
  assert (Hstart : In (splitRatio (fst (NewDualPaneModel cwd incl, cache))) ratio_values)
    by (left; reflexivity).
  revert Hstart. generalize (NewDualPaneModel cwd incl, cache).
  unfold run. induction msgs as [|msg msgs IH]; intros [m c] Hin; [exact Hin|].
  cbn [fold_left]. apply IH.
  destruct (Update os (m, c) msg) as [[m' c'] cmd] eqn:Hstep.
  pose proof (Update_ratio_values m c msg Hin) as Hkeep.
  now rewrite Hstep in Hkeep.
Qed.
Lemma performExpansion_step (m : DualPaneModel) (cache : Cache) :
  isExpanding m = false ->
  -1 <= currentDepth m < 2 ^ 62 ->
  exists m',
    Update os (m, cache) performExpansionMsg
    = (m', cache, if currentDepth m + 1 <? 5 then Tick 50 performExpansionMsg else CmdNil)
    /\ isExpanding m' = false /\ currentDepth m' = currentDepth m + 1.
Proof.
  intros Hexp Hdepth. cbn [Update]. rewrite Hexp. cbn [negb]. xfields.
  unfold addi. rewrite int64_id by (unfold in_int64; lia).
  destruct (FindMarkdownFilesWithDepth os (rootPath m) (includeIgnored m)
              (currentDepth m + 1)) as [newTree [err|]];
    xfields; xsplit_ifs; unfold expandTree; xfields; xsplit_ifs; try congruence;
    eexists; (split; [reflexivity | split; reflexivity]).
Qed.

Lemma loadComplete_step (m : DualPaneModel) (cache : Cache) (tree : option FileNode) :
  exists m' cache',
    Update os (m, cache) (loadCompleteMsg tree None) = (m', cache', Tick 500 expandTreeMsg)
    /\ isExpanding m' = false /\ currentDepth m' = currentDepth m.
Proof.
  cbn [Update]. cbv zeta. xsplit_ifs; frames; use_frames;
    do 2 eexists; (split; [reflexivity | split; [|]; xfields; congruence]).
Qed.

Lemma drive_S (fuel : nat) (st : DualPaneModel * Cache) (msg : Msg) :
  drive os (S fuel) st msg
  = let '(st', cmd) := Update os st msg in
    match delivers os cmd with
    | None => Some st'
    | Some msg' => drive os fuel st' msg'
    end.
Proof. reflexivity. Qed.

Lemma drive_deepening (n : nat) :
  forall (m : DualPaneModel) (cache : Cache),
    isExpanding m = false ->
    currentDepth m = 4 - Z.of_nat n ->
    (n <= 4)%nat ->
    exists m',
      drive os (S n) (m, cache) performExpansionMsg = Some (m', cache)
      /\ isExpanding m' = false /\ currentDepth m' = 5.
Proof.
  induction n as [|n IH]; intros m cache Hexp Hdepth Hn;
    destruct (performExpansion_step m cache Hexp ltac:(lia)) as [m' [Hstep [Hexp' Hdepth']]];
    cbn [drive]; rewrite Hstep.
  - replace (currentDepth m + 1 <? 5) with false by (symmetry; apply Z.ltb_ge; lia).
    cbn [delivers]. exists m'. repeat split; [exact Hexp' | lia].
  - replace (currentDepth m + 1 <? 5) with true by (symmetry; apply Z.ltb_lt; lia).
    cbn [delivers]. apply IH; [exact Hexp' | lia | lia].
Qed.

(** The automatic deepening ends: from the initial model, the runtime
    delivers at most eight messages and then has none left; the
    scan-in-progress flag is down, and the depth counter is 5, or 0 when the
    quick scan failed. *)
Theorem automatic_deepening_ends (cwd : string) (incl : bool) (cache : Cache) :
  exists m' cache',
    drive os 8 (NewDualPaneModel cwd incl, cache) (Init (NewDualPaneModel cwd incl))
    = Some (m', cache')
    /\ isExpanding m' = false
    /\ currentDepth m' = match snd (FindMarkdownFilesQuick os cwd incl) with
                         | Some _ => 0
                         | None => 5
                         end.
Proof.
  unfold Init. rewrite drive_S.
  change (Update os (NewDualPaneModel cwd incl, cache) initialLoadMsg)
    with (set_scan true 0 (NewDualPaneModel cwd incl), cache, QuickScan cwd incl).
  cbn [delivers]. unfold runQuickScan. rewrite drive_S.
  destruct (FindMarkdownFilesQuick os cwd incl) as [tree [err|]]; cbn [snd].
  - cbn [Update delivers]. do 2 eexists. split; [reflexivity | split; reflexivity].
  - destruct (loadComplete_step (set_scan true 0 (NewDualPaneModel cwd incl)) cache tree)
      as [m1 [cache1 [Hstep [Hexp Hdepth]]]].
    rewrite Hstep. cbn [delivers]. rewrite drive_S. cbn [Update]. unfold expandTree.
    rewrite Hexp. cbn [delivers].
    destruct (drive_deepening 4 m1 cache1 Hexp ltac:(rewrite Hdepth; reflexivity)
                              ltac:(lia)) as [m' [Hdrive [Hexp' Hdepth']]].
    exists m', cache1. rewrite Hdrive. split; [reflexivity | split; assumption].
Qed.
End ControllerInvariants.

(** ** The single-file model *)

Ltac sfields :=
  cbn [fst snd sf_filepath sf_content sf_lines sf_viewport sf_width sf_height
       sf_renderer sf_raw sf_contentLoaded sf_rendererCreated
       sf_set_text sf_set_lines sf_set_viewport sf_set_view sf_set_renderer
       sf_set_size sf_set_raw NewSingleFileModel NewSingleFileModelWithContent
       SingleFile_contentRendered cr_lines cr_err] in *.

Lemma append_nil_r (a : string) : a ++ "" = a.
Proof. induction a as [|c a IH]; [reflexivity|]. rewrite append_cons. now f_equal. Qed.

Lemma skipn_nth_error {A : Type} (l : list A) :
  forall (i : nat) (x : A), nth_error l i = Some x -> skipn i l = x :: skipn (S i) l.
Proof.
  induction l as [|y l IH]; intros [|i] x Hx; try discriminate Hx.
  - now injection Hx as ->.
  - cbn [nth_error] in Hx. cbn [skipn]. rewrite (IH i x Hx). reflexivity.
Qed.

Section SingleFileFacts.
Context {engine : Glamour}.
Variable os : OS.

Lemma viewLoop_window (lines : list string) (endLine : Z) (n : nat) :
  forall (i : Z) (content : string),
    0 <= i ->
    i + Z.of_nat n = endLine ->
    endLine <= len lines ->
    len lines < 2 ^ 62 ->
    viewLoop lines endLine n i content
    = Some (content ++ String.concat (String newline EmptyString)
                                     (firstn n (skipn (Z.to_nat i) lines))).
Proof.
  induction n as [|n IH]; intros i content Hi Hend Hlen Hbound.
  - cbn [viewLoop firstn String.concat]. now rewrite append_nil_r.
  - cbn [viewLoop].
    replace (i <? 0) with false by (symmetry; apply Z.ltb_ge; lia).
    destruct (nth_error lines (Z.to_nat i)) as [line|] eqn:Hline.
    2:{ apply List.nth_error_None in Hline. unfold len in *. lia. }
    rewrite (skipn_nth_error lines _ line Hline). cbn [firstn].
    unfold addi, subi. rewrite !int64_id by (unfold in_int64, len in *; lia).
    rewrite IH by lia.
    replace (Z.to_nat (i + 1)) with (S (Z.to_nat i)) by lia.
    destruct n as [|n].
    + replace (i <? endLine - 1) with false by (symmetry; apply Z.ltb_ge; lia).
      cbn [firstn String.concat]. now rewrite append_nil_r.
    + replace (i <? endLine - 1) with true by (symmetry; apply Z.ltb_lt; lia).
      destruct (nth_error lines (S (Z.to_nat i))) as [next|] eqn:Hnext.
      2:{ apply List.nth_error_None in Hnext. unfold len in *. lia. }
      rewrite (skipn_nth_error lines _ next Hnext).
      cbn [firstn String.concat]. rewrite !app_string_assoc. reflexivity.
Qed.

Lemma SingleFile_View_window_eq (m : SingleFileModel) :
  sf_height m <> 0 ->
  - 2 ^ 62 < sf_height m < 2 ^ 62 ->
  0 <= sf_viewport m < 2 ^ 62 ->
  len (sf_lines m) < 2 ^ 62 ->
  SingleFile_View m
  = Some (String.concat (String newline EmptyString)
            (firstn (Z.to_nat (sf_height m)) (skipn (Z.to_nat (sf_viewport m)) (sf_lines m)))).
Proof.
  intros Hzero Hheight Hview Hlen. unfold SingleFile_View.
  replace (sf_height m =? 0) with false by (symmetry; apply Z.eqb_neq; exact Hzero).
  cbv zeta. unfold addi, min. rewrite int64_id by (unfold in_int64; lia).
  set (window := skipn (Z.to_nat (sf_viewport m)) (sf_lines m)).
  assert (Hwindow : Z.of_nat (length window) = Z.max 0 (len (sf_lines m) - sf_viewport m)).
  { unfold window, len. rewrite List.length_skipn. lia. }
  destruct (sf_viewport m + sf_height m <? len (sf_lines m)) eqn:Hcmp.
  - apply Z.ltb_lt in Hcmp.
    destruct (Z.le_gt_cases (sf_height m) 0) as [Hneg | Hpos].
    + replace (Z.to_nat (sf_viewport m + sf_height m - sf_viewport m)) with 0%nat by lia.
      replace (Z.to_nat (sf_height m)) with 0%nat by lia. reflexivity.
    + rewrite viewLoop_window by lia. rewrite append_nil_l.
      replace (sf_viewport m + sf_height m - sf_viewport m) with (sf_height m) by lia.
      reflexivity.
  - apply Z.ltb_ge in Hcmp.
    destruct (Z.le_gt_cases (len (sf_lines m)) (sf_viewport m)) as [Hout | Hin].
    + replace (Z.to_nat (len (sf_lines m) - sf_viewport m)) with 0%nat by lia.
      destruct window; [|cbn [length] in Hwindow; lia].
      now rewrite List.firstn_nil.
    + rewrite viewLoop_window by lia. rewrite append_nil_l. fold window.
      rewrite !List.firstn_all2 by lia. reflexivity.
Qed.

(** [View] shows the window of the lines that starts at the viewport and
    has the height of the terminal, joined by line ends: as many of these
    lines as there are (the viewport is not negative, the terminal has a
    height, and the numbers are far from the ends of [int]). *)
Theorem SingleFile_View_shows_window (m : SingleFileModel) :
  sf_height m <> 0 ->
  - 2 ^ 62 < sf_height m < 2 ^ 62 ->
  0 <= sf_viewport m < 2 ^ 62 ->
  len (sf_lines m) < 2 ^ 62 ->
  SingleFile_View m
  = Some (String.concat (String newline EmptyString)
            (firstn (Z.to_nat (sf_height m)) (skipn (Z.to_nat (sf_viewport m)) (sf_lines m)))).
Proof. apply SingleFile_View_window_eq. Qed.

(** [View] panics exactly when the viewport is negative and the terminal has
    a positive height (the numbers are far from the ends of [int]). *)
Theorem SingleFile_View_panics (m : SingleFileModel) :
  - 2 ^ 62 < sf_height m < 2 ^ 62 ->
  - 2 ^ 62 < sf_viewport m < 2 ^ 62 ->
  len (sf_lines m) < 2 ^ 62 ->
  SingleFile_View m = None <-> sf_viewport m < 0 /\ 1 <= sf_height m.
Proof.
  intros Hheight Hview Hlen. split.
  - intros Hnone.
    destruct (Z.eq_dec (sf_height m) 0) as [Hzero | Hzero].
    { unfold SingleFile_View in Hnone. rewrite Hzero in Hnone. discriminate Hnone. }
    destruct (Z.lt_ge_cases (sf_viewport m) 0) as [Hneg | Hpos].
    + split; [exact Hneg|].
      destruct (Z.le_gt_cases 1 (sf_height m)) as [Hrows | Hrows]; [exact Hrows|].
      exfalso. unfold SingleFile_View in Hnone.
      replace (sf_height m =? 0) with false in Hnone
        by (symmetry; apply Z.eqb_neq; exact Hzero).
      cbv zeta in Hnone. unfold addi, min in Hnone.
      rewrite int64_id in Hnone by (unfold in_int64; lia).
      replace (sf_viewport m + sf_height m <? len (sf_lines m)) with true in Hnone
        by (symmetry; apply Z.ltb_lt; unfold len; lia).
      replace (Z.to_nat (sf_viewport m + sf_height m - sf_viewport m)) with 0%nat in Hnone
        by lia.
      discriminate Hnone.
    + rewrite SingleFile_View_window_eq in Hnone by (try assumption; lia).
      discriminate Hnone.
  - intros [Hneg Hrows]. unfold SingleFile_View.
    replace (sf_height m =? 0) with false by (symmetry; apply Z.eqb_neq; lia).
    cbv zeta. unfold addi, min. rewrite int64_id by (unfold in_int64; lia).
    destruct (sf_viewport m + sf_height m <? len (sf_lines m));
      match goal with
      | |- viewLoop _ _ (Z.to_nat ?k) _ _ = None =>
          destruct (Z.to_nat k) as [|n] eqn:Hn; [unfold len in *; lia|]
      end;
      cbn [viewLoop];
      replace (sf_viewport m <? 0) with true by (symmetry; apply Z.ltb_lt; lia);
      reflexivity.
Qed.
Lemma half_range (h : Z) : 0 <= h -> 0 <= Z.quot h 2 <= h.
Proof.
  intros Hh. split; [apply Z.quot_pos; lia|].
  apply Z.quot_le_upper_bound; lia.
Qed.

(** The scroll keys keep the viewport within its range, from the first line
    to the last full window, and no key touches the lines or the size (the
    terminal has at least one row, and the numbers are far from the ends of
    [int]). *)
Theorem SingleFile_keys_keep_viewport (m : SingleFileModel) (key : string) :
  1 <= sf_height m < 2 ^ 62 ->
  len (sf_lines m) < 2 ^ 62 ->
  sf_viewport_ok m ->
  let m' := fst (SingleFile_Update m (SfKeyMsg key)) in
  sf_viewport_ok m' /\ sf_lines m' = sf_lines m /\ sf_height m' = sf_height m.
Proof.
  intros Hheight Hlen Hok. cbv zeta. unfold sf_viewport_ok in *.
  pose proof (half_range (sf_height m) ltac:(lia)) as Hhalf.
  cbn [SingleFile_Update]. unfold SingleFile_key, divi, addi, subi.
  rewrite !max_Zmax.
  set (half := Z.quot (sf_height m) 2) in *. clearbody half.
  xsplit_ifs; sfields;
    repeat match goal with
           | |- context [match ?r with Some _ => _ | None => _ end] => destruct r
           end;
    xsplit_ifs; sfields; unfold len in *; xunwrap; rewrite ?max_Zmax in *;
    (split; [lia | split; reflexivity]).
Qed.

(** Only the quit keys end the session: [Update] hands back [tea.Quit]
    exactly on one of the keys [q], [ctrl+c] and [esc]. *)
Theorem SingleFile_quits_on_quit_key (m : SingleFileModel) (msg : SfMsg) :
  snd (SingleFile_Update m msg) = SfQuit
  <-> exists key, msg = SfKeyMsg key /\ isKey key ["q"; "ctrl+c"; "esc"] = true.
Proof.
  split.
  - destruct msg as [content [err|] | | r [err|] | rendered | Width Height | key | ];
      cbn [SingleFile_Update]; unfold SingleFile_key; cbv zeta;
      xsplit_ifs; sfields;
      repeat match goal with
             | |- context [match ?r with Some _ => _ | None => _ end] => destruct r
             end;
      xsplit_ifs; cbn [snd]; intros Hquit; try discriminate Hquit.
    exists key. now split.
  - intros [key [-> Hkey]]. cbn [SingleFile_Update]. unfold SingleFile_key.
    now rewrite Hkey.
Qed.

Lemma createRendererInBackground_kept (width : Z) (cache cache' : Cache)
      (r : option TermRenderer) :
  createRendererInBackground width cache = (rendererCreatedMsg r None, cache') ->
  r = rendererFor width cache /\ cache' !! width = r /\ cache_kept cache cache'.
Proof.
  unfold createRendererInBackground, rendererFor.
  destruct (_ !! width) as [cached|] eqn:Hhit.
  - intros Heq. injection Heq as <- <-.
    split; [reflexivity | split; [exact Hhit | apply cache_kept_refl]].
  - destruct (NewTermRenderer width) as [new|]; intros Heq; [|discriminate Heq].
    injection Heq as <- <-.
    split; [reflexivity | split; [|now apply cache_kept_insert]].
    unfold Cache in *. apply lookup_insert_eq.
Qed.

(** A renderer that [createRendererInBackground] delivers is the cached one
    for the width or else a new one, it is in the cache for the width
    afterwards, and the cache has kept what it had. *)
Theorem createRendererInBackground_caches (width : Z) (cache cache' : Cache)
        (r : option TermRenderer) :
  createRendererInBackground width cache = (rendererCreatedMsg r None, cache') ->
  r = rendererFor width cache /\ cache' !! width = r /\ cache_kept cache cache'.
Proof. apply createRendererInBackground_kept. Qed.

Lemma SingleFile_drive_S (fuel : nat) (m : SingleFileModel) (cache : Cache) (cmd : SfCmd) :
  SingleFile_drive os (S fuel) (m, cache) cmd
  = match SingleFile_run os m cache cmd with
    | (None, cache) => Some (m, cache)
    | (Some msg, cache) =>
        let '(m, cmd) := SingleFile_Update m msg in
        SingleFile_drive os fuel (m, cache) cmd
    end.
Proof. reflexivity. Qed.

(** From a command of [createRendererInBackground] to the end: the model
    gets the renderer for the width and shows what it makes of the
    document; without a renderer the model stays as it is. *)
Lemma drive_CreateRenderer (m : SingleFileModel) (cache : Cache) (width : Z) :
  sf_raw m = false ->
  sf_renderer m = None ->
  exists m' cache',
    SingleFile_drive os 3 (m, cache) (CreateRenderer width) = Some (m', cache')
    /\ sf_renderer m' = rendererFor width cache
    /\ cache' !! width = rendererFor width cache
    /\ cache_kept cache cache'
    /\ sf_content m' = sf_content m
    /\ sf_contentLoaded m' = sf_contentLoaded m
    /\ sf_viewport m' = sf_viewport m
    /\ sf_width m' = sf_width m /\ sf_height m' = sf_height m
    /\ sf_lines m' = match rendererFor width cache with
                     | Some r =>
                         if String.eqb (sf_content m) "" then sf_lines m
                         else Split (shownText (Some r) (sf_content m)) newline
                     | None => sf_lines m
                     end.
Proof.
  intros Hraw Hnone. rewrite SingleFile_drive_S. cbn [SingleFile_run].
  destruct (createRendererInBackground width cache) as [msg cache1] eqn:Hcreate.
  pose proof Hcreate as Hmsg. unfold createRendererInBackground in Hmsg.
  assert (Hcases : (exists r, msg = rendererCreatedMsg (Some r) None
                              /\ rendererFor width cache = Some r)
                   \/ (exists err, msg = rendererCreatedMsg None (Some err)
                                   /\ rendererFor width cache = None /\ cache1 = cache)).
  { unfold rendererFor. destruct (_ !! width) as [cached|].
    - injection Hmsg as <- <-. left. now exists cached.
    - destruct (NewTermRenderer width) as [new|]; injection Hmsg as <- <-.
      + left. now exists new.
      + right. now eexists. }
  destruct Hcases as [[r [-> Hfor]] | [err [-> [Hfor ->]]]].
  - destruct (createRendererInBackground_kept width cache cache1 (Some r) Hcreate)
      as [_ [Hcached Hkept]].
    rewrite Hfor. cbn [SingleFile_Update]. cbv zeta. sfields. rewrite Hraw. cbn [negb andb].
    destruct (String.eqb (sf_content m) "") eqn:Hempty; cbn [negb].
    + exists (sf_set_renderer (Some r) m), cache1. sfields.
      repeat match goal with |- _ /\ _ => split end; try reflexivity; assumption.
    + rewrite SingleFile_drive_S. cbn [SingleFile_run SingleFile_Update].
      exists (SingleFile_contentRendered (sf_set_renderer (Some r) m)
                (renderContentAsync (sf_content m) (Some r) false)), cache1.
      sfields. repeat match goal with |- _ /\ _ => split end; try reflexivity;
        try assumption.
      unfold renderContentAsync, shownText. cbn [orb]. rewrite Hempty.
      destruct (Render r (sf_content m)); reflexivity.
  - rewrite Hfor. cbn [SingleFile_Update]. exists m, cache.
    repeat match goal with |- _ /\ _ => split end; try reflexivity; try assumption.
    + unfold rendererFor in Hfor. now destruct (_ !! width).
    + apply cache_kept_refl.
Qed.

(** A document that cannot be read: the session shows one line with the
    error and comes to rest; no renderer is made, and the cache is
    untouched. *)
Theorem SingleFile_load_failure (path err : string) (cache : Cache) :
  ReadFile os path = inr err ->
  exists m',
    SingleFile_drive os 2 (NewSingleFileModel path, cache)
                     (SingleFile_Init (NewSingleFileModel path))
    = Some (m', cache)
    /\ sf_lines m' = ["Error loading file: " ++ err]
    /\ sf_renderer m' = None
    /\ sf_contentLoaded m' = false.
Proof.
  intros Hread. unfold SingleFile_Init. sfields.
  rewrite SingleFile_drive_S. cbn [SingleFile_run]. sfields. rewrite Hread.
  cbn [SingleFile_Update]. eexists. split; [reflexivity|].
  sfields. repeat split.
Qed.

(** The lazy start, end to end: from either constructor the session loads
    the document, gets the renderer for 80 columns from the cache or makes
    and caches it, and comes to rest showing what the renderer makes of the
    document, or the document itself when there is no renderer, the
    document is empty or rendering fails. *)
Theorem SingleFile_start_shows_document (m0 : SingleFileModel) (path content : string)
        (cache : Cache) :
  (m0 = NewSingleFileModel path /\ ReadFile os path = inl content)
  \/ m0 = NewSingleFileModelWithContent path content ->
  exists m' cache',
    SingleFile_drive os 4 (m0, cache) (SingleFile_Init m0) = Some (m', cache')
    /\ sf_content m' = content
    /\ sf_renderer m' = rendererFor 80 cache
    /\ cache' !! 80 = rendererFor 80 cache
    /\ cache_kept cache cache'
    /\ sf_lines m' = Split (shownText (rendererFor 80 cache) content) newline.
Proof.
  intros Hstart.
  assert (Hloaded :
            SingleFile_drive os 4 (m0, cache) (SingleFile_Init m0)
            = SingleFile_drive os 3
                (sf_set_text content true (Split content newline) m0, cache)
                (CreateRenderer 80)
            /\ sf_raw m0 = false /\ sf_renderer m0 = None).
  { destruct Hstart as [[-> Hread] | ->]; unfold SingleFile_Init; sfields;
      rewrite SingleFile_drive_S; cbn [SingleFile_run]; sfields; rewrite ?Hread;
      cbn [SingleFile_Update]; cbv zeta; sfields; cbn [negb Z.gtb Z.compare];
      repeat split. }
  destruct Hloaded as [-> [Hraw Hnone]].
  destruct (drive_CreateRenderer (sf_set_text content true (Split content newline) m0)
              cache 80 Hraw Hnone)
    as [m' [cache' [Hdrive [Hr [Hcached [Hkept [Hcontent [_ [_ [_ [_ Hlines]]]]]]]]]]].
  exists m', cache'. sfields.
  repeat match goal with |- _ /\ _ => split end; try assumption.
  rewrite Hlines. unfold shownText.
  destruct (rendererFor 80 cache); [|reflexivity].
  destruct (String.eqb content ""); reflexivity.
Qed.

(** A resize, end to end: the model takes the new size, drops its renderer
    and gets the one for the new width; it then shows what that renderer
    makes of the document.  When no renderer can be made for the width, the
    model is left without one and keeps the lines it had. *)
Theorem SingleFile_resize_renders_again (m : SingleFileModel) (cache : Cache)
        (Width Height : Z) :
  sf_raw m = false ->
  0 < Width ->
  sf_content m <> "" ->
  let '(m1, cmd) := SingleFile_Update m (SfWindowSizeMsg Width Height) in
  exists m' cache',
    SingleFile_drive os 3 (m1, cache) cmd = Some (m', cache')
    /\ sf_width m' = Width /\ sf_height m' = Height
    /\ sf_viewport m' = sf_viewport m
    /\ sf_renderer m' = rendererFor Width cache
    /\ cache_kept cache cache'
    /\ sf_lines m' = match rendererFor Width cache with
                     | Some r => Split (shownText (Some r) (sf_content m)) newline
                     | None => sf_lines m
                     end.
Proof.
  intros Hraw Hwidth Hcontent. cbn [SingleFile_Update]. cbv zeta. sfields.
  rewrite Hraw. cbn [negb andb].
  replace (Width >? 0) with true by (symmetry; apply Z.gtb_lt; lia).
  apply String.eqb_neq in Hcontent. rewrite Hcontent. cbn [negb andb].
  destruct (drive_CreateRenderer (sf_set_renderer None (sf_set_size Width Height m))
              cache Width Hraw eq_refl)
    as [m' [cache' [Hdrive [Hr [_ [Hkept [_ [_ [Hview [Hw [Hh Hlines]]]]]]]]]]].
  exists m', cache'. sfields. rewrite Hcontent in Hlines.
  repeat match goal with |- _ /\ _ => split end; assumption.
Qed.
End SingleFileFacts.

(** ** The scroll indicator *)

Section ScrollIndicatorFacts.
Context {engine : Glamour}.

Lemma thumb_numbers (m : DualPaneModel) :
  3 <= height m < 2 ^ 30 ->
  0 <= contentViewport m < 2 ^ 30 ->
  height m - 2 <= len (renderedLines m) < 2 ^ 30 ->
  let v := height m - 2 in
  let total := len (renderedLines m) in
  let t := Z.max 1 (v * v / total) in
  thumbHeight m = t
  /\ thumbPosition m = contentViewport m * (v - t) / Z.max 1 (total - v)
  /\ 1 <= t <= v.
Proof.
  intros Hheight Hcv Hlen. cbv zeta.
  set (v := height m - 2) in *. set (total := len (renderedLines m)) in *.
  assert (Hquot : 0 <= v * v / total <= v).
  { split; [apply Z.div_pos; nia|]. apply Z.div_le_upper_bound; nia. }
  assert (Hth : thumbHeight m = Z.max 1 (v * v / total)).
  { unfold thumbHeight, subi, muli, divi. cbv zeta.
    rewrite (int64_id (height m - 2)) by (unfold in_int64; lia). fold v total.
    rewrite (int64_id (v * v)) by (unfold in_int64; nia).
    rewrite Z.quot_div_nonneg by nia.
    rewrite int64_id by (unfold in_int64; lia). apply max_Zmax. }
  split; [exact Hth | split; [|lia]].
  unfold thumbPosition, subi, muli, divi. cbv zeta. rewrite Hth.
  rewrite (int64_id (height m - 2)) by (unfold in_int64; lia). fold v total.
  set (t := Z.max 1 (v * v / total)) in *.
  assert (Ht : 1 <= t <= v) by lia.
  rewrite (int64_id (v - t)) by (unfold in_int64; lia).
  rewrite (int64_id (total - v)) by (unfold in_int64; lia).
  rewrite max_Zmax.
  assert (Hprod : 0 <= contentViewport m * (v - t) < 2 ^ 60) by nia.
  rewrite (int64_id (contentViewport m * (v - t))) by (unfold in_int64; lia).
  rewrite Z.quot_div_nonneg by lia.
  apply int64_id. unfold in_int64.
  assert (0 <= contentViewport m * (v - t) / Z.max 1 (total - v)
          <= contentViewport m * (v - t)).
  { split; [apply Z.div_pos; lia|]. apply Z.div_le_upper_bound; nia. }
  lia.
Qed.

(** The thumb of the scroll indicator lies within the bar when the document
    is at least as long as the pane: it has at least one row, starts at the
    top when the content is at its first line, and ends at the bottom when
    the content is at its last full window (the viewport is within its
    range, the pane has a row, and sizes are below 2^30). *)
Theorem thumb_within_bar (m : DualPaneModel) :
  viewport_ok m ->
  3 <= height m < 2 ^ 30 ->
  availableHeight m <= len (renderedLines m) < 2 ^ 30 ->
  1 <= thumbHeight m
  /\ 0 <= thumbPosition m
  /\ thumbPosition m + thumbHeight m <= availableHeight m
  /\ (contentViewport m = 0 -> thumbPosition m = 0)
  /\ (availableHeight m < len (renderedLines m) ->
      contentViewport m = len (renderedLines m) - availableHeight m ->
      thumbPosition m + thumbHeight m = availableHeight m).
Proof.
  intros Hok Hheight Hlen.
  unfold viewport_ok, availableHeight, subi in *.
  rewrite int64_id in * by (unfold in_int64; lia).
  destruct (thumb_numbers m Hheight ltac:(lia) ltac:(lia)) as [Hth [Hpos Hbound]].
  cbv zeta in *. rewrite Hpos, Hth. clear Hpos Hth.
  set (v := height m - 2) in *. set (total := len (renderedLines m)) in *.
  set (t := Z.max 1 (v * v / total)) in *. clearbody t.
  assert (Hcv : 0 <= contentViewport m <= total - v) by lia.
  set (s := contentViewport m) in *. clearbody s.
  split; [lia|].
  split; [apply Z.div_pos; nia|].
  split.
  - destruct (Z.eq_dec total v) as [Heq | Hne].
    + replace s with 0 by lia. rewrite Z.mul_0_l, Z.div_0_l by lia. lia.
    + assert (s * (v - t) / Z.max 1 (total - v) <= v - t)
        by (apply Z.div_le_upper_bound; nia).
      lia.
  - split.
    + intros ->. rewrite Z.mul_0_l, Z.div_0_l by lia. reflexivity.
    + intros Hlong ->. rewrite Z.max_r by lia.
      rewrite Z.mul_comm, Z.div_mul by lia. lia.
Qed.
End ScrollIndicatorFacts.

(** ** Instances of the properties above *)

Ltac by_eval :=
  vm_compute;
  repeat match goal with |- _ /\ _ => split end;
  first [reflexivity | discriminate].

Lemma addToTree_existing_path_witness :
  addToTree (lib := posix) sample_tree "/r" ["docs"; "guide.md"] false = sample_tree.
Proof.
  apply (addToTree_existing_path (lib := posix) sample_tree "/r" ["docs"; "guide.md"] false
           (Node "guide.md" "/r/docs/guide.md" false [])).
  reflexivity.
Defined.

Lemma addToTree_new_path_witness :
  exists node,
    findPath ["docs"; "api.md"]
             (addToTree (lib := posix) sample_tree "/r" ["docs"; "api.md"] false)
    = Some node
    /\ Name node = "api.md"
    /\ Path node = "/r/docs/api.md"
    /\ IsDir node = false
    /\ Children node = [].
Proof.
  apply (addToTree_new_path (lib := posix) sample_tree "/r" ["docs"; "api.md"] false).
  - discriminate.
  - reflexivity.
Defined.

Lemma addToTree_keeps_nodes_witness :
  exists y,
    findPath ["README.md"]
             (addToTree (lib := posix) sample_tree "/r" ["docs"; "api.md"] false)
    = Some y
    /\ Name y = "README.md" /\ Path y = "/r/README.md" /\ IsDir y = false.
Proof.
  apply (addToTree_keeps_nodes (lib := posix) sample_tree "/r" ["docs"; "api.md"] false
           ["README.md"] (Node "README.md" "/r/README.md" false [])).
  reflexivity.
Defined.

Lemma depth_scan_is_bounded_witness :
  exists tree,
    FindMarkdownFilesWithDepth (lib := posix) docs_os "/r" false 1 = (Some tree, None)
    /\ Z.of_nat (treeDepth tree) <= 1 + 1.
Proof. apply (depth_scan_is_bounded (lib := posix) docs_os "/r" false 1). lia. Defined.

Lemma Update_scan_progress_witness :
  let m := NewDualPaneModel (engine := wrap_engine) "/r" false in
  let m' := fst (fst (Update (lib := posix) docs_os (m, ∅) initialLoadMsg)) in
  currentDepth m <= currentDepth m' <= currentDepth m + 1
  /\ (isExpanding m' = true -> isExpanding m = true \/ initialLoadMsg = initialLoadMsg).
Proof.
  apply (Update_scan_progress (lib := posix) (engine := wrap_engine) docs_os
           (NewDualPaneModel "/r" false) ∅ initialLoadMsg).
  by_eval.
Defined.

Lemma Update_keeps_focus_witness :
  let m := NewDualPaneModel (engine := wrap_engine) "/r" false in
  let m' := fst (fst (Update (lib := posix) docs_os (m, ∅) (KeyMsg "tab"))) in
  focusedPane m' = 0 \/ focusedPane m' = 1.
Proof.
  apply (Update_keeps_focus (lib := posix) (engine := wrap_engine) docs_os
           (NewDualPaneModel "/r" false) ∅ (KeyMsg "tab")).
  left. reflexivity.
Defined.

Lemma Update_keeps_selection_witness :
  let st := session docs_os 12 [] in
  let m' := fst (fst (Update (lib := posix) docs_os st (KeyMsg "j"))) in
  allFiles m' = [] \/ 0 <= selectedIndex m' < len (allFiles m').
Proof.
  cbv zeta.
  pose proof (Update_keeps_selection (lib := posix) docs_os
                (fst (session docs_os 12 [])) (snd (session docs_os 12 []))
                (KeyMsg "j")) as Hthm.
  rewrite <- surjective_pairing in Hthm. apply Hthm; by_eval.
Defined.

Lemma adjustTreeViewport_shows_selection_witness :
  let m := set_selection 0 7 (set_size 80 5 (NewDualPaneModel (engine := wrap_engine)
                                                              "/r" false)) in
  let m' := adjustTreeViewport m in
  treeViewport m' = 5
  /\ treeViewport m' <= treeSelectedIdx m' < treeViewport m' + availableHeight m'.
Proof.
  cbv zeta. split; [reflexivity|].
  apply (adjustTreeViewport_shows_selection
           (set_selection 0 7 (set_size 80 5 (NewDualPaneModel (engine := wrap_engine)
                                                               "/r" false))));
    by_eval.
Defined.

Lemma Update_keeps_tree_position_witness :
  let st := session docs_os 5 [] in
  let m' := fst (fst (Update (lib := posix) docs_os st (KeyMsg "j"))) in
  (treeViewport (fst st) = 0 /\ treeSelectedIdx (fst st) = 0)
  /\ (treeViewport m' = 1 /\ treeSelectedIdx m' = 1)
  /\ 0 <= treeViewport m' /\ 0 <= treeSelectedIdx m'.
Proof.
  cbv zeta. split; [split; vm_compute; reflexivity|].
  split; [split; vm_compute; reflexivity|].
  pose proof (Update_keeps_tree_position (lib := posix) docs_os
                (fst (session docs_os 5 [])) (snd (session docs_os 5 []))
                (KeyMsg "j")) as Hthm.
  rewrite <- surjective_pairing in Hthm. apply Hthm; by_eval.
Defined.

Lemma thumb_within_bar_witness :
  let m := set_contentViewport 20
             (set_renderedLines (repeat "x" 30)
                (set_size 80 12 (NewDualPaneModel (engine := wrap_engine) "/r" false))) in
  thumbHeight m = 3 /\ thumbPosition m = 7
  /\ thumbPosition m + thumbHeight m <= availableHeight m.
Proof.
  cbv zeta. split; [reflexivity | split; [reflexivity|]].
  apply (thumb_within_bar
           (set_contentViewport 20
              (set_renderedLines (repeat "x" 30)
                 (set_size 80 12 (NewDualPaneModel (engine := wrap_engine) "/r" false)))));
    by_eval.
Defined.

Lemma SingleFile_View_shows_window_witness :
  let m := sf_set_size 80 2
             (sf_set_lines ["a"; "b"; "c"] (NewSingleFileModel (engine := wrap_engine) "x.md")) in
  SingleFile_View m = Some (String.concat (String newline EmptyString) ["a"; "b"]).
Proof.
  apply (SingleFile_View_shows_window
           (sf_set_size 80 2
              (sf_set_lines ["a"; "b"; "c"]
                            (NewSingleFileModel (engine := wrap_engine) "x.md"))));
    by_eval.
Defined.

(** A space key before the terminal has reported its size leaves the
    viewport at -1, and [View] panics once the size is there. *)
Lemma SingleFile_View_panics_witness :
  let m0 := NewSingleFileModel (engine := wrap_engine) "x.md" in
  let m1 := fst (SingleFile_Update m0 (SfKeyMsg " ")) in
  let m2 := fst (SingleFile_Update m1 (SfWindowSizeMsg 80 24)) in
  sf_viewport m2 = -1 /\ SingleFile_View m2 = None.
Proof.
  cbv zeta. split; [reflexivity|].
  apply (SingleFile_View_panics
           (fst (SingleFile_Update
                   (fst (SingleFile_Update (NewSingleFileModel (engine := wrap_engine) "x.md")
                                           (SfKeyMsg " ")))
                   (SfWindowSizeMsg 80 24))));
    by_eval.
Defined.

Lemma SingleFile_keys_keep_viewport_witness :
  let m := sf_set_size 80 2
             (sf_set_lines ["a"; "b"; "c"] (NewSingleFileModel (engine := wrap_engine) "x.md")) in
  let m' := fst (SingleFile_Update m (SfKeyMsg "G")) in
  sf_viewport m' = 1
  /\ sf_viewport_ok m' /\ sf_lines m' = sf_lines m /\ sf_height m' = sf_height m.
Proof.
  cbv zeta. split; [reflexivity|].
  apply (SingleFile_keys_keep_viewport
           (sf_set_size 80 2
              (sf_set_lines ["a"; "b"; "c"]
                            (NewSingleFileModel (engine := wrap_engine) "x.md")))
           "G");
    by_eval.
Defined.

Lemma createRendererInBackground_caches_witness :
  let cache' := snd (createRendererInBackground (engine := wrap_engine) 80 ∅) in
  Some 80 = rendererFor (engine := wrap_engine) 80 ∅
  /\ cache' !! 80 = Some 80
  /\ cache_kept (engine := wrap_engine) ∅ cache'.
Proof.
  apply (createRendererInBackground_caches (engine := wrap_engine) 80 ∅
           (snd (createRendererInBackground (engine := wrap_engine) 80 ∅)) (Some 80)).
  reflexivity.
Defined.

Lemma SingleFile_load_failure_witness :
  exists m',
    SingleFile_drive (engine := wrap_engine) docs_os 2
                     (NewSingleFileModel "/r/b.md", ∅)
                     (SingleFile_Init (NewSingleFileModel "/r/b.md"))
    = Some (m', ∅)
    /\ sf_lines m' = ["Error loading file: open /r/b.md: permission denied"]
    /\ sf_renderer m' = None
    /\ sf_contentLoaded m' = false.
Proof.
  apply (SingleFile_load_failure (engine := wrap_engine) docs_os "/r/b.md"
           "open /r/b.md: permission denied" ∅).
  reflexivity.
Defined.

Lemma SingleFile_start_shows_document_witness :
  exists m' cache',
    SingleFile_drive (engine := wrap_engine) docs_os 4
                     (NewSingleFileModelWithContent "stdin" "hello", ∅)
                     (SingleFile_Init (NewSingleFileModelWithContent "stdin" "hello"))
    = Some (m', cache')
    /\ sf_content m' = "hello"
    /\ sf_renderer m' = Some 80
    /\ sf_lines m' = ["hello"].
Proof.
  destruct (SingleFile_start_shows_document (engine := wrap_engine) docs_os
              (NewSingleFileModelWithContent "stdin" "hello") "stdin" "hello" ∅)
    as [m' [cache' [Hdrive [Hcontent [Hrenderer [_ [_ Hlines]]]]]]].
  - right. reflexivity.
  - exists m', cache'.
    split; [exact Hdrive | split; [exact Hcontent | split; [exact Hrenderer | exact Hlines]]].
Defined.

Lemma SingleFile_resize_renders_again_witness :
  let m := NewSingleFileModelWithContent (engine := wrap_engine) "stdin" "hello" in
  let '(m1, cmd) := SingleFile_Update m (SfWindowSizeMsg 100 30) in
  exists m' cache',
    SingleFile_drive (engine := wrap_engine) docs_os 3 (m1, ∅) cmd = Some (m', cache')
    /\ sf_width m' = 100 /\ sf_height m' = 30
    /\ sf_viewport m' = sf_viewport m
    /\ sf_renderer m' = rendererFor (engine := wrap_engine) 100 ∅
    /\ cache_kept (engine := wrap_engine) ∅ cache'
    /\ sf_lines m' = match rendererFor (engine := wrap_engine) 100 ∅ with
                     | Some r =>
                         Split (shownText (engine := wrap_engine) (Some r) (sf_content m))
                               newline
                     | None => sf_lines m
                     end.
Proof.
  apply (SingleFile_resize_renders_again (engine := wrap_engine) docs_os
           (NewSingleFileModelWithContent "stdin" "hello") ∅ 100 30).
  - reflexivity.
  - lia.
  - discriminate.
Defined.
